(** * goscp-server: a shallow embedding of the chat server and its properties

    The repository holds two variants of [main.go]: the legacy server, with one
    [Client] per connection, and the authenticated server, with a registry of
    [User]s that own [Session]s.  Both are embedded below; the authenticated
    server lives at the top level, the legacy one in [Module Legacy].

    Go pointers ([*User]) are addresses into an explicit heap; a nil pointer is
    [None] and dereferencing it is the outcome [Panic], which in Go terminates
    the whole process (no handler recovers).  Calls on a socket are recorded in
    order in a trace: the server never looks at their results.

    The handlers run as goroutines without synchronisation.  The server of
    the model interleaves them between the records of a connection and, inside
    the branch of the AUTH case that registers a user, between its statements:
    there the test of the name, the hashing, the assignment of the digest and
    the two halves of [users = append(users, ...)] are steps of their own,
    between which other handlers run.  The other cases of the switch run in
    one step each. *)

From Stdlib Require Import ZArith Ascii String List Lia Bool.
From stdpp Require Import base tactics option list gmap.
Import ListNotations.
Local Open Scope string_scope.
Local Open Scope Z_scope.

(* stdpp turns the unfolding of string concatenation off; the proofs below
   compute with byte strings. *)
#[local] Arguments String.append !s1 s2 : simpl nomatch.

(** ** Strings as Go has them: sequences of bytes *)

Definition SOH : string := String (ascii_of_nat 1) "".
Definition CRLF : string := String (ascii_of_nat 13) (String (ascii_of_nat 10) "").

(** [strings.Split(s, sep)] for a non-empty [sep]: the separator occurrences
    are found left to right and do not overlap.  [skip] counts the bytes of a
    matched separator still to be dropped; [acc] is the field being read. *)
Fixpoint splitGo (sep : string) (skip : nat) (acc : string) (s : string) : list string :=
  match s with
  | EmptyString => [acc]
  | String c s' =>
      match skip with
      | S k => splitGo sep k acc s'
      | O =>
          if String.prefix sep s
          then acc :: splitGo sep (Nat.pred (String.length sep)) "" s'
          else splitGo sep 0 (acc ++ String c "") s'
      end
  end.

Definition Split (s sep : string) : list string := splitGo sep 0 "" s.

(** [strings.Join(elems, sep)] *)
Fixpoint Join (elems : list string) (sep : string) : string :=
  match elems with
  | [] => ""
  | [e] => e
  | e :: rest => e ++ sep ++ Join rest sep
  end.

(** [string(i)] for an integer [i]: the UTF-8 encoding of the code point [i],
    and of U+FFFD when [i] is not a valid code point. *)
Definition byteOf (z : Z) : ascii := ascii_of_N (Z.to_N (Z.land z 255)).

Definition cont (z : Z) : ascii := byteOf (Z.lor 128 (Z.land z 63)).

Definition runeString (i : Z) : string :=
  if (i <? 0) || (1114111 <? i) || ((55296 <=? i) && (i <=? 57343)) then
    String (byteOf 239) (String (byteOf 191) (String (byteOf 189) ""))
  else if i <? 128 then String (byteOf i) ""
  else if i <? 2048 then
    String (byteOf (Z.lor 192 (Z.shiftr i 6))) (String (cont i) "")
  else if i <? 65536 then
    String (byteOf (Z.lor 224 (Z.shiftr i 12)))
      (String (cont (Z.shiftr i 6)) (String (cont i) ""))
  else
    String (byteOf (Z.lor 240 (Z.shiftr i 18)))
      (String (cont (Z.shiftr i 12))
         (String (cont (Z.shiftr i 6)) (String (cont i) ""))).

(** [fmt.Sprintf("%v", b)] for a bool *)
Definition fmtBool (b : bool) : string := if b then "true" else "false".

(** [strings.TrimPrefix(s, prefix)] *)
Fixpoint dropBytes (n : nat) (s : string) : string :=
  match n, s with
  | S k, String _ s' => dropBytes k s'
  | _, _ => s
  end.

Definition TrimPrefix (s pre : string) : string :=
  if String.prefix pre s then dropBytes (String.length pre) s else s.

(** ** Outcomes: a handler step returns, or the process dies *)

Inductive Outcome (A : Type) : Type :=
| Ok (a : A)
| Panic.
Arguments Ok {A} a.
Arguments Panic {A}.

#[global] Instance Outcome_bind : MBind Outcome := fun A B k m =>
  match m with
  | Ok a => k a
  | Panic => Panic
  end.

(** ** Data model of the authenticated server *)

(** Addresses of [User] objects, and connections. *)
Abbreviation ptr := nat (only parsing).
Abbreviation conn := nat (only parsing).

(** [type Session struct] *)
Record Session := mkSession {
  sessUser : option ptr;      (* User *User, nil before JOIN *)
  Authenticated : bool;
  Socket : conn;              (* *net.TCPConn, identified by the connection *)
  SignOn : Z;
  LastActive : Z;
  LocalAddr : string;
  RemoteAddr : string
}.

(** [type PrivateMessage struct] *)
Record PrivateMessage := mkPM {
  pmUser : option ptr;        (* pointer to the sending user *)
  Message : string
}.

(** [type User struct] *)
Record User := mkUser {
  Username : string;
  PasswordHash : string;
  About : string;
  Sessions : list Session;
  Online : bool;
  Mute : bool;
  Admin : bool;
  Root : bool;
  Ghost : bool;
  Away : bool;
  PendingPMs : list PrivateMessage;
  AwayReason : string;
  AwayAnnounce : bool
}.

(** Field assignments [user.F = v] *)
Definition setUsername (v : string) (u : User) : User :=
  mkUser v (PasswordHash u) (About u) (Sessions u) (Online u) (Mute u) (Admin u)
    (Root u) (Ghost u) (Away u) (PendingPMs u) (AwayReason u) (AwayAnnounce u).
Definition setPasswordHash (v : string) (u : User) : User :=
  mkUser (Username u) v (About u) (Sessions u) (Online u) (Mute u) (Admin u)
    (Root u) (Ghost u) (Away u) (PendingPMs u) (AwayReason u) (AwayAnnounce u).
Definition setSessions (v : list Session) (u : User) : User :=
  mkUser (Username u) (PasswordHash u) (About u) v (Online u) (Mute u) (Admin u)
    (Root u) (Ghost u) (Away u) (PendingPMs u) (AwayReason u) (AwayAnnounce u).
Definition setOnline (v : bool) (u : User) : User :=
  mkUser (Username u) (PasswordHash u) (About u) (Sessions u) v (Mute u) (Admin u)
    (Root u) (Ghost u) (Away u) (PendingPMs u) (AwayReason u) (AwayAnnounce u).
Definition setAway (v : bool) (u : User) : User :=
  mkUser (Username u) (PasswordHash u) (About u) (Sessions u) (Online u) (Mute u)
    (Admin u) (Root u) (Ghost u) v (PendingPMs u) (AwayReason u) (AwayAnnounce u).
Definition setPendingPMs (v : list PrivateMessage) (u : User) : User :=
  mkUser (Username u) (PasswordHash u) (About u) (Sessions u) (Online u) (Mute u)
    (Admin u) (Root u) (Ghost u) (Away u) v (AwayReason u) (AwayAnnounce u).
Definition setAwayReason (v : string) (u : User) : User :=
  mkUser (Username u) (PasswordHash u) (About u) (Sessions u) (Online u) (Mute u)
    (Admin u) (Root u) (Ghost u) (Away u) (PendingPMs u) v (AwayAnnounce u).
Definition setAwayAnnounce (v : bool) (u : User) : User :=
  mkUser (Username u) (PasswordHash u) (About u) (Sessions u) (Online u) (Mute u)
    (Admin u) (Root u) (Ghost u) (Away u) (PendingPMs u) (AwayReason u) v.

(** [User{Username: name}]: every other field has its zero value *)
Definition newUser (name : string) : User :=
  mkUser name "" "" [] false false false false false false [] "" false.

(** A call on a socket *)
Inductive SockOp :=
| SWrite (c : conn) (bytes : string)
| SClose (c : conn).

(** The state shared by all handlers. *)
Record World := mkWorld {
  heap : list User;       (* the User objects, by address *)
  users : list ptr;       (* var users = make([]*User, 0) *)
  wire : list SockOp;     (* socket calls so far, oldest first *)
  ticks : nat             (* queries to the clock and the random source so far *)
}.

Definition setHeap (h : list User) (w : World) : World :=
  mkWorld h (users w) (wire w) (ticks w).
Definition setUsers (us : list ptr) (w : World) : World :=
  mkWorld (heap w) us (wire w) (ticks w).
Definition emit (op : SockOp) (w : World) : World :=
  mkWorld (heap w) (users w) (wire w ++ [op]) (ticks w).
Definition tick (w : World) : World :=
  mkWorld (heap w) (users w) (wire w) (S (ticks w)).

(** [*p] for [p : *User] *)
Definition deref (p : option ptr) (w : World) : Outcome User :=
  match p with
  | None => Panic
  | Some a => match heap w !! a with Some u => Ok u | None => Panic end
  end.

(** [p.F = v], as an update of the object [p] points to *)
Definition modify (p : option ptr) (f : User -> User) (w : World) : Outcome World :=
  match p with
  | None => Panic
  | Some a =>
      match heap w !! a with
      | Some u => Ok (setHeap (<[a := f u]> (heap w)) w)
      | None => Panic
      end
  end.

(** [&user] for a fresh local [user] that escapes *)
Definition alloc (u : User) (w : World) : ptr * World :=
  (length (heap w), setHeap (heap w ++ [u]) w).

Definition setSessUser (p : option ptr) (s : Session) : Session :=
  mkSession p (Authenticated s) (Socket s) (SignOn s) (LastActive s)
    (LocalAddr s) (RemoteAddr s).
Definition setAuthenticated (b : bool) (s : Session) : Session :=
  mkSession (sessUser s) b (Socket s) (SignOn s) (LastActive s)
    (LocalAddr s) (RemoteAddr s).

(** ** Configuration *)

Definition joinMsg : string :=
  "This server is running an experimental Go implementation of the kSCP server specification.".
Definition motdMsg : string := "Welcome to GoSCP!".
Definition colorServer : string := "#d64161".
Definition colorAuth : string := "#ffcc00".
Definition colorInfo : string := "#f6de6c".

(** ** The methods of [Session] *)

(** A [for _, x := range l] loop whose body neither breaks nor returns. *)
Fixpoint forEach {A : Type} (body : A -> World -> Outcome World)
    (l : list A) (w : World) : Outcome World :=
  match l with
  | [] => Ok w
  | x :: rest => w' ← body x w; forEach body rest w'
  end.

(** [func (s *Session) Write(parameters ...string)] *)
Definition Write (s : Session) (parameters : list string) (w : World) : World :=
  emit (SWrite (Socket s) (Join parameters SOH ++ CRLF)) w.

(** [func (s *Session) BroadcastMsg(msg string)] *)
Definition BroadcastMsg (s : Session) (msg : string) (w : World) : Outcome World :=
  forEach (fun p w1 =>
    user ← deref (Some p) w1;
    forEach (fun session w2 =>
      if (RemoteAddr s =? RemoteAddr session)%string then Ok w2
      else su ← deref (sessUser s) w2;
           Ok (Write session ["MSG"; Username su; msg] w2))
      (Sessions user) w1)
    (users w) w.

(** [func (s *Session) BroadcastAction(msg string)] *)
Definition BroadcastAction (s : Session) (msg : string) (w : World) : Outcome World :=
  forEach (fun p w1 =>
    user ← deref (Some p) w1;
    forEach (fun session w2 =>
      if (RemoteAddr s =? RemoteAddr session)%string then Ok w2
      else Ok (Write session ["MSG"; "Announcement"; msg] w2))
      (Sessions user) w1)
    (users w) w.

Definition SendMsg (s : Session) (fromUsername msg : string) (w : World) : World :=
  Write s ["MSG"; fromUsername; msg] w.

Definition SendAuthMsg (s : Session) (msg : string) (w : World) : World :=
  Write s ["MSG"; "[Authentication]"; "[color=" ++ colorAuth ++ "]" ++ msg ++ "[/color]"] w.

Definition SendServerMsg (s : Session) (msg : string) (w : World) : World :=
  Write s ["MSG"; "[Server]"; "[color=" ++ colorServer ++ "]" ++ msg ++ "[/color]"] w.

Definition SendInfoMsg (s : Session) (msg : string) (w : World) : World :=
  Write s ["MSG"; "[Info]"; "[color=" ++ colorInfo ++ "]" ++ msg ++ "[/color]"] w.

(** The opcode is spelled [Msg] in the source. *)
Definition SendAnnouncementMsg (s : Session) (msg : string) (w : World) : World :=
  Write s ["Msg"; "Announcement"; msg] w.

(** [func (s *Session) SendPM(targetUsername, msg string)]: the loop over
    [users], left at the first user of that name. *)
Fixpoint SendPMLoop (s : Session) (targetUsername msg : string)
    (us : list ptr) (w : World) : Outcome World :=
  match us with
  | [] => Ok w
  | p :: rest =>
      user ← deref (Some p) w;
      if (targetUsername =? Username user)%string then
        if (length (Sessions user) <=? 0)%nat then
          modify (Some p)
            (fun u => setPendingPMs (PendingPMs u ++ [mkPM (sessUser s) msg]) u) w
        else
          forEach (fun session w1 =>
            su ← deref (sessUser s) w1;
            Ok (Write session ["PM"; Username su; msg] w1))
            (Sessions user) w
      else SendPMLoop s targetUsername msg rest w
  end.

Definition SendPM (s : Session) (targetUsername msg : string) (w : World) : Outcome World :=
  SendPMLoop s targetUsername msg (users w) w.

Definition SendPMFrom (s : Session) (fromusername msg : string) (w : World) : World :=
  Write s ["PM"; fromusername; msg] w.

(** [func (s *Session) SendRAW(targetUsername, raw string)] *)
Fixpoint SendRAWLoop (s : Session) (targetUsername raw : string)
    (us : list ptr) (w : World) : Outcome World :=
  match us with
  | [] => Ok w
  | p :: rest =>
      user ← deref (Some p) w;
      if (targetUsername =? Username user)%string then
        forEach (fun session w1 =>
          if (RemoteAddr s =? RemoteAddr session)%string then Ok w1
          else Ok (Write session ["RAW"; targetUsername; raw] w1))
          (Sessions user) w
      else SendRAWLoop s targetUsername raw rest w
  end.

Definition SendRAW (s : Session) (targetUsername raw : string) (w : World) : Outcome World :=
  SendRAWLoop s targetUsername raw (users w) w.

(** The inner loop of [Close]: the sessions of another remote address. *)
Fixpoint otherSessions (addr : string) (l : list Session) : list Session :=
  match l with
  | [] => []
  | session :: rest =>
      if (addr =? RemoteAddr session)%string then otherSessions addr rest
      else session :: otherSessions addr rest
  end.

(** [func (s *Session) Close()]: the loop over [users], left at the first user
    whose name is that of [s.User]. *)
Fixpoint CloseLoop (s : Session) (us : list ptr) (w : World) : Outcome World :=
  match us with
  | [] => Ok w
  | p :: rest =>
      su ← deref (sessUser s) w;
      user ← deref (Some p) w;
      if (Username su =? Username user)%string then
        let newSessions := otherSessions (RemoteAddr s) (Sessions user) in
        w1 ← modify (sessUser s) (setSessions newSessions) w;
        let w2 := emit (SClose (Socket s)) w1 in
        su' ← deref (sessUser s) w2;
        if (length (Sessions su') <=? 0)%nat then
          w3 ← modify (sessUser s) (setAway true) w2;
          modify (sessUser s) (setAwayReason "Offline.") w3
        else Ok w2
      else CloseLoop s rest w
  end.

Definition Close (s : Session) (w : World) : Outcome World :=
  CloseLoop s (users w) w.

(** [func (s *Session) Kill(reason string)] *)
Definition Kill (s : Session) (reason : string) (w : World) : Outcome World :=
  if (reason =? "")%string then Close s (Write s ["KILL"] w)
  else
    let w1 := emit (SWrite (Socket s) ("KILL" ++ SOH ++ reason ++ CRLF)) w in
    Close s (Write s ["KILL"; reason] w1).

(** The flags of one entry of the list, built as [SendList] builds them. *)
Definition userFlags (user : User) : string :=
  let flags := "O" in
  let flags := if Mute user then flags ++ "M" else flags in
  let flags := if Admin user then flags ++ "A" else flags in
  let flags := if Root user then flags ++ "R" else flags in
  let flags := if Away user then flags ++ "B" else flags in
  flags.

(** [fmt.Sprintf("[%s] %s - %s", flags, user.Username, user.About)] *)
Definition listEntry (user : User) : string :=
  "[" ++ userFlags user ++ "] " ++ Username user ++ " - " ++ About user.

(** The loop of [SendList], with [userList] as its accumulator. *)
Fixpoint SendListLoop (us : list ptr) (w : World) (userList : list string)
    : Outcome (list string) :=
  match us with
  | [] => Ok userList
  | p :: rest =>
      user ← deref (Some p) w;
      if Ghost user then SendListLoop rest w userList
      else if negb (Online user) then SendListLoop rest w userList
      else SendListLoop rest w (userList ++ [listEntry user])
  end.

(** [func (s *Session) SendList()] *)
Definition SendList (s : Session) (w : World) : Outcome World :=
  userList ← SendListLoop (users w) w [];
  Ok (Write s ["LIST"; Join userList SOH] w).

Definition Ping (s : Session) (msg : string) (w : World) : World :=
  Write s ["PING"; msg] w.

Definition Pong (s : Session) (msg : string) (w : World) : World :=
  Write s ["PONG"; msg] w.

(** [func userExists(username string) bool] *)
Fixpoint userExistsLoop (username : string) (us : list ptr) (w : World) : Outcome bool :=
  match us with
  | [] => Ok false
  | p :: rest =>
      user ← deref (Some p) w;
      if (username =? Username user)%string
         && negb (PasswordHash user =? "")%string
         && Bool.eqb (Ghost user) false
      then Ok true
      else userExistsLoop username rest w
  end.

Definition userExists (username : string) (w : World) : Outcome bool :=
  userExistsLoop username (users w) w.

(** [func getUser(username string) *User] *)
Fixpoint getUserLoop (username : string) (us : list ptr) (w : World)
    : Outcome (option ptr) :=
  match us with
  | [] => Ok None
  | p :: rest =>
      user ← deref (Some p) w;
      if (username =? Username user)%string
         && negb (PasswordHash user =? "")%string
         && Bool.eqb (Ghost user) false
      then Ok (Some p)
      else getUserLoop username rest w
  end.

Definition getUser (username : string) (w : World) : Outcome (option ptr) :=
  getUserLoop username (users w) w.

Definition setAbout (v : string) (u : User) : User :=
  mkUser (Username u) (PasswordHash u) v (Sessions u) (Online u) (Mute u) (Admin u)
    (Root u) (Ghost u) (Away u) (PendingPMs u) (AwayReason u) (AwayAnnounce u).

(** ** The connection handler *)

(** Where a handler stands in the branch of the AUTH case that registers a
    user.  [Idle] is everywhere else: at the head of the loop over [packets]. *)
Inductive Phase :=
| Idle
| Checked (password : string)        (* [userExists] has returned false *)
| Hashed (hashedPassword : string)   (* bcrypt has returned a digest *)
| Stored                             (* [session.User.PasswordHash] is assigned *)
| Loaded (snapshot : list ptr)       (* [append] has read [users] *)
| Appended.                          (* [users] is assigned *)

Section Handler.

(** The environment: [clock n] is what [time.Now().Unix()] returns at the
    [n]-th query, [GenerateFromPassword n] is bcrypt's salted hash at the
    [n]-th query ([None] when it returns an error), and
    [CompareHashAndPassword hash password] holds when bcrypt returns no
    error. *)
Variable clock : nat -> Z.
Variable GenerateFromPassword : nat -> string -> option string.
Variable CompareHashAndPassword : string -> string -> bool.

Definition casePING (s : Session) (args : list string) (w : World)
    : Outcome (Session * World) :=
  match args with
  | [] => Ok (s, w)
  | a0 :: _ => Ok (s, Pong s a0 w)
  end.

Definition caseJOIN (s : Session) (args : list string) (w : World)
    : Outcome (Session * World) :=
  online ← match sessUser s with
           | None => Ok false
           | Some _ => u ← deref (sessUser s) w; Ok (Online u)
           end;
  if online : bool then Ok (s, w)
  else
    match args with
    | [] => Ok (s, w)
    | a0 :: more =>
        let user := newUser a0 in
        let user := match more with a1 :: _ => setAbout a1 user | [] => user end in
        let '(p, w1) := alloc user w in
        let s1 := setSessUser (Some p) s in
        let w2 := Ping s1 (runeString (clock (ticks w1))) (tick w1) in
        found ← userExists a0 w2;
        if found : bool then
          p' ← getUser a0 w2;
          let s2 := setSessUser p' s1 in
          Ok (s2, SendAuthMsg s2
            "You must authenticate with the password attached to your username to continue. Ex: [u]/auth MyPassword[/u]" w2)
        else
          Ok (s1, SendAuthMsg s1
            "You must register a password to attach to your username to continue. Ex: [u]/auth MyNewPassword[/u]" w2)
    end.

(** The tail of the AUTH case, reached after a password was verified or a
    user registered: from [session.User.Sessions = append(...)] on. *)
Definition attach (s : Session) (w : World) : Outcome (Session * World) :=
  w1 ← modify (sessUser s) (fun u => setSessions (Sessions u ++ [s]) u) w;
  w2 ← modify (sessUser s) (setOnline true) w1;
  w3 ← modify (sessUser s) (setAway false) w2;
  w4 ← modify (sessUser s) (setAwayReason "") w3;
  let s1 := setAuthenticated true s in
  w5 ← SendList s1 w4;
  let w6 := SendAnnouncementMsg s1 joinMsg w5 in
  let w7 := SendMsg s1 "Message of the Day" motdMsg w6 in
  u ← deref (sessUser s1) w7;
  w8 ← forEach (fun pm w' =>
          sender ← deref (pmUser pm) w';
          Ok (SendPMFrom s1 (Username sender) (Message pm) w'))
        (PendingPMs u) w7;
  Ok (s1, w8).

Definition caseAUTH (s : Session) (args : list string) (w : World)
    : Outcome (Session * World) :=
  match args with
  | [] => Ok (s, w)
  | password :: _ =>
      if Authenticated s then
        match GenerateFromPassword (ticks w) password with
        | None =>
            Ok (s, SendAuthMsg s
              "There was an error changing your password. Please try again." (tick w))
        | Some hashedPassword =>
            w1 ← modify (sessUser s) (setPasswordHash hashedPassword) (tick w);
            Ok (s, SendAuthMsg s "Changed your password successfully." w1)
        end
      else
        u ← deref (sessUser s) w;
        if negb (PasswordHash u =? "")%string then
          if negb (CompareHashAndPassword (PasswordHash u) password) then
            Ok (s, SendAuthMsg s "You entered an invalid password. Please try again." w)
          else
            attach s (SendAuthMsg s
              ("Authenticated as " ++ Username u ++ " successfully.") w)
        else
          found ← userExists (Username u) w;
          if found : bool then
            Ok (s, SendAuthMsg s
              ("The username " ++ Username u ++
               " is already taken. Please change your username and try again. Ex: [u]/nick MyNewUsername[/u]") w)
          else
            match GenerateFromPassword (ticks w) password with
            | None =>
                Ok (s, SendAuthMsg s
                  "There was an error registering your username with your chosen password. Please try again."
                  (tick w))
            | Some hashedPassword =>
                w1 ← modify (sessUser s) (setPasswordHash hashedPassword) (tick w);
                match sessUser s with
                | None => Panic
                | Some p =>
                    let w2 := setUsers (users w1 ++ [p]) w1 in
                    let w3 := SendAuthMsg s
                      "Registered your username with your chosen password successfully." w2 in
                    u3 ← deref (sessUser s) w3;
                    w4 ← BroadcastAction s (Username u3 ++ " has joined the server!") w3;
                    attach s w4
                end
            end
  end.

(** The way of a record into the registering branch of the AUTH case: the
    record is an AUTH with a password, the session is not authenticated, its
    user has no digest, and [userExists] finds the name free.  [Some password]
    when the handler gets there, [None] on every other path. *)
Definition registrationOf (s : Session) (record : string) (w : World) : option string :=
  if (record =? "")%string then None
  else
    match Split record SOH with
    | cmd :: password :: _ =>
        if (cmd =? "AUTH")%string && negb (Authenticated s) then
          match deref (sessUser s) w with
          | Ok u =>
              if (PasswordHash u =? "")%string then
                match userExists (Username u) w with
                | Ok false => Some password
                | _ => None
                end
              else None
          | Panic => None
          end
        else None
    | _ => None
    end.

(** One statement of the registering branch, from the phase [ph] on: the
    call of bcrypt, [session.User.PasswordHash = ...], the read of [users] by
    [append], the assignment [users = ...], and the rest of the case. *)
Definition statement (s : Session) (ph : Phase) (w : World)
    : Outcome (Session * Phase * World) :=
  match ph with
  | Idle => Ok (s, Idle, w)
  | Checked password =>
      match GenerateFromPassword (ticks w) password with
      | None =>
          Ok (s, Idle, SendAuthMsg s
            "There was an error registering your username with your chosen password. Please try again."
            (tick w))
      | Some hashedPassword => Ok (s, Hashed hashedPassword, tick w)
      end
  | Hashed hashedPassword =>
      w1 ← modify (sessUser s) (setPasswordHash hashedPassword) w;
      Ok (s, Stored, w1)
  | Stored => Ok (s, Loaded (users w), w)
  | Loaded snapshot =>
      match sessUser s with
      | None => Panic   (* not reached: the assignment before went through [session.User] *)
      | Some p => Ok (s, Appended, setUsers (snapshot ++ [p]) w)
      end
  | Appended =>
      let w3 := SendAuthMsg s
        "Registered your username with your chosen password successfully." w in
      u3 ← deref (sessUser s) w3;
      w4 ← BroadcastAction s (Username u3 ++ " has joined the server!") w3;
      '(s', w') ← attach s w4;
      Ok (s', Idle, w')
  end.

(** The statements of the branch one after the other, with no other handler
    in between, until the handler is back at the head of its loop. *)
Fixpoint statements (n : nat) (s : Session) (ph : Phase) (w : World)
    : Outcome (Session * World) :=
  match ph, n with
  | Idle, _ => Ok (s, w)
  | _, O => Ok (s, w)
  | _, S n' =>
      '(s', ph', w') ← statement s ph w;
      statements n' s' ph' w'
  end.

Definition caseQUIT (s : Session) (w : World) : Outcome (Session * World) :=
  w1 ← Close s w; Ok (s, w1).

Definition caseMSG (s : Session) (args : list string) (w : World)
    : Outcome (Session * World) :=
  if negb (Authenticated s) then Ok (s, w)
  else
    match args with
    | a0 :: a1 :: _ =>
        u ← deref (sessUser s) w;
        if negb (a0 =? Username u)%string then Ok (s, w)
        else w1 ← BroadcastMsg s a1 w; Ok (s, w1)
    | _ => Ok (s, w)
    end.

Definition casePM (s : Session) (args : list string) (w : World)
    : Outcome (Session * World) :=
  if negb (Authenticated s) then Ok (s, w)
  else
    match args with
    | a0 :: a1 :: _ =>
        found ← userExists a0 w;
        if negb found then
          Ok (s, SendServerMsg s ("The user " ++ a0 ++ " does not exist.") w)
        else w1 ← SendPM s a0 a1 w; Ok (s, w1)
    | _ => Ok (s, w)
    end.

Definition caseLIST (s : Session) (w : World) : Outcome (Session * World) :=
  if negb (Authenticated s) then Ok (s, w)
  else w1 ← SendList s w; Ok (s, w1).

Definition caseNAME (s : Session) (args : list string) (w : World)
    : Outcome (Session * World) :=
  match args with
  | a0 :: a1 :: _ =>
      u ← deref (sessUser s) w;
      if negb (Username u =? a0)%string then Ok (s, w)
      else
        found ← userExists a1 w;
        if found : bool then
          if Authenticated s then
            Ok (s, SendServerMsg s ("The username " ++ a0 ++ " is already taken.") w)
          else
            Ok (s, SendAuthMsg s ("The username " ++ a0 ++ " is already taken.") w)
        else
          w1 ← modify (sessUser s) (setUsername a1) w;
          if Authenticated s then
            w2 ← BroadcastAction s (a0 ++ " is now known as " ++ a1 ++ ".") w1;
            w3 ← SendList s w2;
            Ok (s, w3)
          else
            Ok (s, SendAnnouncementMsg s (a0 ++ " is now known as " ++ a1 ++ ".") w1)
  | _ => Ok (s, w)
  end.

(** The text of the INFO reply; [%%] in a format string prints [%]. *)
Definition userInfoText (user : User) : string :=
  let userInfo :=
    "Info for user " ++ Username user ++ ":%n%Online: " ++ fmtBool (Online user)
      ++ "%n%Away: " ++ fmtBool (Away user) ++ "%n%" in
  let userInfo :=
    if negb (AwayReason user =? "")%string
    then userInfo ++ "Away reason: " ++ AwayReason user ++ "%n%"
    else userInfo in
  userInfo ++ "Muted: " ++ fmtBool (Mute user) ++ "%n%Admin: " ++ fmtBool (Admin user)
    ++ "%n%Root: " ++ fmtBool (Root user) ++ "%n%".

Definition caseINFO (s : Session) (args : list string) (w : World)
    : Outcome (Session * World) :=
  u ← deref (sessUser s) w;
  if negb (Online u) then Ok (s, w)
  else
    match args with
    | [] => Ok (s, w)
    | a0 :: _ =>
        found ← userExists a0 w;
        if negb found then
          Ok (s, SendServerMsg s ("The user " ++ a0 ++ " does not exist.") w)
        else
          p ← getUser a0 w;
          user ← deref p w;
          Ok (s, SendInfoMsg s (TrimPrefix (userInfoText user) "%%n%%") w)
    end.

Definition caseRAW (s : Session) (args : list string) (w : World)
    : Outcome (Session * World) :=
  u ← deref (sessUser s) w;
  if negb (Online u) then Ok (s, w)
  else
    match args with
    | a0 :: a1 :: _ =>
        found ← userExists a0 w;
        if negb found then
          Ok (s, SendServerMsg s ("The user " ++ a0 ++ " does not exist.") w)
        else w1 ← SendRAW s a0 a1 w; Ok (s, w1)
    | _ => Ok (s, w)
    end.

Definition caseAWAY (s : Session) (args : list string) (w : World)
    : Outcome (Session * World) :=
  u ← deref (sessUser s) w;
  if negb (Online u) then Ok (s, w)
  else
    w' ← (if Away u then
            w1 ← modify (sessUser s) (setAway false) w;
            let w2 := SendInfoMsg s "You are no longer marked as away." w1 in
            w3 ← (if AwayAnnounce u
                  then BroadcastAction s (Username u ++ " is no longer marked as away.") w2
                  else Ok w2);
            w4 ← modify (sessUser s) (setAwayAnnounce false) w3;
            modify (sessUser s) (setAwayReason "") w4
          else
            w1 ← modify (sessUser s) (setAway true) w;
            match args with
            | a0 :: more =>
                w2 ← modify (sessUser s) (setAwayReason a0) w1;
                let w3 := SendInfoMsg s ("You are now marked as away. Reason: " ++ a0) w2 in
                match more with
                | a1 :: _ =>
                    if (a1 =? "1")%string then
                      w4 ← modify (sessUser s) (setAwayAnnounce true) w3;
                      BroadcastAction s
                        (Username u ++ " is now marked as away. Reason: " ++ a0) w4
                    else Ok w3
                | [] => Ok w3
                end
            | [] => Ok (SendInfoMsg s "You are now marked as away." w1)
            end);
    w'' ← SendList s w';
    Ok (s, w'').

(** The [switch cmd] of [handleClient]. *)
Definition dispatch (s : Session) (cmd : string) (args : list string) (w : World)
    : Outcome (Session * World) :=
  if (cmd =? "PING")%string then casePING s args w
  else if (cmd =? "PONG")%string then Ok (s, w)
  else if (cmd =? "JOIN")%string then caseJOIN s args w
  else if (cmd =? "AUTH")%string then caseAUTH s args w
  else if (cmd =? "QUIT")%string then caseQUIT s w
  else if (cmd =? "MSG")%string then caseMSG s args w
  else if (cmd =? "PM")%string then casePM s args w
  else if (cmd =? "LIST")%string then caseLIST s w
  else if (cmd =? "NAME")%string then caseNAME s args w
  else if (cmd =? "INFO")%string then caseINFO s args w
  else if (cmd =? "RAW")%string then caseRAW s args w
  else if (cmd =? "AWAY")%string then caseAWAY s args w
  else Ok (s, SendServerMsg s ("Server does not support opcode [b]" ++ cmd ++ "[/b].") w).

(** The body of the loop over [packets], for the record [packets[i]]. *)
Definition handlePacket (s : Session) (record : string) (w : World)
    : Outcome (Session * World) :=
  if (record =? "")%string then Ok (s, w)
  else
    match Split record SOH with
    | [] => Ok (s, w)
    | cmd :: args => dispatch s cmd args w
    end.

(** The loop [for i := 0; i < len(packets); i++]. *)
Fixpoint handlePackets (s : Session) (packets : list string) (w : World)
    : Outcome (Session * World) :=
  match packets with
  | [] => Ok (s, w)
  | record :: rest =>
      '(s', w') ← handlePacket s record w;
      handlePackets s' rest w'
  end.

(** One turn of the outer loop after a read that returned [buf[:l]]. *)
Definition handleRead (s : Session) (buf : string) (w : World)
    : Outcome (Session * World) :=
  if (String.length buf <=? 0)%nat then Ok (s, w)
  else handlePackets s (Split buf CRLF) w.

(** The outer loop of [handleClient] over the reads of one connection; the
    read that follows the last element of [reads] fails, which closes the
    session and ends the handler.  What the reads return is up to the peer
    and the network: the model takes any sequence of reads, also those that
    Go would refuse on a socket the server has closed. *)
Fixpoint handleReads (s : Session) (reads : list string) (w : World) : Outcome World :=
  match reads with
  | [] => Close s w
  | buf :: rest =>
      '(s', w') ← handleRead s buf w;
      handleReads s' rest w'
  end.

End Handler.

(** ** The server: its handlers interleaved *)

(** A running [handleClient]: its local [session], the records of the
    current read that the loop over [packets] has not reached yet, and where
    it stands when it is registering a user. *)
Record Handler := mkHandler {
  session : Session;
  packets : list string;
  phase : Phase
}.

Record Server := mkServer {
  world : World;
  handlers : gmap conn Handler;
  accepted : nat          (* connections accepted so far *)
}.

(** What the scheduler and the network can do next.  [Next c] runs one turn
    of the loop over [packets] of the handler of [c] in one piece; [Stmt c]
    runs one statement of the registering branch of the AUTH case instead, so
    that other handlers can run before the next one.  On a record that
    registers, [Next c] is the schedule in which no other handler runs
    between these statements. *)
Inductive Event :=
| Accept (localAddr remoteAddr : string)   (* AcceptTCP returned a connection *)
| Read (c : conn) (buf : string)           (* c.Read returned buf[:l] *)
| Next (c : conn)                          (* one turn of the loop over packets *)
| Stmt (c : conn)                          (* one statement of a registration *)
| ReadError (c : conn).                    (* c.Read returned an error *)

Definition initWorld : World := mkWorld [] [] [] 0.
Definition initServer : Server := mkServer initWorld ∅ 0.

Section Machine.

Variable clock : nat -> Z.
Variable GenerateFromPassword : nat -> string -> option string.
Variable CompareHashAndPassword : string -> string -> bool.

(** The [Session] literal at the head of [handleClient]. *)
Definition newSession (c : conn) (localAddr remoteAddr : string) (w : World) : Session :=
  mkSession None false c (clock (ticks w)) (clock (S (ticks w))) localAddr remoteAddr.

(** [None]: the event cannot happen in this state, or the process died. *)
Definition step (σ : Server) (e : Event) : option Server :=
  match e with
  | Accept localAddr remoteAddr =>
      let c := accepted σ in
      let s := newSession c localAddr remoteAddr (world σ) in
      Some (mkServer (tick (tick (world σ)))
              (<[c := mkHandler s [] Idle]> (handlers σ)) (S c))
  | Read c buf =>
      match handlers σ !! c with
      | Some (mkHandler s [] Idle) =>
          if (Z.of_nat (String.length buf) <=? 65535)%Z then   (* buf := make([]byte, 65535) *)
            let ps := if (String.length buf <=? 0)%nat then [] else Split buf CRLF in
            Some (mkServer (world σ) (<[c := mkHandler s ps Idle]> (handlers σ)) (accepted σ))
          else None
      | _ => None
      end
  | Next c =>
      match handlers σ !! c with
      | Some (mkHandler s (record :: rest) Idle) =>
          match handlePacket clock GenerateFromPassword CompareHashAndPassword
                  s record (world σ) with
          | Ok (s', w') =>
              Some (mkServer w' (<[c := mkHandler s' rest Idle]> (handlers σ)) (accepted σ))
          | Panic => None
          end
      | _ => None
      end
  | Stmt c =>
      match handlers σ !! c with
      | Some (mkHandler s (record :: rest) Idle) =>
          match registrationOf s record (world σ) with
          | Some password =>
              Some (mkServer (world σ)
                      (<[c := mkHandler s rest (Checked password)]> (handlers σ))
                      (accepted σ))
          | None => None
          end
      | Some (mkHandler s [] Idle) => None
      | Some (mkHandler s ps ph) =>
          match statement GenerateFromPassword s ph (world σ) with
          | Ok (s', ph', w') =>
              Some (mkServer w' (<[c := mkHandler s' ps ph']> (handlers σ)) (accepted σ))
          | Panic => None
          end
      | None => None
      end
  | ReadError c =>
      match handlers σ !! c with
      | Some (mkHandler s [] Idle) =>
          match Close s (world σ) with
          | Ok w' => Some (mkServer w' (delete c (handlers σ)) (accepted σ))
          | Panic => None
          end
      | _ => None
      end
  end.

Fixpoint run (σ : Server) (events : list Event) : option Server :=
  match events with
  | [] => Some σ
  | e :: rest =>
      match step σ e with
      | Some σ' => run σ' rest
      | None => None
      end
  end.

Definition reachable (σ : Server) : Prop :=
  ∃ events, run initServer events = Some σ.

End Machine.

(** ** The legacy server: one [Client] per connection *)

Module Legacy.

(** [type Client struct] *)
Record Client := mkClient {
  Socket : conn;
  Username : string;
  UserAgent : string;
  SignOn : Z;
  LastActive : Z;
  LocalAddr : string;
  RemoteAddr : string;
  Online : bool;
  Mute : bool;
  Admin : bool;
  Root : bool;
  Ghost : bool;
  Away : bool;
  AwayReason : string;
  AwayAnnounce : bool
}.

(** The loop of [broadcastMsg] over [clients]. *)
Fixpoint broadcastLoop (username fromUsername msg : string)
    (clients : list Client) (wire : list SockOp) : list SockOp :=
  match clients with
  | [] => wire
  | client :: rest =>
      if (Username client =? fromUsername)%string
      then broadcastLoop username fromUsername msg rest wire
      else broadcastLoop username fromUsername msg rest
             (wire ++ [SWrite (Socket client)
                         ("MSG" ++ SOH ++ username ++ SOH ++ msg ++ CRLF)])
  end.

(** [func broadcastMsg(username, fromUsername, msg string)] *)
Definition broadcastMsg (clients : list Client) (username fromUsername msg : string)
    (wire : list SockOp) : list SockOp :=
  if (length clients <? 1)%nat then wire
  else broadcastLoop username fromUsername msg clients wire.

End Legacy.

(** ** The legacy server: its other functions and its handler

    [clients] is a slice of pointers: the [Client] objects live in a heap of
    their own, and the handler of a connection holds the address of its
    client, also after the client has been taken off [clients]. *)

Module LegacyHandler.

Import Legacy.

(** Field assignments [client.F = v] *)
Definition setUsername (v : string) (c : Client) : Client :=
  mkClient (Socket c) v (UserAgent c) (SignOn c) (LastActive c) (LocalAddr c)
    (RemoteAddr c) (Online c) (Mute c) (Admin c) (Root c) (Ghost c) (Away c)
    (AwayReason c) (AwayAnnounce c).
Definition setUserAgent (v : string) (c : Client) : Client :=
  mkClient (Socket c) (Username c) v (SignOn c) (LastActive c) (LocalAddr c)
    (RemoteAddr c) (Online c) (Mute c) (Admin c) (Root c) (Ghost c) (Away c)
    (AwayReason c) (AwayAnnounce c).
Definition setOnline (v : bool) (c : Client) : Client :=
  mkClient (Socket c) (Username c) (UserAgent c) (SignOn c) (LastActive c) (LocalAddr c)
    (RemoteAddr c) v (Mute c) (Admin c) (Root c) (Ghost c) (Away c)
    (AwayReason c) (AwayAnnounce c).
Definition setAway (v : bool) (c : Client) : Client :=
  mkClient (Socket c) (Username c) (UserAgent c) (SignOn c) (LastActive c) (LocalAddr c)
    (RemoteAddr c) (Online c) (Mute c) (Admin c) (Root c) (Ghost c) v
    (AwayReason c) (AwayAnnounce c).
Definition setAwayReason (v : string) (c : Client) : Client :=
  mkClient (Socket c) (Username c) (UserAgent c) (SignOn c) (LastActive c) (LocalAddr c)
    (RemoteAddr c) (Online c) (Mute c) (Admin c) (Root c) (Ghost c) (Away c)
    v (AwayAnnounce c).
Definition setAwayAnnounce (v : bool) (c : Client) : Client :=
  mkClient (Socket c) (Username c) (UserAgent c) (SignOn c) (LastActive c) (LocalAddr c)
    (RemoteAddr c) (Online c) (Mute c) (Admin c) (Root c) (Ghost c) (Away c)
    (AwayReason c) v.

(** The state shared by the handlers of the legacy server. *)
Record State := mkState {
  objects : list Client;    (* the Client objects, by address *)
  clients : list ptr;       (* var clients = make([]*Client, 0) *)
  trace : list SockOp       (* socket calls so far, oldest first *)
}.

Definition setObjects (v : list Client) (st : State) : State :=
  mkState v (clients st) (trace st).
Definition setClients (v : list ptr) (st : State) : State :=
  mkState (objects st) v (trace st).
Definition setTrace (v : list SockOp) (st : State) : State :=
  mkState (objects st) (clients st) v.
Definition call (op : SockOp) (st : State) : State :=
  setTrace (trace st ++ [op]) st.

(** [*p] for [p : *Client] *)
Definition get (st : State) (p : ptr) : Outcome Client :=
  match objects st !! p with
  | Some c => Ok c
  | None => Panic
  end.

(** [p.F = v] *)
Definition update (p : ptr) (f : Client -> Client) (st : State) : Outcome State :=
  match objects st !! p with
  | Some c => Ok (setObjects (<[p := f c]> (objects st)) st)
  | None => Panic
  end.

(** The clients that [ps] points to. *)
Fixpoint getAll (st : State) (ps : list ptr) : Outcome (list Client) :=
  match ps with
  | [] => Ok []
  | p :: rest => c ← get st p; cs ← getAll st rest; Ok (c :: cs)
  end.

(** [func broadcastMsg], on the shared state *)
Definition broadcast (username fromUsername msg : string) (st : State) : Outcome State :=
  cs ← getAll st (clients st);
  Ok (setTrace (broadcastMsg cs username fromUsername msg (trace st)) st).

(** The loop of [sendMsg] and of [sendPM], left at the first client of that
    name; [opcode] is [MSG] or [PM]. *)
Fixpoint sendLoop (opcode fromUsername toUsername msg : string)
    (cs : list Client) (wire : list SockOp) : list SockOp :=
  match cs with
  | [] => wire
  | client :: rest =>
      if (Username client =? toUsername)%string
      then wire ++ [SWrite (Socket client)
                      (opcode ++ SOH ++ fromUsername ++ SOH ++ msg ++ CRLF)]
      else sendLoop opcode fromUsername toUsername msg rest wire
  end.

(** [func sendMsg(fromUsername, toUsername, msg string)] *)
Definition sendMsg (cs : list Client) (fromUsername toUsername msg : string)
    (wire : list SockOp) : list SockOp :=
  if (length cs <? 1)%nat then wire
  else sendLoop "MSG" fromUsername toUsername msg cs wire.

(** [func sendPM(fromUsername, toUsername, msg string)] *)
Definition sendPM (cs : list Client) (fromUsername toUsername msg : string)
    (wire : list SockOp) : list SockOp :=
  if (length cs <? 1)%nat then wire
  else sendLoop "PM" fromUsername toUsername msg cs wire.

Definition send (fromUsername toUsername msg : string) (st : State) : Outcome State :=
  cs ← getAll st (clients st);
  Ok (setTrace (sendMsg cs fromUsername toUsername msg (trace st)) st).

Definition sendPrivate (fromUsername toUsername msg : string) (st : State)
    : Outcome State :=
  cs ← getAll st (clients st);
  Ok (setTrace (sendPM cs fromUsername toUsername msg (trace st)) st).

(** The loop of [kickClient]: the clients of another remote address. *)
Fixpoint kickLoop (st : State) (addr : string) (ps : list ptr) : Outcome (list ptr) :=
  match ps with
  | [] => Ok []
  | p :: rest =>
      c ← get st p;
      newClients ← kickLoop st addr rest;
      if (addr =? RemoteAddr c)%string then Ok newClients else Ok (p :: newClients)
  end.

(** [func kickClient(client *Client)] *)
Definition kickClient (me : ptr) (st : State) : Outcome State :=
  if (length (clients st) <? 1)%nat then Ok st
  else
    client ← get st me;
    newClients ← kickLoop st (RemoteAddr client) (clients st);
    Ok (call (SClose (Socket client)) (setClients newClients st)).

(** [func killClient(client *Client, reason string)] *)
Definition killClient (me : ptr) (reason : string) (st : State) : Outcome State :=
  if (length (clients st) <? 1)%nat then Ok st
  else
    client ← get st me;
    let st1 :=
      if (reason =? "")%string then call (SWrite (Socket client) ("KILL" ++ CRLF)) st
      else call (SWrite (Socket client) ("KILL" ++ SOH ++ reason ++ CRLF)) st in
    kickClient me st1.

(** The flags of one entry of the list, as [sendList] builds them. *)
Definition clientFlags (client : Client) : string :=
  let flags := "O" in
  let flags := if Mute client then flags ++ "M" else flags in
  let flags := if Admin client then flags ++ "A" else flags in
  let flags := if Root client then flags ++ "R" else flags in
  let flags := if Away client then flags ++ "B" else flags in
  flags.

(** The loop of [sendList], with [users] as its accumulator. *)
Fixpoint listLoop (cs : list Client) (users : list string) : list string :=
  match cs with
  | [] => users
  | client :: rest =>
      if Ghost client then listLoop rest users
      else if negb (Online client) then listLoop rest users
      else listLoop rest
             (users ++ ["[" ++ clientFlags client ++ "] " ++ Username client
                        ++ " - " ++ UserAgent client])
  end.

(** [func sendList(c *net.TCPConn)] *)
Definition sendList (cs : list Client) (c : conn) (wire : list SockOp) : list SockOp :=
  if (length cs <? 1)%nat then wire
  else wire ++ [SWrite c ("LIST" ++ SOH ++ Join (listLoop cs []) SOH ++ CRLF)].

Definition sendListTo (c : conn) (st : State) : Outcome State :=
  cs ← getAll st (clients st);
  Ok (setTrace (sendList cs c (trace st)) st).

(** How one turn of the loop over the records ends: the loop goes on, or
    [handleClient] returns. *)
Inductive Flow :=
| Go (st : State)
| Return (st : State).

(** [case "JOIN"]; with one argument the third [if] reads [args[1]], which
    is out of range. *)
Definition caseJOIN (me : ptr) (args : list string) (st : State) : Outcome Flow :=
  client ← get st me;
  if Online client then Ok (Go st)
  else
    match args with
    | [] => Ok (Go st)
    | a0 :: more =>
        st1 ← (if (length args <? 2)%nat then update me (setUsername a0) st else Ok st);
        st2 ← (if (length args <? 3)%nat then
                 st' ← update me (setUsername a0) st1;
                 match more with
                 | a1 :: _ => update me (setUserAgent a1) st'
                 | [] => Panic
                 end
               else Ok st1);
        client ← get st2 me;
        cs ← getAll st2 (clients st2);
        if existsb (fun otherClient =>
                      (Username client =? Username otherClient)%string
                      && negb (RemoteAddr client =? RemoteAddr otherClient)%string) cs
        then st3 ← killClient me "Username is already in use." st2; Ok (Return st3)
        else
          st3 ← update me (setOnline true) st2;
          client ← get st3 me;
          st4 ← broadcast "Announcement" (Username client)
                  (Username client ++ " has joined the chat!") st3;
          st5 ← send "Announcement" (Username client) joinMsg st4;
          st6 ← send "Message of the Day" (Username client) motdMsg st5;
          Ok (Go st6)
    end.

Definition caseQUIT (me : ptr) (st : State) : Outcome Flow :=
  st1 ← kickClient me st;
  client ← get st1 me;
  st2 ← broadcast "Announcement" (Username client)
          (Username client ++ " has left the chat!") st1;
  Ok (Go st2).

Definition caseMSG (me : ptr) (args : list string) (st : State) : Outcome Flow :=
  client ← get st me;
  if negb (Online client) then Ok (Go st)
  else
    match args with
    | a0 :: a1 :: _ => st1 ← broadcast a0 a0 a1 st; Ok (Go st1)
    | _ => Ok (Go st)
    end.

Definition casePM (me : ptr) (args : list string) (st : State) : Outcome Flow :=
  client ← get st me;
  if negb (Online client) then Ok (Go st)
  else
    match args with
    | a0 :: a1 :: _ => st1 ← sendPrivate (Username client) a0 a1 st; Ok (Go st1)
    | _ => Ok (Go st)
    end.

Definition caseLIST (me : ptr) (st : State) : Outcome Flow :=
  client ← get st me;
  if negb (Online client) then Ok (Go st)
  else st1 ← sendListTo (Socket client) st; Ok (Go st1).

Definition caseNAME (me : ptr) (args : list string) (st : State) : Outcome Flow :=
  client ← get st me;
  if negb (Online client) then Ok (Go st)
  else
    match args with
    | a0 :: a1 :: _ =>
        if negb (Username client =? a0)%string then Ok (Go st)
        else
          st1 ← update me (setUsername a1) st;
          st2 ← broadcast "Announcement" "" (a0 ++ " is now known as " ++ a1 ++ ".") st1;
          st3 ← sendListTo (Socket client) st2;
          Ok (Go st3)
    | _ => Ok (Go st)
    end.

Definition caseAWAY (me : ptr) (args : list string) (st : State) : Outcome Flow :=
  client ← get st me;
  if negb (Online client) then Ok (Go st)
  else
    st' ← (if Away client then
             st1 ← update me (setAway false) st;
             st2 ← send "Announcement" (Username client)
                     "You are no longer marked as away." st1;
             st3 ← (if AwayAnnounce client
                    then broadcast "Announcement" (Username client)
                           (Username client ++ " is no longer marked as away.") st2
                    else Ok st2);
             st4 ← update me (setAwayAnnounce false) st3;
             update me (setAwayReason "") st4
           else
             st1 ← update me (setAway true) st;
             match args with
             | a0 :: more =>
                 st2 ← update me (setAwayReason a0) st1;
                 st3 ← send "Announcement" (Username client)
                         ("You are now marked as away. Reason: " ++ a0) st2;
                 match more with
                 | a1 :: _ =>
                     if (a1 =? "1")%string then
                       st4 ← update me (setAwayAnnounce true) st3;
                       broadcast "Announcement" (Username client)
                         (Username client ++ " is now marked as away. Reason: " ++ a0) st4
                     else Ok st3
                 | [] => Ok st3
                 end
             | [] => send "Announcement" (Username client) "You are now marked as away." st1
             end);
    st'' ← sendListTo (Socket client) st';
    Ok (Go st'').

(** The [switch cmd] of the legacy [handleClient]. *)
Definition dispatch (me : ptr) (cmd : string) (args : list string) (st : State)
    : Outcome Flow :=
  if (cmd =? "PING")%string then
    match args with
    | [] => Ok (Go st)
    | a0 :: _ =>
        client ← get st me;
        Ok (Go (call (SWrite (Socket client) ("PONG" ++ SOH ++ a0 ++ CRLF)) st))
    end
  else if (cmd =? "JOIN")%string then caseJOIN me args st
  else if (cmd =? "QUIT")%string then caseQUIT me st
  else if (cmd =? "MSG")%string then caseMSG me args st
  else if (cmd =? "PM")%string then casePM me args st
  else if (cmd =? "LIST")%string then caseLIST me st
  else if (cmd =? "NAME")%string then caseNAME me args st
  else if (cmd =? "AWAY")%string then caseAWAY me args st
  else
    client ← get st me;
    st1 ← send "Announcement" (Username client)
            ("Server does not support opcode [b]" ++ cmd ++ "[/b].") st;
    Ok (Go st1).

(** The body of the loop over [packets]. *)
Definition handlePacket (me : ptr) (record : string) (st : State) : Outcome Flow :=
  if (record =? "")%string then Ok (Go st)
  else
    match Split record SOH with
    | [] => Ok (Go st)
    | cmd :: args => dispatch me cmd args st
    end.

(** The loop over [packets]; a [return] leaves it and the handler. *)
Fixpoint handlePackets (me : ptr) (packets : list string) (st : State) : Outcome Flow :=
  match packets with
  | [] => Ok (Go st)
  | record :: rest =>
      flow ← handlePacket me record st;
      match flow with
      | Go st' => handlePackets me rest st'
      | Return st' => Ok (Return st')
      end
  end.

(** One turn of the outer loop after a read that returned [buf[:l]]. *)
Definition handleRead (me : ptr) (buf : string) (st : State) : Outcome Flow :=
  if (String.length buf <=? 0)%nat then Ok (Go st)
  else handlePackets me (Split buf CRLF) st.

(** The turn of the outer loop in which the read fails. *)
Definition lostConnection (me : ptr) (st : State) : Outcome State :=
  st1 ← kickClient me st;
  client ← get st1 me;
  if negb (Username client =? "Unknown")%string
  then broadcast "Announcement" (Username client)
         (Username client ++ " was disconnected from the server!") st1
  else Ok st1.

(** The head of [handleClient]: the new client, appended to [clients]. *)
Definition newClient (c : conn) (signOn lastActive : Z) (localAddr remoteAddr : string)
    : Client :=
  mkClient c "Unknown" "Unknown" signOn lastActive localAddr remoteAddr
    false false false false false false "" false.

Definition connect (c : conn) (signOn lastActive : Z) (localAddr remoteAddr : string)
    (st : State) : ptr * State :=
  (length (objects st),
   mkState (objects st ++ [newClient c signOn lastActive localAddr remoteAddr])
     (clients st ++ [length (objects st)]) (trace st)).

End LegacyHandler.

(** ** The specification's vocabulary *)

(** A user that the roster shows: online and not a ghost. *)
Definition listed (u : User) : bool := Online u && negb (Ghost u).

(** The flags of a roster entry: [O], then [M], [A], [R], [B] for mute, admin,
    root and away. *)
Definition rosterFlags (u : User) : string :=
  "O" ++ (if Mute u then "M" else "") ++ (if Admin u then "A" else "")
      ++ (if Root u then "R" else "") ++ (if Away u then "B" else "").

(** A roster entry: [[<flags>] username - about]. *)
Definition rosterEntry (u : User) : string :=
  "[" ++ rosterFlags u ++ "] " ++ Username u ++ " - " ++ About u.

(** [registry w us]: the registry [users] of [w] points, in order, to [us]. *)
Definition registry (w : World) (us : list User) : Prop :=
  Forall2 (fun p u => heap w !! p = Some u) (users w) us.

(** The two bytes of CRLF. *)
Definition CR : ascii := ascii_of_nat 13.
Definition LF : ascii := ascii_of_nat 10.

(** The commands that one read yields: the non-empty records between CRLFs,
    each cut into its fields. *)
Definition nonEmpty (record : string) : bool := negb (record =? "")%string.

Definition decodeRead (buf : string) : list (list string) :=
  if (String.length buf <=? 0)%nat then []
  else map (fun record => Split record SOH) (List.filter nonEmpty (Split buf CRLF)).

(** The commands that a sequence of reads yields. *)
Definition decodeReads (reads : list string) : list (list string) :=
  concat (map decodeRead reads).

(** The byte stream that a sequence of reads carries. *)
Fixpoint stream (reads : list string) : string :=
  match reads with
  | [] => ""
  | buf :: rest => buf ++ stream rest
  end.

(** The sessions that a broadcast from [s] reaches: those of another remote
    address than [s]. *)
Definition reached (s : Session) (u : User) : list Session :=
  List.filter (fun session => negb (RemoteAddr s =? RemoteAddr session)%string) (Sessions u).

(** [named w name p]: [p] points to a user of [w] called [name]. *)
Definition named (w : World) (name : string) (p : ptr) : Prop :=
  exists v, heap w !! p = Some v /\ Username v = name.

(** [first_named w name a]: [a] is the first entry of the registry of [w]
    whose user is called [name]; this is the user that the loops over [users]
    of [Close], [SendPM] and [SendRAW] stop at. *)
Definition first_named (w : World) (name : string) (a : ptr) : Prop :=
  exists pre post,
    users w = (pre ++ a :: post)%list
    /\ named w name a
    /\ Forall (fun p => exists v, heap w !! p = Some v /\ Username v <> name) pre.


(** A read that ends on a record boundary. *)
Definition endsWithCRLF (buf : string) : Prop := exists x, buf = x ++ CRLF.

(** The [switch] run on a sequence of decoded commands, opcode first. *)
Fixpoint dispatchAll (clock : nat -> Z) (generate : nat -> string -> option string)
    (compare : string -> string -> bool)
    (s : Session) (commands : list (list string)) (w : World)
    : Outcome (Session * World) :=
  match commands with
  | [] => Ok (s, w)
  | [] :: rest => dispatchAll clock generate compare s rest w
  | (cmd :: args) :: rest =>
      '(s', w') ← dispatch clock generate compare s cmd args w;
      dispatchAll clock generate compare s' rest w'
  end.

(** A connection that has just been accepted. *)
Definition freshSession : Session :=
  mkSession None false 0%nat 0 0 "0.0.0.0:100" "10.0.0.7:4000".

(** [emitAll ops w]: [w] after the socket calls [ops] and nothing else. *)
Definition emitAll (ops : list SockOp) (w : World) : World :=
  mkWorld (heap w) (users w) (wire w ++ ops) (ticks w).

(** The MSG record that a broadcast from the user [su] writes. *)
Definition msgRecord (su : User) (msg : string) : string :=
  "MSG" ++ SOH ++ Username su ++ SOH ++ msg ++ CRLF.

(** *** The registry invariant *)

(** At most one user with a password digest has a given name. *)
Definition unique_registered (w : World) : Prop :=
  forall a b ua ub,
    heap w !! a = Some ua -> heap w !! b = Some ub ->
    PasswordHash ua <> "" -> PasswordHash ub <> "" ->
    Username ua = Username ub -> a = b.

(** [digest_at w a]: [a] points to a user that has a password digest. *)
Definition digest_at (w : World) (a : ptr) : Prop :=
  exists u, heap w !! a = Some u /\ PasswordHash u <> "".

(** Every entry of the registry is a user with a digest, and no user is a
    ghost. *)
Record world_ok (w : World) : Prop := mkWorldOk {
  ok_users : forall a, a ∈ users w -> digest_at w a;
  ok_ghost : forall a u, heap w !! a = Some u -> Ghost u = false
}.

(** The user of a session exists; that of an authenticated session has a
    digest and is online. *)
Definition session_ok (w : World) (s : Session) : Prop :=
  (forall a, sessUser s = Some a -> is_Some (heap w !! a))
  /\ (Authenticated s = true ->
      exists a u, sessUser s = Some a /\ heap w !! a = Some u
                  /\ PasswordHash u <> "" /\ Online u = true).

(** What a handler that is registering a user has established so far: the
    digest in its hand is not empty; once it is stored the user of the session
    has a digest; the entries that [append] has read have one. *)
Definition phase_ok (w : World) (s : Session) (ph : Phase) : Prop :=
  match ph with
  | Idle | Checked _ => True
  | Hashed hashedPassword => hashedPassword <> ""
  | Stored | Appended => exists a, sessUser s = Some a /\ digest_at w a
  | Loaded snapshot =>
      (exists a, sessUser s = Some a /\ digest_at w a) /\ Forall (digest_at w) snapshot
  end.

Definition server_ok (σ : Server) : Prop :=
  world_ok (world σ)
  /\ forall c h, handlers σ !! c = Some h ->
       session_ok (world σ) (session h) /\ phase_ok (world σ) (session h) (phase h).

(** [keeps w w']: same registry, same addresses, and every user keeps its
    name, its being registered or not, its ghost flag, and stays online if it
    was. *)
Definition keeps (w w' : World) : Prop :=
  users w' = users w
  /\ length (heap w') = length (heap w)
  /\ forall a u, heap w !! a = Some u ->
       exists u', heap w' !! a = Some u'
                  /\ Username u' = Username u
                  /\ (PasswordHash u' = "" <-> PasswordHash u = "")
                  /\ Ghost u' = Ghost u
                  /\ (Online u = true -> Online u' = true).

(** [grows w w']: every user is still there, still registered if it was,
    still online if it was. *)
Definition grows (w w' : World) : Prop :=
  forall a u, heap w !! a = Some u ->
    exists u', heap w' !! a = Some u'
               /\ (PasswordHash u <> "" -> PasswordHash u' <> "")
               /\ (Online u = true -> Online u' = true).

(** A field assignment that [keeps] allows. *)
Definition harmless (f : User -> User) : Prop :=
  forall u, Username (f u) = Username u
            /\ PasswordHash (f u) = PasswordHash u
            /\ Ghost (f u) = Ghost u
            /\ (Online u = true -> Online (f u) = true).

(** What a step of a handler owes the invariant. *)
Definition step_ok (w : World) (w' : World) (s' : Session) : Prop :=
  world_ok w' /\ session_ok w' s' /\ grows w w'.

(** *** Well-formed records *)

(** The control byte that separates the fields of a record. *)
Definition SOHbyte : ascii := ascii_of_nat 1.

(** [hasByte c s]: the byte [c] occurs in [s]. *)
Fixpoint hasByte (c : ascii) (s : string) : bool :=
  match s with
  | EmptyString => false
  | String d r => if ascii_dec c d then true else hasByte c r
  end.

(** A field that can travel in a record: it holds neither the field
    separator nor a carriage return. *)
Definition plainField (f : string) : Prop :=
  hasByte SOHbyte f = false /\ hasByte CR f = false.

(** A command that can travel as one record: an opcode, which is not empty,
    and plain fields. *)
Definition plainCommand (fields : list string) : Prop :=
  match fields with
  | [] => False
  | cmd :: _ => cmd <> "" /\ Forall plainField fields
  end.

(** *** Records that the server writes *)

(** The PM record that carries [msg] from the user [su]. *)
Definition pmRecord (su : User) (msg : string) : string :=
  "PM" ++ SOH ++ Username su ++ SOH ++ msg ++ CRLF.

(** The RAW record for [target] with the payload [raw]. *)
Definition rawRecord (target raw : string) : string :=
  "RAW" ++ SOH ++ target ++ SOH ++ raw ++ CRLF.

(** The record of an announcement. *)
Definition announcement (msg : string) : string :=
  "MSG" ++ SOH ++ "Announcement" ++ SOH ++ msg ++ CRLF.

(** The users that the pointers [ps] reach in the heap [h], in order. *)
Fixpoint derefAll (h : list User) (ps : list ptr) : list User :=
  match ps with
  | [] => []
  | p :: rest =>
      match h !! p with
      | Some u => u :: derefAll h rest
      | None => derefAll h rest
      end
  end.

(** The users that the registry of [w] points to, in order. *)
Definition registryUsers (w : World) : list User := derefAll (heap w) (users w).

(** Every entry of the registry of [w] points to a user. *)
Definition registryValid (w : World) : Prop :=
  Forall (fun p => is_Some (heap w !! p)) (users w).

(** The opcodes that the switch of [handleClient] names. *)
Definition knownOpcodes : list string :=
  ["PING"; "PONG"; "JOIN"; "AUTH"; "QUIT"; "MSG"; "PM"; "LIST"; "NAME"; "INFO"; "RAW"; "AWAY"].

(** *** Logging in *)

(** The user record after one of its sessions, [s], has authenticated. *)
Definition loggedIn (s : Session) (u : User) : User :=
  setAwayReason "" (setAway false (setOnline true (setSessions (Sessions u ++ [s]) u))).

(** The LIST record for the registry of [w]. *)
Definition rosterReply (w : World) : string :=
  "LIST" ++ SOH ++ Join (map rosterEntry (List.filter listed (registryUsers w))) SOH ++ CRLF.

(** The name, in [w], of the sender of a queued private message. *)
Definition senderName (w : World) (pm : PrivateMessage) : string :=
  match pmUser pm with
  | Some b => match heap w !! b with Some v => Username v | None => "" end
  | None => ""
  end.

(** The sender of every queued private message of [u] exists in [w]. *)
Definition pendingValid (w : World) (u : User) : Prop :=
  Forall (fun pm => exists b, pmUser pm = Some b /\ is_Some (heap w !! b)) (PendingPMs u).

(** What a session gets once it is authenticated: the roster, the banner,
    the message of the day, and the queued private messages of [u]. *)
Definition welcome (s : Session) (w : World) (u : User) : list SockOp :=
  [SWrite (Socket s) (rosterReply w);
   SWrite (Socket s) ("Msg" ++ SOH ++ "Announcement" ++ SOH ++ joinMsg ++ CRLF);
   SWrite (Socket s) ("MSG" ++ SOH ++ "Message of the Day" ++ SOH ++ motdMsg ++ CRLF)]
  ++ map (fun pm => SWrite (Socket s)
                      ("PM" ++ SOH ++ senderName w pm ++ SOH ++ Message pm ++ CRLF))
       (PendingPMs u).

(** A message of the authentication dialogue, as [SendAuthMsg] frames it. *)
Definition authRecord (msg : string) : string :=
  "MSG" ++ SOH ++ "[Authentication]" ++ SOH ++ ("[color=#ffcc00]" ++ msg ++ "[/color]") ++ CRLF.

(** A message of the server, as [SendServerMsg] frames it. *)
Definition serverRecord (msg : string) : string :=
  "MSG" ++ SOH ++ "[Server]" ++ SOH ++ ("[color=#d64161]" ++ msg ++ "[/color]") ++ CRLF.

(** The session may join: it has no user, or its user is not online. *)
Definition mayJoin (s : Session) (w : World) : Prop :=
  sessUser s = None
  \/ exists b v, sessUser s = Some b /\ heap w !! b = Some v /\ Online v = false.

(** The candidate that JOIN creates from its arguments. *)
Definition candidate (name : string) (rest : list string) : User :=
  match rest with
  | about :: _ => setAbout about (newUser name)
  | [] => newUser name
  end.

(** *** The legacy server *)

(** The legacy roster entry: flags, name and user agent. *)
Definition legacyEntry (c : Legacy.Client) : string :=
  "[" ++ ("O" ++ (if Legacy.Mute c then "M" else "") ++ (if Legacy.Admin c then "A" else "")
              ++ (if Legacy.Root c then "R" else "") ++ (if Legacy.Away c then "B" else ""))
      ++ "] " ++ Legacy.Username c ++ " - " ++ Legacy.UserAgent c.

(** A legacy client that the roster shows. *)
Definition legacyListed (c : Legacy.Client) : bool :=
  Legacy.Online c && negb (Legacy.Ghost c).

(** The clients of [ps] that are not at the remote address [addr]. *)
Definition elsewhere (st : LegacyHandler.State) (addr : string) (ps : list ptr) : list ptr :=
  List.filter (fun p => match LegacyHandler.objects st !! p with
                        | Some d => negb (addr =? Legacy.RemoteAddr d)%string
                        | None => false
                        end) ps.

(** Every entry of [clients] points to a client. *)
Definition clientsValid (st : LegacyHandler.State) : Prop :=
  Forall (fun p => is_Some (LegacyHandler.objects st !! p)) (LegacyHandler.clients st).

(** A message of the info channel, as [SendInfoMsg] frames it. *)
Definition infoRecord (msg : string) : string :=
  "MSG" ++ SOH ++ "[Info]" ++ SOH ++ ("[color=#f6de6c]" ++ msg ++ "[/color]") ++ CRLF.

(** ** A concrete environment, for running scenarios *)

Definition demoClock (n : nat) : Z := 1700000000 + Z.of_nat n.
Definition demoGenerate (n : nat) (password : string) : option string :=
  Some ("$2a$" ++ password).
Definition demoCompare (hash password : string) : bool :=
  (hash =? "$2a$" ++ password)%string.

(** A record as a client sends it. *)
Definition record (fields : list string) : string := Join fields SOH ++ CRLF.

Definition demoRun : list Event -> option Server :=
  run demoClock demoGenerate demoCompare initServer.

(** Alice registers on one connection and logs in on a second one; then her
    first connection sends a message to all. *)
Definition twoSessionsBroadcast : list Event :=
  [Accept "0.0.0.0:100" "10.0.0.7:4000";
   Read 0%nat (record ["JOIN"; "alice"] ++ record ["AUTH"; "secret"]);
   Next 0%nat; Next 0%nat; Next 0%nat;
   Accept "0.0.0.0:100" "10.0.0.8:4000";
   Read 1%nat (record ["JOIN"; "alice"] ++ record ["AUTH"; "secret"]);
   Next 1%nat; Next 1%nat; Next 1%nat;
   Read 0%nat (record ["MSG"; "alice"; "hi"]);
   Next 0%nat].

(** Bob and alice register; alice quits; bob sends her a private message;
    alice logs in again on a third connection. *)
Definition offlineMessage : list Event :=
  [Accept "0.0.0.0:100" "10.0.0.7:4000";
   Read 0%nat (record ["JOIN"; "bob"] ++ record ["AUTH"; "hunter2"]);
   Next 0%nat; Next 0%nat; Next 0%nat;
   Accept "0.0.0.0:100" "10.0.0.8:4000";
   Read 1%nat (record ["JOIN"; "alice"] ++ record ["AUTH"; "secret"] ++ record ["QUIT"]);
   Next 1%nat; Next 1%nat; Next 1%nat; Next 1%nat;
   ReadError 1%nat;
   Read 0%nat (record ["PM"; "alice"; "hello"]);
   Next 0%nat; Next 0%nat;
   Accept "0.0.0.0:100" "10.0.0.8:4001";
   Read 2%nat (record ["JOIN"; "alice"] ++ record ["AUTH"; "secret"]);
   Next 2%nat; Next 2%nat; Next 2%nat].

(** Then alice quits and logs in once more, on a fourth connection. *)
Definition secondLogin : list Event :=
  [Read 2%nat (record ["QUIT"]); Next 2%nat; Next 2%nat; ReadError 2%nat;
   Accept "0.0.0.0:100" "10.0.0.8:4002";
   Read 3%nat (record ["JOIN"; "alice"] ++ record ["AUTH"; "secret"]);
   Next 3%nat; Next 3%nat; Next 3%nat].

(** The writes of a trace that went to the socket [c]. *)
Definition writesTo (c : conn) (trace : list SockOp) : list string :=
  omap (fun op => match op with
                  | SWrite c' bytes => if (c' =? c)%nat then Some bytes else None
                  | SClose _ => None
                  end) trace.

(** Two connections join as alice, whom nobody has registered, and each has
    sent an AUTH record with a password of its own. *)
Definition twoCandidates : list Event :=
  [Accept "0.0.0.0:100" "10.0.0.7:4000";
   Read 0%nat (record ["JOIN"; "alice"] ++ record ["AUTH"; "secret"]); Next 0%nat;
   Accept "0.0.0.0:100" "10.0.0.8:4000";
   Read 1%nat (record ["JOIN"; "alice"] ++ record ["AUTH"; "hunter2"]); Next 1%nat].

(** Both handlers reach [userExists] before either of them registers: the
    first statement of each finds the name free, then each runs the rest of
    the branch (bcrypt, the digest, the two halves of [append], the welcome). *)
Definition racingRegistrations : list Event :=
  (twoCandidates
   ++ [Stmt 0%nat; Stmt 1%nat;
       Stmt 0%nat; Stmt 0%nat; Stmt 0%nat; Stmt 0%nat; Stmt 0%nat;
       Stmt 1%nat; Stmt 1%nat; Stmt 1%nat; Stmt 1%nat; Stmt 1%nat])%list.

(** The same records, the AUTH of the first connection handled to its end
    before that of the second. *)
Definition orderlyRegistrations : list Event :=
  (twoCandidates ++ [Next 0%nat; Next 1%nat])%list.

(** A registry of four users: alice with two sessions, a ghost, carol who
    never logged in, and bob with one session. *)
Definition sessionA : Session :=
  mkSession (Some 0%nat) true 0%nat 1700000000 1700000000 "0.0.0.0:100" "10.0.0.7:4000".
Definition sessionB : Session :=
  mkSession (Some 0%nat) true 1%nat 1700000001 1700000001 "0.0.0.0:100" "10.0.0.8:4000".
Definition sessionBob : Session :=
  mkSession (Some 3%nat) true 2%nat 1700000002 1700000002 "0.0.0.0:100" "10.0.0.9:4000".

Definition demoUsers : list User :=
  [mkUser "alice" "$2a$secret" "likes tea" [sessionA; sessionB]
     true false true false false true [] "lunch" false;
   mkUser "casper" "$2a$boo" "" [] true false false false true false [] "" false;
   mkUser "carol" "$2a$carol" "" [] false false false false false false [] "" false;
   mkUser "bob" "$2a$hunter2" "" [sessionBob]
     true true false false false false [] "" false].

Definition demoWorld : World := mkWorld demoUsers [0; 1; 2; 3]%nat [] 0.

(** The four users, and dave who joined and has not registered yet. *)
Definition candidateWorld : World :=
  mkWorld (demoUsers ++ [newUser "dave"]) [0; 1; 2; 3]%nat [] 0.
Definition sessionDave : Session :=
  mkSession (Some 4%nat) false 3%nat 1700000003 1700000003 "0.0.0.0:100" "10.0.0.10:4000".

(** The four users, with a private message from bob waiting for carol, and
    the session on which carol joined. *)
Definition queuedWorld : World :=
  mkWorld (<[2%nat := mkUser "carol" "$2a$carol" "" [] false false false false false
                        false [mkPM (Some 3%nat) "hello"] "" false]> demoUsers)
    [0; 1; 2; 3]%nat [] 0.
Definition sessionCarol : Session :=
  mkSession (Some 2%nat) false 3%nat 1700000003 1700000003 "0.0.0.0:100" "10.0.0.10:4000".

(** Alice registers on the first connection; then she quits and the
    connection is lost. *)
Definition aliceOnline : list Event :=
  [Accept "0.0.0.0:100" "10.0.0.7:4000";
   Read 0%nat (record ["JOIN"; "alice"] ++ record ["AUTH"; "secret"]);
   Next 0%nat; Next 0%nat; Next 0%nat].
Definition aliceLeaves : list Event :=
  [Read 0%nat (record ["QUIT"]); Next 0%nat; Next 0%nat; ReadError 0%nat].

Definition serverOnline : Server := default initServer (demoRun aliceOnline).
Definition serverLeft : Server :=
  default initServer (demoRun (aliceOnline ++ aliceLeaves)).

(** A legacy server with three connections: ann and ben have joined, the
    third has not. *)
Definition legacyAnn : Legacy.Client :=
  Legacy.mkClient 0%nat "ann" "kChat 2.1" 1700000000 1700000000 "0.0.0.0:100"
    "10.0.0.7:4000" true false true false false false "" false.
Definition legacyBen : Legacy.Client :=
  Legacy.mkClient 1%nat "ben" "kChat 2.0" 1700000001 1700000001 "0.0.0.0:100"
    "10.0.0.8:4000" true false false false false true "lunch" false.
Definition legacyNew : Legacy.Client :=
  LegacyHandler.newClient 2%nat 1700000002 1700000002 "0.0.0.0:100" "10.0.0.9:4000".

Definition legacyState : LegacyHandler.State :=
  LegacyHandler.mkState [legacyAnn; legacyBen; legacyNew] [0; 1; 2]%nat [].

(** ** Basic facts *)

Lemma append_assoc (a b c : string) : (a ++ b) ++ c = a ++ b ++ c.
Proof. induction a as [|x a IH]; simpl; [reflexivity | now rewrite IH]. Qed.

Lemma append_nil_r (a : string) : a ++ "" = a.
Proof. induction a as [|x a IH]; simpl; [reflexivity | now rewrite IH]. Qed.

Lemma bind_Ok {A B} (a : A) (k : A -> Outcome B) : (Ok a ≫= k) = k a.
Proof. reflexivity. Qed.

Lemma deref_Some (w : World) (a : ptr) (u : User) :
  heap w !! a = Some u -> deref (Some a) w = Ok u.
Proof. intros H. unfold deref. now rewrite H. Qed.

Lemma modify_Some (w : World) (a : ptr) (u : User) (f : User -> User) :
  heap w !! a = Some u ->
  modify (Some a) f w = Ok (setHeap (<[a := f u]> (heap w)) w).
Proof. intros H. unfold modify. now rewrite H. Qed.

Lemma lookup_modified (w : World) (a : ptr) (u v : User) :
  heap w !! a = Some u -> heap (setHeap (<[a := v]> (heap w)) w) !! a = Some v.
Proof.
  intros H. simpl. apply list_lookup_insert_eq. eapply lookup_lt_Some; eauto.
Qed.

(** ** The roster (LIST) *)

Lemma userFlags_rosterFlags (u : User) : userFlags u = rosterFlags u.
Proof.
  unfold userFlags, rosterFlags.
  destruct (Mute u), (Admin u), (Root u), (Away u); reflexivity.
Qed.

Lemma listEntry_rosterEntry (u : User) : listEntry u = rosterEntry u.
Proof. unfold listEntry, rosterEntry. now rewrite userFlags_rosterFlags. Qed.

Lemma SendListLoop_spec (w : World) (ps : list ptr) (us : list User) :
  Forall2 (fun p u => heap w !! p = Some u) ps us ->
  forall acc,
    SendListLoop ps w acc = Ok (acc ++ map rosterEntry (List.filter listed us))%list.
Proof.
  induction 1 as [|p u ps us Hp _ IH]; intros acc; cbn [SendListLoop List.filter map].
  - now rewrite app_nil_r.
  - rewrite (deref_Some _ _ _ Hp), bind_Ok. unfold listed at 1.
    destruct (Ghost u), (Online u); cbn [negb andb map]; rewrite IH; try reflexivity.
    rewrite listEntry_rosterEntry, <- List.app_assoc. reflexivity.
Qed.

(** C7: the LIST reply is the record [LIST<SOH>entries], where the entries
    are, in registry order, exactly the users that are online and not ghost,
    each written [[<flags>] username - about] with the flags [O], [M], [A],
    [R], [B] in this order. *)
Theorem C7_list_roster (s : Session) (w : World) (us : list User) :
  registry w us ->
  SendList s w =
    Ok (emit (SWrite (Socket s)
                ("LIST" ++ SOH ++ Join (map rosterEntry (List.filter listed us)) SOH ++ CRLF))
          w).
Proof.
  intros Hreg. unfold SendList.
  rewrite (SendListLoop_spec w _ _ Hreg []), bind_Ok. simpl app.
  unfold Write. reflexivity.
Qed.

(** ** Outcomes and frames *)

Lemma bind_Ok_inv {A B} (m : Outcome A) (k : A -> Outcome B) (b : B) :
  (m ≫= k) = Ok b -> exists a, m = Ok a /\ k a = Ok b.
Proof. destruct m as [a|]; [eauto | discriminate]. Qed.

(** Splits a hypothesis [(m ≫= k) = Ok b] into its two steps. *)
Ltac bind_inv H :=
  let a := fresh "x" in
  let H1 := fresh "Hstep" in
  apply bind_Ok_inv in H as (a & H1 & H).

Tactic Notation "bind_step" hyp(H) "as" ident(a) ident(H1) :=
  apply bind_Ok_inv in H as (a & H1 & H).

Lemma deref_inv (p : option ptr) (w : World) (u : User) :
  deref p w = Ok u -> exists a, p = Some a /\ heap w !! a = Some u.
Proof.
  unfold deref. destruct p as [a|]; [|discriminate].
  destruct (heap w !! a) eqn:E; [|discriminate]. intros [= <-]. eauto.
Qed.

Lemma modify_inv (p : option ptr) (f : User -> User) (w w' : World) :
  modify p f w = Ok w' ->
  exists a u, p = Some a /\ heap w !! a = Some u
              /\ w' = setHeap (<[a := f u]> (heap w)) w.
Proof.
  unfold modify. destruct p as [a|]; [|discriminate].
  destruct (heap w !! a) eqn:E; [|discriminate]. intros [= <-]. eauto.
Qed.

Lemma CloseLoop_wire (s : Session) (us : list ptr) (w w' : World) :
  CloseLoop s us w = Ok w' ->
  wire w' = wire w \/ wire w' = (wire w ++ [SClose (Socket s)])%list.
Proof.
  induction us as [|p us IH]; cbn [CloseLoop].
  - intros [= <-]. now left.
  - intros H. bind_inv H. bind_inv H.
    destruct (Username x =? Username x0)%string; [|auto].
    bind_inv H. bind_inv H.
    apply modify_inv in Hstep1 as (a & u & _ & _ & ->).
    right.
    destruct (length (Sessions x2) <=? 0)%nat.
    + bind_inv H.
      apply modify_inv in Hstep1 as (a1 & u1 & _ & _ & ->).
      apply modify_inv in H as (a2 & u2 & _ & _ & ->). reflexivity.
    + injection H as <-. reflexivity.
Qed.

(** ** Kill *)

(** C8: [Kill] with a non-empty reason writes the record [KILL<SOH>reason]
    twice, with an empty reason the record [KILL] once, and only then runs
    the teardown of [Close], which adds no write. *)
Theorem C8_kill_writes (s : Session) (reason : string) (w : World) :
  let writes :=
    if (reason =? "")%string then [SWrite (Socket s) ("KILL" ++ CRLF)]
    else [SWrite (Socket s) ("KILL" ++ SOH ++ reason ++ CRLF);
          SWrite (Socket s) ("KILL" ++ SOH ++ reason ++ CRLF)] in
  Kill s reason w = Close s (mkWorld (heap w) (users w) (wire w ++ writes) (ticks w))
  /\ forall w', Kill s reason w = Ok w' ->
       wire w' = (wire w ++ writes)%list
       \/ wire w' = (wire w ++ writes ++ [SClose (Socket s)])%list.
Proof.
  intros writes.
  assert (E : Kill s reason w
              = Close s (mkWorld (heap w) (users w) (wire w ++ writes) (ticks w))).
  { unfold Kill, writes. destruct (reason =? "")%string.
    - reflexivity.
    - unfold Write, emit. cbn [heap users wire ticks].
      rewrite <- List.app_assoc. reflexivity. }
  split; [exact E|].
  intros w' H. rewrite E in H. apply CloseLoop_wire in H. cbn [wire] in H.
  rewrite <- List.app_assoc in H. exact H.
Qed.

(** ** AUTH before JOIN *)

(** C3: on a session that no JOIN has given a user, an AUTH record with a
    password dereferences the nil [session.User]: the handler panics, and
    with it the process. *)
Theorem C3_auth_without_user_panics
    (clock : nat -> Z) (generate : nat -> string -> option string)
    (compare : string -> string -> bool)
    (c : conn) (localAddr remoteAddr password : string)
    (rest : list string) (w0 w : World) :
  dispatch clock generate compare (newSession clock c localAddr remoteAddr w0)
    "AUTH" (password :: rest) w = Panic
  /\ demoRun [Accept "0.0.0.0:100" "10.0.0.7:4000";
              Read 0%nat (record ["AUTH"; "secret"]); Next 0%nat] = None.
Proof. split; [reflexivity | vm_compute; reflexivity]. Qed.

(** ** Close *)

Lemma CloseLoop_skip (s : Session) (w : World) (a : ptr) (u : User)
    (pre rest : list ptr) :
  sessUser s = Some a -> heap w !! a = Some u ->
  Forall (fun p => exists v, heap w !! p = Some v /\ Username v <> Username u) pre ->
  CloseLoop s (pre ++ rest) w = CloseLoop s rest w.
Proof.
  intros Hs Ha. induction 1 as [|p pre (v & Hp & Hne) _ IH]; [reflexivity|].
  cbn [app CloseLoop]. rewrite Hs, (deref_Some _ _ _ Ha), (deref_Some _ _ _ Hp), !bind_Ok.
  assert (E : (Username u =? Username v)%string = false)
    by (apply String.eqb_neq; congruence).
  now rewrite E.
Qed.

Lemma CloseLoop_absent (s : Session) (w : World) (a : ptr) (u : User) (ps : list ptr) :
  sessUser s = Some a -> heap w !! a = Some u ->
  Forall (fun p => exists v, heap w !! p = Some v /\ Username v <> Username u) ps ->
  CloseLoop s ps w = Ok w.
Proof.
  intros Hs Ha H. rewrite <- (app_nil_r ps).
  now rewrite (CloseLoop_skip s w a u ps [] Hs Ha H).
Qed.




(** ** Decoding the reads of a connection *)

Lemma prefix_CRLF_two (c d : ascii) (r : string) :
  String.prefix CRLF (String c (String d r))
  = if ascii_dec CR c then (if ascii_dec LF d then true else false) else false.
Proof.
  unfold CRLF. cbn [String.prefix]. fold CR LF.
  destruct (ascii_dec CR c); [|reflexivity].
  destruct (ascii_dec LF d); [|reflexivity].
  destruct r; reflexivity.
Qed.

Lemma prefix_CRLF_one (c : ascii) : String.prefix CRLF (String c "") = false.
Proof.
  unfold CRLF. cbn [String.prefix]. destruct (ascii_dec _ c); reflexivity.
Qed.

Lemma splitGo_CRLF_step (c : ascii) (acc r : string) :
  splitGo CRLF 0 acc (String c r)
  = if String.prefix CRLF (String c r)
    then acc :: splitGo CRLF 1 "" r
    else splitGo CRLF 0 (acc ++ String c "") r.
Proof. reflexivity. Qed.

Lemma splitGo_skip (sep : string) (k : nat) (acc : string) (c : ascii) (r : string) :
  splitGo sep (S k) acc (String c r) = splitGo sep k acc r.
Proof. reflexivity. Qed.

(** A read that ends with CRLF ends a record: what follows it is split as if
    it stood alone. *)
Lemma records_after_CRLF (n : nat) :
  forall x : string, (String.length x <= n)%nat ->
  forall acc y : string,
    List.filter nonEmpty (splitGo CRLF 0 acc (x ++ CRLF ++ y))
    = (List.filter nonEmpty (splitGo CRLF 0 acc (x ++ CRLF))
       ++ List.filter nonEmpty (splitGo CRLF 0 "" y))%list.
Proof.
  induction n as [|n IH]; intros x Hlen acc y.
  - destruct x; [|simpl in Hlen; lia].
    change ("" ++ CRLF ++ y) with (String CR (String LF y)).
    change ("" ++ CRLF) with (String CR (String LF "")).
    rewrite !splitGo_CRLF_step, !prefix_CRLF_two.
    destruct (ascii_dec CR CR); [|congruence].
    destruct (ascii_dec LF LF); [|congruence].
    rewrite !splitGo_skip. cbn [splitGo List.filter].
    destruct (nonEmpty acc); reflexivity.
  - destruct x as [|c x].
    + apply IH. simpl. lia.
    + cbn [String.length] in Hlen.
      destruct x as [|d x].
      * change (String c "" ++ CRLF ++ y) with (String c (String CR (String LF y))).
        change (String c "" ++ CRLF) with (String c (String CR (String LF ""))).
        rewrite (splitGo_CRLF_step c), (splitGo_CRLF_step c _ (String CR (String LF ""))).
        rewrite !prefix_CRLF_two.
        assert (E : (if ascii_dec CR c then if ascii_dec LF CR then true else false else false)
                    = false).
        { destruct (ascii_dec CR c); [|reflexivity].
          destruct (ascii_dec LF CR) as [H|]; [discriminate H | reflexivity]. }
        rewrite E.
        apply (IH "" ltac:(simpl; lia) (acc ++ String c "") y).
      * change (String c (String d x) ++ CRLF ++ y)
          with (String c (String d (x ++ CRLF ++ y))).
        change (String c (String d x) ++ CRLF) with (String c (String d (x ++ CRLF))).
        rewrite (splitGo_CRLF_step c), (splitGo_CRLF_step c _ (String d (x ++ CRLF))).
        rewrite !prefix_CRLF_two.
        destruct (ascii_dec CR c); [destruct (ascii_dec LF d)|].
        -- rewrite !splitGo_skip. cbn [List.filter].
           cbn [String.length] in Hlen.
           rewrite (IH x ltac:(lia) "" y).
           destruct (nonEmpty acc); reflexivity.
        -- cbn [String.length] in Hlen.
           apply (IH (String d x) ltac:(simpl; lia) (acc ++ String c "") y).
        -- cbn [String.length] in Hlen.
           apply (IH (String d x) ltac:(simpl; lia) (acc ++ String c "") y).
Qed.

Lemma decodeRead_records (buf : string) :
  decodeRead buf
  = map (fun record => Split record SOH) (List.filter nonEmpty (Split buf CRLF)).
Proof. destruct buf; reflexivity. Qed.

Lemma decodeRead_after_CRLF (x y : string) :
  decodeRead ((x ++ CRLF) ++ y) = (decodeRead (x ++ CRLF) ++ decodeRead y)%list.
Proof.
  rewrite !decodeRead_records, append_assoc. unfold Split.
  rewrite (records_after_CRLF (String.length x) x (Nat.le_refl _) "" y).
  apply map_app.
Qed.

Lemma decodeReads_stream (reads : list string) (last : string) :
  Forall endsWithCRLF reads ->
  decodeReads (reads ++ [last]) = decodeRead (stream (reads ++ [last])).
Proof.
  unfold decodeReads.
  induction 1 as [|buf reads (x & ->) _ IH]; cbn [app map concat stream].
  - now rewrite app_nil_r, append_nil_r.
  - now rewrite decodeRead_after_CRLF, IH.
Qed.

Section Decoding.

Variable clock : nat -> Z.
Variable generate : nat -> string -> option string.
Variable compare : string -> string -> bool.

Lemma dispatchAll_app (l1 l2 : list (list string)) :
  forall (s : Session) (w : World),
    dispatchAll clock generate compare s (l1 ++ l2) w
    = ('(s', w') ← dispatchAll clock generate compare s l1 w;
       dispatchAll clock generate compare s' l2 w').
Proof.
  induction l1 as [|command l1 IH]; intros s w; cbn [app dispatchAll].
  - reflexivity.
  - destruct command as [|cmd args]; [apply IH|].
    destruct (dispatch clock generate compare s cmd args w) as [[s' w']|];
      [|reflexivity].
    rewrite !bind_Ok. apply IH.
Qed.

Lemma handlePackets_dispatchAll (ps : list string) :
  forall (s : Session) (w : World),
    handlePackets clock generate compare s ps w
    = dispatchAll clock generate compare s
        (map (fun record => Split record SOH) (List.filter nonEmpty ps)) w.
Proof.
  induction ps as [|r ps IH]; intros s w; cbn [handlePackets List.filter map].
  - reflexivity.
  - unfold handlePacket, nonEmpty.
    destruct (r =? "")%string; cbn [negb].
    + rewrite bind_Ok. apply IH.
    + cbn [map dispatchAll].
      destruct (Split r SOH) as [|cmd args]; [rewrite bind_Ok; apply IH|].
      destruct (dispatch clock generate compare s cmd args w) as [[s' w']|];
        [|reflexivity].
      rewrite !bind_Ok. apply IH.
Qed.

Lemma handleRead_decodeRead (s : Session) (buf : string) (w : World) :
  handleRead clock generate compare s buf w
  = dispatchAll clock generate compare s (decodeRead buf) w.
Proof.
  unfold handleRead, decodeRead.
  destruct (String.length buf <=? 0)%nat; [reflexivity|].
  apply handlePackets_dispatchAll.
Qed.

Lemma handleReads_decodeReads (reads : list string) :
  forall (s : Session) (w : World),
    handleReads clock generate compare s reads w
    = ('(s', w') ← dispatchAll clock generate compare s (decodeReads reads) w;
       Close s' w').
Proof.
  unfold decodeReads.
  induction reads as [|buf reads IH]; intros s w; cbn [handleReads map concat].
  - reflexivity.
  - rewrite handleRead_decodeRead, dispatchAll_app.
    destruct (dispatchAll clock generate compare s (decodeRead buf) w) as [[s' w']|];
      [|reflexivity].
    rewrite !bind_Ok. apply IH.
Qed.

End Decoding.

(** ** Broadcast *)

Lemma emitAll_nil (w : World) : emitAll [] w = w.
Proof. destruct w. unfold emitAll. cbn. now rewrite app_nil_r. Qed.

Lemma emit_emitAll (op : SockOp) (ops : list SockOp) (w : World) :
  emit op (emitAll ops w) = emitAll (ops ++ [op]) w.
Proof. unfold emit, emitAll. cbn. now rewrite <- List.app_assoc. Qed.

Lemma Join_three (a b c : string) :
  Join [a; b; c] SOH ++ CRLF = a ++ SOH ++ b ++ SOH ++ c ++ CRLF.
Proof. cbn [Join]. now rewrite !append_assoc. Qed.

Lemma BroadcastMsg_sessions (s : Session) (msg : string) (w : World)
    (a : ptr) (su : User) (sessions : list Session) :
  sessUser s = Some a -> heap w !! a = Some su ->
  forall ops,
    forEach (fun session w2 =>
        if (RemoteAddr s =? RemoteAddr session)%string then Ok w2
        else su ← deref (sessUser s) w2;
             Ok (Write session ["MSG"; Username su; msg] w2))
      sessions (emitAll ops w)
    = Ok (emitAll
            (ops ++ map (fun session => SWrite (Socket session) (msgRecord su msg))
                      (List.filter (fun session =>
                         negb (RemoteAddr s =? RemoteAddr session)%string) sessions))
            w).
Proof.
  intros Hs Ha. induction sessions as [|x l IH]; intros ops; cbn [forEach List.filter map].
  - now rewrite app_nil_r.
  - destruct (RemoteAddr s =? RemoteAddr x)%string; cbn [negb]; rewrite ?bind_Ok.
    + apply IH.
    + assert (Hd : deref (sessUser s) (emitAll ops w) = Ok su)
        by (rewrite Hs; apply deref_Some; exact Ha).
      rewrite Hd, !bind_Ok. unfold Write. rewrite emit_emitAll, IH. cbn [map].
      rewrite <- List.app_assoc, Join_three. reflexivity.
Qed.

Lemma BroadcastMsg_users (s : Session) (msg : string) (w : World)
    (a : ptr) (su : User) (ps : list ptr) (us : list User) :
  sessUser s = Some a -> heap w !! a = Some su ->
  Forall2 (fun p u => heap w !! p = Some u) ps us ->
  forall ops,
    forEach (fun p w1 =>
        user ← deref (Some p) w1;
        forEach (fun session w2 =>
            if (RemoteAddr s =? RemoteAddr session)%string then Ok w2
            else su ← deref (sessUser s) w2;
                 Ok (Write session ["MSG"; Username su; msg] w2))
          (Sessions user) w1)
      ps (emitAll ops w)
    = Ok (emitAll
            (ops ++ map (fun session => SWrite (Socket session) (msgRecord su msg))
                      (concat (map (reached s) us)))
            w).
Proof.
  intros Hs Ha. induction 1 as [|p u ps us Hp _ IH]; intros ops; cbn [forEach map concat].
  - now rewrite app_nil_r.
  - rewrite (deref_Some (emitAll ops w) p u Hp), bind_Ok.
    rewrite (BroadcastMsg_sessions s msg w a su (Sessions u) Hs Ha), bind_Ok.
    rewrite IH, map_app, <- List.app_assoc. reflexivity.
Qed.

Lemma legacy_broadcastLoop (username fromUsername msg : string)
    (clients : list Legacy.Client) :
  forall trace,
    Legacy.broadcastLoop username fromUsername msg clients trace
    = (trace ++ map (fun client => SWrite (Legacy.Socket client)
                        ("MSG" ++ SOH ++ username ++ SOH ++ msg ++ CRLF))
                 (List.filter (fun client =>
                    negb (Legacy.Username client =? fromUsername)%string) clients))%list.
Proof.
  induction clients as [|c l IH]; intros trace; cbn [Legacy.broadcastLoop List.filter map].
  - now rewrite app_nil_r.
  - destruct (Legacy.Username c =? fromUsername)%string; cbn [negb map]; rewrite IH.
    + reflexivity.
    + now rewrite <- List.app_assoc.
Qed.

(** C2, as the code has it: [Session.BroadcastMsg] writes the message once to
    every attached session, in registry order, whose remote address is not
    that of the sending session, the sender's other sessions included; the
    legacy [broadcastMsg], with one client per connection, writes it once to
    every client whose name is not [fromUsername]. *)
Theorem C2_broadcast_skips_origin_only
    (s : Session) (msg : string) (w : World) (a : ptr) (su : User) (us : list User) :
  sessUser s = Some a -> heap w !! a = Some su -> registry w us ->
  BroadcastMsg s msg w
    = Ok (emitAll (map (fun session => SWrite (Socket session) (msgRecord su msg))
                     (concat (map (reached s) us))) w)
  /\ forall (clients : list Legacy.Client) (username fromUsername text : string)
            (trace : list SockOp),
       Legacy.broadcastMsg clients username fromUsername text trace
       = (trace ++ map (fun client => SWrite (Legacy.Socket client)
                           ("MSG" ++ SOH ++ username ++ SOH ++ text ++ CRLF))
                    (List.filter (fun client =>
                       negb (Legacy.Username client =? fromUsername)%string) clients))%list.
Proof.
  intros Hs Ha Hreg. split.
  - unfold BroadcastMsg. rewrite <- (emitAll_nil w) at 2.
    apply (BroadcastMsg_users s msg w a su (users w) us Hs Ha Hreg []).
  - intros clients username fromUsername text trace. unfold Legacy.broadcastMsg.
    destruct clients as [|c l]; [cbn; now rewrite app_nil_r|].
    cbn [length Nat.ltb Nat.leb]. apply legacy_broadcastLoop.
Qed.

(** C2 fails as stated: with two sessions logged in as alice, a message sent
    from the first one is written to the socket of the second. *)
Lemma C2_own_other_session_receives :
  exists σ u,
    demoRun twoSessionsBroadcast = Some σ
    /\ users (world σ) = [0%nat] /\ heap (world σ) !! 0%nat = Some u
    /\ Username u = "alice"
    /\ map Socket (Sessions u) = [0%nat; 1%nat]
    /\ last (wire (world σ)) = Some (SWrite 1%nat (record ["MSG"; "alice"; "hi"])).
Proof.
  eexists _, _. split; [vm_compute; reflexivity|].
  repeat split; reflexivity.
Qed.

(** ** QUIT *)

Lemma splitGo_CRLF_other (c : ascii) (acc r : string) :
  c <> CR -> splitGo CRLF 0 acc (String c r) = splitGo CRLF 0 (acc ++ String c "") r.
Proof.
  intros Hc. rewrite splitGo_CRLF_step.
  destruct r as [|d r].
  - now rewrite prefix_CRLF_one.
  - rewrite prefix_CRLF_two. destruct (ascii_dec CR c); [congruence | reflexivity].
Qed.

Lemma splitGo_CRLF_hit (acc r : string) :
  splitGo CRLF 0 acc (String CR (String LF r)) = acc :: splitGo CRLF 0 "" r.
Proof.
  rewrite splitGo_CRLF_step, prefix_CRLF_two.
  destruct (ascii_dec CR CR); [|congruence].
  destruct (ascii_dec LF LF); [|congruence].
  now rewrite splitGo_skip.
Qed.





(** ** Lookups in the registry *)

Lemma userExistsLoop_frame (name : string) (ps : list ptr) (w w' : World) :
  Forall (fun p => heap w' !! p = heap w !! p) ps ->
  userExistsLoop name ps w' = userExistsLoop name ps w.
Proof.
  induction 1 as [|p ps Hp _ IH]; cbn [userExistsLoop]; [reflexivity|].
  unfold deref. rewrite Hp. destruct (heap w !! p); [|reflexivity].
  rewrite !bind_Ok, IH. reflexivity.
Qed.

Lemma getUserLoop_frame (name : string) (ps : list ptr) (w w' : World) :
  Forall (fun p => heap w' !! p = heap w !! p) ps ->
  getUserLoop name ps w' = getUserLoop name ps w.
Proof.
  induction 1 as [|p ps Hp _ IH]; cbn [getUserLoop]; [reflexivity|].
  unfold deref. rewrite Hp. destruct (heap w !! p); [|reflexivity].
  rewrite !bind_Ok, IH. reflexivity.
Qed.

Lemma getUserLoop_found (name : string) (ps : list ptr) (w : World) (a : ptr) :
  getUserLoop name ps w = Ok (Some a) ->
  userExistsLoop name ps w = Ok true
  /\ exists u, heap w !! a = Some u /\ Username u = name /\ PasswordHash u <> "".
Proof.
  induction ps as [|p ps IH]; cbn [getUserLoop userExistsLoop]; [discriminate|].
  intros H. bind_inv H. rewrite Hstep, bind_Ok.
  destruct ((name =? Username x)%string && negb (PasswordHash x =? "")%string
            && Bool.eqb (Ghost x) false) eqn:E.
  - injection H as <-. split; [reflexivity|].
    apply deref_inv in Hstep as (b & [= <-] & Hb).
    apply andb_prop in E as [E _]. apply andb_prop in E as [E1 E2].
    apply String.eqb_eq in E1. apply negb_true_iff, String.eqb_neq in E2.
    eauto.
  - auto.
Qed.

Lemma registry_valid_after_alloc (w : World) (us : list User) (nu : User) :
  registry w us ->
  Forall (fun p => ((heap w ++ [nu])%list : list User) !! p = heap w !! p) (users w).
Proof.
  unfold registry. induction 1 as [|p u ps us' Hp _ IH]; constructor; [|exact IH].
  rewrite Hp. apply lookup_app_l_Some. exact Hp.
Qed.

(** ** NAME before authentication *)

(** C10: a session that joins as a registered user and has not authenticated
    renames that user with a NAME record whose first argument is the
    registered name and whose second is a free one; no password is compared
    on the way, whatever bcrypt would answer. *)
Theorem C10_rename_without_password
    (clock : nat -> Z) (generate : nat -> string -> option string)
    (compare : string -> string -> bool)
    (s : Session) (w : World) (us : list User) (a : ptr)
    (name newName : string) (joinRest nameRest : list string) :
  sessUser s = None -> Authenticated s = false ->
  registry w us ->
  getUser name w = Ok (Some a) ->
  userExists newName w = Ok false ->
  exists (s1 : Session) (w1 w2 : World) (u : User),
    dispatch clock generate compare s "JOIN" (name :: joinRest) w = Ok (s1, w1)
    /\ sessUser s1 = Some a /\ Authenticated s1 = false
    /\ heap w1 !! a = Some u /\ Username u = name /\ PasswordHash u <> ""
    /\ dispatch clock generate compare s1 "NAME" (name :: newName :: nameRest) w1
       = Ok (s1, w2)
    /\ heap w2 !! a = Some (setUsername newName u)
    /\ users w2 = users w.
Proof.
  intros Hs Hauth Hreg Hget Hfree.
  destruct (getUserLoop_found name (users w) w a Hget) as (Hex & u & Ha & Hname & Hhash).
  set (nu := match joinRest with
             | a1 :: _ => setAbout a1 (newUser name)
             | [] => newUser name
             end).
  pose proof (registry_valid_after_alloc w us nu Hreg) as Hframe.
  set (s1 := setSessUser (Some (length (heap w))) s).
  set (w0 := Ping s1 (runeString (clock (ticks w))) (tick (setHeap (heap w ++ [nu]) w))).
  assert (Hex0 : userExists name w0 = Ok true).
  { unfold userExists. rewrite <- Hex. apply userExistsLoop_frame. exact Hframe. }
  assert (Hget0 : getUser name w0 = Ok (Some a)).
  { unfold getUser. rewrite <- Hget. apply getUserLoop_frame. exact Hframe. }
  assert (Hfree0 : forall ops, userExists newName (emitAll ops w0) = Ok false).
  { intros ops. unfold userExists. rewrite <- Hfree.
    apply userExistsLoop_frame. exact Hframe. }
  assert (Ha0 : forall ops, heap (emitAll ops w0) !! a = Some u).
  { intros ops. cbn. apply lookup_app_l_Some. exact Ha. }
  set (s2 := setSessUser (Some a) s1).
  set (prompt := SWrite (Socket s2)
         (Join ["MSG"; "[Authentication]";
                "[color=" ++ colorAuth ++ "]" ++
                "You must authenticate with the password attached to your username to continue. Ex: [u]/auth MyPassword[/u]"
                ++ "[/color]"] SOH ++ CRLF)).
  exists s2, (emitAll [prompt] w0).
  eexists. exists u.
  split.
  { change (dispatch clock generate compare s "JOIN" (name :: joinRest) w)
      with (caseJOIN clock s (name :: joinRest) w).
    unfold caseJOIN. rewrite Hs, bind_Ok.
    change (alloc _ w) with (length (heap w), setHeap (heap w ++ [nu]) w).
    cbv zeta. cbv beta iota.
    change (ticks (setHeap (heap w ++ [nu]) w)) with (ticks w).
    change (setSessUser (Some (length (heap w))) s) with s1.
    change (Ping s1 (runeString (clock (ticks w))) (tick (setHeap (heap w ++ [nu]) w)))
      with w0.
    rewrite Hex0, bind_Ok, Hget0, bind_Ok. reflexivity. }
  split; [reflexivity|]. split; [exact Hauth|].
  split; [apply Ha0|]. split; [exact Hname|]. split; [exact Hhash|].
  split.
  { change (dispatch clock generate compare s2 "NAME" (name :: newName :: nameRest)
              (emitAll [prompt] w0))
      with (caseNAME s2 (name :: newName :: nameRest) (emitAll [prompt] w0)).
    unfold caseNAME.
    change (sessUser s2) with (Some a).
    rewrite (deref_Some _ _ _ (Ha0 [prompt])), bind_Ok.
    rewrite Hname, String.eqb_refl. cbn [negb].
    rewrite Hfree0, bind_Ok.
    rewrite (modify_Some _ _ _ _ (Ha0 [prompt])), bind_Ok.
    change (Authenticated s2) with (Authenticated s). rewrite Hauth.
    reflexivity. }
  split.
  - cbn [heap SendAnnouncementMsg Write emit setHeap].
    apply list_lookup_insert_eq. eapply lookup_lt_Some. apply (Ha0 [prompt]).
  - reflexivity.
Qed.

(** ** Pending private messages *)

Lemma SendPMLoop_skip (s : Session) (target msg : string) (w : World)
    (pre rest : list ptr) :
  Forall (fun p => exists v, heap w !! p = Some v /\ Username v <> target) pre ->
  SendPMLoop s target msg (pre ++ rest) w = SendPMLoop s target msg rest w.
Proof.
  induction 1 as [|p pre (v & Hp & Hne) _ IH]; [reflexivity|].
  cbn [app SendPMLoop]. rewrite (deref_Some _ _ _ Hp), bind_Ok.
  assert (E : (target =? Username v)%string = false)
    by (apply String.eqb_neq; congruence).
  now rewrite E.
Qed.

(** A private message to a user without sessions goes to the end of the
    queue of that user, and nothing is written. *)
Lemma SendPM_enqueues (s : Session) (target msg : string) (w : World)
    (a : ptr) (u : User) :
  first_named w target a -> heap w !! a = Some u -> Sessions u = [] ->
  SendPM s target msg w
  = Ok (setHeap (<[a := setPendingPMs (PendingPMs u ++ [mkPM (sessUser s) msg]) u]>
                   (heap w)) w).
Proof.
  intros (pre & post & Hus & (v & Hv & Hname) & Hpre) Ha Hnone.
  assert (v = u) as -> by congruence.
  unfold SendPM. rewrite Hus, (SendPMLoop_skip s target msg w pre _ Hpre).
  cbn [SendPMLoop]. rewrite (deref_Some _ _ _ Ha), bind_Ok.
  rewrite Hname, String.eqb_refl, Hnone. cbn [length Nat.leb].
  rewrite (modify_Some _ _ _ _ Ha). reflexivity.
Qed.

Lemma flush_loop (s1 : Session) (w : World) (pms : list PrivateMessage) :
  forall ops w',
    forEach (fun pm w0 =>
        sender ← deref (pmUser pm) w0;
        Ok (SendPMFrom s1 (Username sender) (Message pm) w0))
      pms (emitAll ops w) = Ok w' ->
    exists recs,
      w' = emitAll (ops ++ recs) w
      /\ Forall2 (fun pm rec =>
           exists sender, deref (pmUser pm) w = Ok sender
             /\ rec = SWrite (Socket s1)
                       ("PM" ++ SOH ++ Username sender ++ SOH ++ Message pm ++ CRLF))
           pms recs.
Proof.
  induction pms as [|pm pms IH]; intros ops w' H; cbn [forEach] in H.
  - injection H as <-. exists []. split; [now rewrite app_nil_r | constructor].
  - bind_step H as w1 H1. bind_step H1 as sender Hsender. injection H1 as <-.
    unfold SendPMFrom, Write in H. rewrite emit_emitAll, Join_three in H.
    destruct (IH _ _ H) as (recs & -> & Hrecs).
    eexists (_ :: recs). split; [now rewrite <- List.app_assoc|].
    constructor; [|exact Hrecs]. exists sender. split; [exact Hsender | reflexivity].
Qed.

(** After a successful AUTH the session gets the roster, the banner and the
    message of the day, and then the queued private messages, oldest first,
    each under the current name of its sender; the queue is left as it was. *)
Lemma attach_flushes_pending (s s' : Session) (w w' : World) (a : ptr) (u : User) :
  sessUser s = Some a -> heap w !! a = Some u ->
  attach s w = Ok (s', w') ->
  exists roster recs u',
    wire w' = (wire w ++ [SWrite (Socket s) roster;
                          SWrite (Socket s) ("Msg" ++ SOH ++ "Announcement" ++ SOH ++ joinMsg ++ CRLF);
                          SWrite (Socket s) ("MSG" ++ SOH ++ "Message of the Day" ++ SOH ++ motdMsg ++ CRLF)]
               ++ recs)%list
    /\ Forall2 (fun pm rec =>
         exists sender, deref (pmUser pm) w' = Ok sender
           /\ rec = SWrite (Socket s)
                     ("PM" ++ SOH ++ Username sender ++ SOH ++ Message pm ++ CRLF))
         (PendingPMs u) recs
    /\ heap w' !! a = Some u'
    /\ PendingPMs u' = PendingPMs u.
Proof.
  intros Hs Ha H. unfold attach in H. rewrite Hs in H.
  rewrite (modify_Some _ _ _ _ Ha), bind_Ok in H.
  set (u1 := setSessions (Sessions u ++ [s]) u) in H.
  pose proof (lookup_modified w a u u1 Ha) as Ha1.
  rewrite (modify_Some _ _ _ _ Ha1), bind_Ok in H.
  set (w1 := setHeap (<[a:=u1]> (heap w)) w) in *.
  set (u2 := setOnline true u1) in H.
  pose proof (lookup_modified w1 a u1 u2 Ha1) as Ha2.
  rewrite (modify_Some _ _ _ _ Ha2), bind_Ok in H.
  set (w2 := setHeap (<[a:=u2]> (heap w1)) w1) in *.
  set (u3 := setAway false u2) in H.
  pose proof (lookup_modified w2 a u2 u3 Ha2) as Ha3.
  rewrite (modify_Some _ _ _ _ Ha3), bind_Ok in H.
  set (w3 := setHeap (<[a:=u3]> (heap w2)) w2) in *.
  set (u4 := setAwayReason "" u3) in H.
  pose proof (lookup_modified w3 a u3 u4 Ha3) as Ha4.
  set (w4 := setHeap (<[a:=u4]> (heap w3)) w3) in *.
  bind_step H as w5 H5. unfold SendList in H5. bind_step H5 as userList HL.
  injection H5 as <-.
  set (s1 := setAuthenticated true s) in *.
  set (ops := [SWrite (Socket s) (Join ["LIST"; Join userList SOH] SOH ++ CRLF);
               SWrite (Socket s) ("Msg" ++ SOH ++ "Announcement" ++ SOH ++ joinMsg ++ CRLF);
               SWrite (Socket s) ("MSG" ++ SOH ++ "Message of the Day" ++ SOH ++ motdMsg ++ CRLF)]).
  assert (E : SendMsg s1 "Message of the Day" motdMsg
                (SendAnnouncementMsg s1 joinMsg (Write s1 ["LIST"; Join userList SOH] w4))
              = emitAll ops w4).
  { unfold SendMsg, SendAnnouncementMsg, Write.
    rewrite <- (emitAll_nil w4) at 1. rewrite !emit_emitAll. reflexivity. }
  rewrite E in H.
  change (sessUser s1) with (sessUser s) in H. rewrite Hs in H.
  rewrite (deref_Some (emitAll ops w4) a u4 Ha4), bind_Ok in H.
  bind_step H as w8 H8. injection H as <- <-.
  destruct (flush_loop s1 w4 _ _ _ H8) as (recs & -> & Hrecs).
  exists (Join ["LIST"; Join userList SOH] SOH ++ CRLF), recs, u4.
  split; [reflexivity|].
  split; [|split; [exact Ha4 | reflexivity]].
  exact Hrecs.
Qed.

(** C1, at a failing run: the private message that bob sent while alice had
    no session is written to the connection on which she logs in next, and
    is still in her queue afterwards; her following login gets it again. *)
Theorem C1_pending_queue_not_cleared :
  exists σ1 σ2 alice,
    demoRun offlineMessage = Some σ1
    /\ heap (world σ1) !! 1%nat = Some alice
    /\ Username alice = "alice"
    /\ last (writesTo 2%nat (wire (world σ1))) = Some (record ["PM"; "bob"; "hello"])
    /\ PendingPMs alice = [mkPM (Some 0%nat) "hello"]
    /\ demoRun (offlineMessage ++ secondLogin) = Some σ2
    /\ last (writesTo 3%nat (wire (world σ2))) = Some (record ["PM"; "bob"; "hello"]).
Proof.
  eexists _, _, _.
  split; [vm_compute; reflexivity|].
  split; [reflexivity|]. split; [reflexivity|]. split; [reflexivity|].
  split; [reflexivity|].
  split; [vm_compute; reflexivity|]. reflexivity.
Qed.

(** ** The registry invariant *)

Lemma keeps_refl (w : World) : keeps w w.
Proof.
  split; [reflexivity|]. split; [reflexivity|]. intros a u Ha. exists u. tauto.
Qed.

Lemma keeps_trans (w1 w2 w3 : World) : keeps w1 w2 -> keeps w2 w3 -> keeps w1 w3.
Proof.
  intros (Hu1 & Hl1 & H1) (Hu2 & Hl2 & H2). split; [congruence|]. split; [congruence|].
  intros a u Ha.
  destruct (H1 a u Ha) as (u' & Ha' & Hn & Hh & Hg & Ho).
  destruct (H2 a u' Ha') as (u'' & Ha'' & Hn' & Hh' & Hg' & Ho').
  exists u''. repeat split; try congruence; try tauto.
Qed.

Lemma keeps_store (w w' : World) :
  heap w' = heap w -> users w' = users w -> keeps w w'.
Proof.
  intros Hh Hu. split; [exact Hu|]. split; [now rewrite Hh|].
  intros a u Ha. exists u. rewrite Hh. tauto.
Qed.

Lemma keeps_emit (op : SockOp) (w : World) : keeps w (emit op w).
Proof. now apply keeps_store. Qed.

Lemma keeps_tick (w : World) : keeps w (tick w).
Proof. now apply keeps_store. Qed.

Lemma keeps_insert (w : World) (a : ptr) (u v : User) :
  heap w !! a = Some u ->
  Username v = Username u -> (PasswordHash v = "" <-> PasswordHash u = "") ->
  Ghost v = Ghost u -> (Online u = true -> Online v = true) ->
  keeps w (setHeap (<[a := v]> (heap w)) w).
Proof.
  intros Ha Hn Hh Hg Ho. split; [reflexivity|]. split; [apply length_insert|].
  intros b ub Hb. cbn [heap setHeap].
  destruct (decide (a = b)) as [<-|Hne].
  - exists v. rewrite list_lookup_insert_eq by (eapply lookup_lt_Some; eauto).
    assert (ub = u) as -> by (rewrite Ha in Hb; now injection Hb). tauto.
  - exists ub. rewrite list_lookup_insert_ne by exact Hne. tauto.
Qed.

Lemma keeps_modify (p : option ptr) (f : User -> User) (w w' : World) :
  harmless f -> modify p f w = Ok w' -> keeps w w'.
Proof.
  intros Hf H. apply modify_inv in H as (a & u & -> & Ha & ->).
  destruct (Hf u) as (Hn & Hh & Hg & Ho).
  apply (keeps_insert w a u (f u) Ha Hn); [now rewrite Hh | exact Hg | exact Ho].
Qed.

Lemma keeps_grows (w w' : World) : keeps w w' -> grows w w'.
Proof.
  intros (_ & _ & H) a u Ha. destruct (H a u Ha) as (u' & Ha' & _ & Hh & _ & Ho).
  exists u'. split; [exact Ha'|]. split; [tauto | exact Ho].
Qed.

Lemma grows_refl (w : World) : grows w w.
Proof. intros a u Ha. exists u. tauto. Qed.

Lemma grows_trans (w1 w2 w3 : World) : grows w1 w2 -> grows w2 w3 -> grows w1 w3.
Proof.
  intros H1 H2 a u Ha.
  destruct (H1 a u Ha) as (u' & Ha' & Hh & Ho).
  destruct (H2 a u' Ha') as (u'' & Ha'' & Hh' & Ho').
  exists u''. split; [exact Ha''|]. split; tauto.
Qed.

Lemma keeps_back (w w' : World) (a : ptr) (u' : User) :
  keeps w w' -> heap w' !! a = Some u' ->
  exists u, heap w !! a = Some u
            /\ Username u' = Username u
            /\ (PasswordHash u' = "" <-> PasswordHash u = "")
            /\ Ghost u' = Ghost u.
Proof.
  intros (_ & Hl & H) Ha'.
  assert (Hlt : (a < length (heap w))%nat)
    by (rewrite <- Hl; eapply lookup_lt_Some; eauto).
  destruct (lookup_lt_is_Some_2 _ _ Hlt) as (u & Ha).
  destruct (H a u Ha) as (u'' & Ha'' & Hn & Hh & Hg & _).
  assert (u'' = u') as -> by congruence. eauto.
Qed.

Lemma world_ok_keeps (w w' : World) : world_ok w -> keeps w w' -> world_ok w'.
Proof.
  intros [Hus Hgh] Hk. pose proof Hk as (Hu & Hl & H). split.
  - intros a Ha. rewrite Hu in Ha. destruct (Hus a Ha) as (u & Hau & Hh).
    destruct (H a u Hau) as (u' & Ha' & _ & Hh' & _). exists u'. tauto.
  - intros a u' Ha'.
    destruct (keeps_back w w' a u' Hk Ha') as (u & Ha & _ & _ & Hg).
    rewrite Hg. eauto.
Qed.

Lemma digest_at_grows (w w' : World) (a : ptr) :
  grows w w' -> digest_at w a -> digest_at w' a.
Proof.
  intros Hg (u & Hu & Hh). destruct (Hg a u Hu) as (u' & Hu' & Hh' & _).
  exists u'. tauto.
Qed.

Lemma phase_ok_grows (w w' : World) (s : Session) (ph : Phase) :
  phase_ok w s ph -> grows w w' -> phase_ok w' s ph.
Proof.
  intros H Hg. destruct ph; cbn [phase_ok] in *; try exact H.
  - destruct H as (a & Hs & Ha). eauto using digest_at_grows.
  - destruct H as ((a & Hs & Ha) & Hsnap). split; [eauto using digest_at_grows|].
    eapply Forall_impl; [exact Hsnap|]. intros p. now apply digest_at_grows.
  - destruct H as (a & Hs & Ha). eauto using digest_at_grows.
Qed.

Lemma session_ok_grows (w w' : World) (s : Session) :
  session_ok w s -> grows w w' -> session_ok w' s.
Proof.
  intros (H1 & H2) Hg. split.
  - intros a Ha. destruct (H1 a Ha) as (u & Hu).
    destruct (Hg a u Hu) as (u' & Hu' & _). eauto.
  - intros Hauth. destruct (H2 Hauth) as (a & u & Hs & Hu & Hh & Ho).
    destruct (Hg a u Hu) as (u' & Hu' & Hh' & Ho'). exists a, u'. tauto.
Qed.

Lemma forEach_keeps {A : Type} (body : A -> World -> Outcome World) (l : list A) :
  (forall x w w', body x w = Ok w' -> keeps w w') ->
  forall w w', forEach body l w = Ok w' -> keeps w w'.
Proof.
  intros Hbody. induction l as [|x l IH]; intros w w'; cbn [forEach].
  - intros [= <-]. apply keeps_refl.
  - intros H. bind_inv H. eapply keeps_trans; eauto.
Qed.

(** Solves [harmless f] for the field assignments of the handler. *)
Ltac harmless := intros ?; cbn; tauto.

Lemma BroadcastMsg_keeps (s : Session) (msg : string) (w w' : World) :
  BroadcastMsg s msg w = Ok w' -> keeps w w'.
Proof.
  unfold BroadcastMsg. generalize (users w). intros ps. revert w w'.
  apply forEach_keeps. intros p w1 w1' H. bind_inv H. revert H.
  apply forEach_keeps. intros y w2 w2' H.
  destruct (RemoteAddr s =? RemoteAddr y)%string.
  - injection H as <-. apply keeps_refl.
  - bind_inv H. injection H as <-. apply keeps_emit.
Qed.

Lemma BroadcastAction_keeps (s : Session) (msg : string) (w w' : World) :
  BroadcastAction s msg w = Ok w' -> keeps w w'.
Proof.
  unfold BroadcastAction. generalize (users w). intros ps. revert w w'.
  apply forEach_keeps. intros p w1 w1' H. bind_inv H. revert H.
  apply forEach_keeps. intros y w2 w2' H.
  destruct (RemoteAddr s =? RemoteAddr y)%string; injection H as <-.
  - apply keeps_refl.
  - apply keeps_emit.
Qed.

Lemma SendList_keeps (s : Session) (w w' : World) :
  SendList s w = Ok w' -> keeps w w'.
Proof. unfold SendList. intros H. bind_inv H. injection H as <-. apply keeps_emit. Qed.

Lemma SendPM_keeps (s : Session) (target msg : string) (w w' : World) :
  SendPM s target msg w = Ok w' -> keeps w w'.
Proof.
  unfold SendPM. generalize (users w). intros ps.
  induction ps as [|p ps IH]; cbn [SendPMLoop].
  - intros [= <-]. apply keeps_refl.
  - intros H. bind_inv H.
    destruct (target =? Username x)%string; [|auto].
    destruct (length (Sessions x) <=? 0)%nat.
    + revert H. apply keeps_modify. harmless.
    + revert H. apply forEach_keeps. intros y w1 w1' H.
      bind_inv H. injection H as <-. apply keeps_emit.
Qed.

Lemma SendRAW_keeps (s : Session) (target raw : string) (w w' : World) :
  SendRAW s target raw w = Ok w' -> keeps w w'.
Proof.
  unfold SendRAW. generalize (users w). intros ps.
  induction ps as [|p ps IH]; cbn [SendRAWLoop].
  - intros [= <-]. apply keeps_refl.
  - intros H. bind_inv H.
    destruct (target =? Username x)%string; [|auto].
    revert H. apply forEach_keeps. intros y w1 w1' H.
    destruct (RemoteAddr s =? RemoteAddr y)%string; injection H as <-.
    + apply keeps_refl.
    + apply keeps_emit.
Qed.

Lemma Close_keeps (s : Session) (w w' : World) : Close s w = Ok w' -> keeps w w'.
Proof.
  unfold Close. generalize (users w). intros ps.
  induction ps as [|p ps IH]; cbn [CloseLoop].
  - intros [= <-]. apply keeps_refl.
  - intros H. bind_inv H. bind_inv H.
    destruct (Username x =? Username x0)%string; [|auto].
    bind_inv H. bind_inv H.
    assert (K1 : keeps w x1) by (revert Hstep1; apply keeps_modify; harmless).
    assert (K2 : keeps w (emit (SClose (Socket s)) x1))
      by (eapply keeps_trans; [exact K1 | apply keeps_emit]).
    destruct (length (Sessions x2) <=? 0)%nat.
    + bind_step H as w3 H3.
      apply (keeps_trans _ _ _ K2). apply (keeps_trans _ w3).
      * revert H3. apply keeps_modify. harmless.
      * revert H. apply keeps_modify. harmless.
    + injection H as <-. exact K2.
Qed.

Lemma userExistsLoop_false (name : string) (ps : list ptr) (w : World) :
  userExistsLoop name ps w = Ok false ->
  forall p u, p ∈ ps -> heap w !! p = Some u ->
    Username u = name -> PasswordHash u <> "" -> Ghost u = false -> False.
Proof.
  induction ps as [|q ps IH]; cbn [userExistsLoop]; intros H p u Hin Hp Hn Hh Hg.
  - inversion Hin.
  - bind_inv H.
    apply deref_inv in Hstep as (b & [= <-] & Hq).
    apply elem_of_cons in Hin as [->|Hin].
    + assert (x = u) as -> by congruence.
      rewrite Hn, String.eqb_refl, Hg in H.
      apply String.eqb_neq in Hh. rewrite Hh in H. discriminate H.
    + destruct ((name =? Username x)%string && negb (PasswordHash x =? "")%string
                && Bool.eqb (Ghost x) false); [discriminate H|].
      eapply IH; eauto.
Qed.

Lemma userExists_keeps (name : string) (w w' : World) :
  heap w' = heap w -> users w' = users w -> userExists name w' = userExists name w.
Proof.
  intros Hh Hu. unfold userExists. rewrite Hu.
  apply userExistsLoop_frame. rewrite Hh. apply Forall_forall. reflexivity.
Qed.

Lemma world_ok_alloc (w : World) (nu : User) :
  world_ok w -> PasswordHash nu = "" -> Ghost nu = false ->
  world_ok (setHeap (heap w ++ [nu]) w) /\ grows w (setHeap (heap w ++ [nu]) w).
Proof.
  intros [Hus Hgh] Hh Hg.
  assert (Hold : forall a u, heap (setHeap (heap w ++ [nu]) w) !! a = Some u ->
                   heap w !! a = Some u \/ u = nu).
  { intros a u H. cbn [heap setHeap] in H. apply lookup_app_Some in H as [H|[_ H]].
    - now left.
    - right. apply list_lookup_singleton_Some in H as [_ H]. congruence. }
  split; [split|].
  - intros a Ha. destruct (Hus a Ha) as (u & Hu & Hne). exists u.
    split; [|exact Hne]. cbn [heap setHeap]. now apply lookup_app_l_Some.
  - intros a u Ha. destruct (Hold a u Ha) as [H| ->]; [eauto | exact Hg].
  - intros a u Ha. exists u. split; [|tauto].
    cbn [heap setHeap]. now apply lookup_app_l_Some.
Qed.

(** An assignment to fields of one user that leaves its ghost flag alone,
    keeps it registered if it was and online if it was. *)
Lemma world_ok_update (w : World) (a : ptr) (u v : User) :
  world_ok w -> heap w !! a = Some u ->
  Ghost v = Ghost u -> (PasswordHash u <> "" -> PasswordHash v <> "") ->
  (Online u = true -> Online v = true) ->
  world_ok (setHeap (<[a := v]> (heap w)) w) /\ grows w (setHeap (<[a := v]> (heap w)) w).
Proof.
  intros [Hus Hgh] Ha Hg Hh Ho.
  assert (Hnew : heap (setHeap (<[a := v]> (heap w)) w) !! a = Some v)
    by (eapply lookup_modified; eauto).
  assert (Hgrows : grows w (setHeap (<[a := v]> (heap w)) w)).
  { intros b ub Hb. destruct (decide (b = a)) as [->|Hba].
    - exists v. split; [exact Hnew|]. assert (ub = u) as -> by congruence. tauto.
    - exists ub. split; [|tauto]. cbn [heap setHeap].
      rewrite list_lookup_insert_ne by congruence. exact Hb. }
  split; [split | exact Hgrows].
  - intros b Hb. eapply digest_at_grows; [exact Hgrows | now apply Hus].
  - intros b vb Hb. cbn [heap setHeap] in Hb.
    apply list_lookup_insert_Some in Hb as [(-> & <- & _)|(Hne & Hb)].
    + rewrite Hg. eauto.
    + eauto.
Qed.

Lemma world_ok_rename (w : World) (a : ptr) (u : User) (name : string) :
  world_ok w -> heap w !! a = Some u ->
  world_ok (setHeap (<[a := setUsername name u]> (heap w)) w)
  /\ grows w (setHeap (<[a := setUsername name u]> (heap w)) w).
Proof. intros Hw Ha. apply (world_ok_update w a u); auto. Qed.

(** [users = append(...)] with what [append] had read: the registry after
    the assignment holds users with a digest when the entries read and the new
    one are such. *)
Lemma world_ok_append (w : World) (snapshot : list ptr) (p : ptr) :
  world_ok w -> Forall (digest_at w) snapshot -> digest_at w p ->
  world_ok (setUsers (snapshot ++ [p]) w).
Proof.
  intros [Hus Hgh] Hsnap Hp. split.
  - intros a Ha. cbn [users setUsers] in Ha. apply elem_of_app in Ha as [Ha|Ha].
    + rewrite Forall_forall in Hsnap. exact (Hsnap a Ha).
    + apply list_elem_of_singleton in Ha as ->. exact Hp.
  - exact Hgh.
Qed.

Lemma world_ok_register (w : World) (a : ptr) (u : User) (h : string) :
  world_ok w -> heap w !! a = Some u -> h <> "" ->
  let w' := setUsers (users w ++ [a])
              (setHeap (<[a := setPasswordHash h u]> (heap w)) w) in
  world_ok w' /\ grows w w'.
Proof.
  intros Hw Ha Hh w'.
  destruct (world_ok_update w a u (setPasswordHash h u) Hw Ha) as (Hw1 & Hg1);
    [reflexivity | intros _; exact Hh | tauto |].
  split; [|exact Hg1].
  apply world_ok_append; [exact Hw1 | |].
  - apply Forall_forall. intros b Hb. apply (ok_users _ Hw1 b Hb).
  - exists (setPasswordHash h u). split; [|exact Hh].
    eapply lookup_modified; eauto.
Qed.

(** Where no two registered users share a name, a user of the registry is the
    entry that the loops over [users] stop at for its name. *)
Lemma registered_first_named (w : World) (a : ptr) (u : User) :
  world_ok w -> unique_registered w ->
  a ∈ users w -> heap w !! a = Some u ->
  first_named w (Username u) a.
Proof.
  intros [Hus _] Huq Hin Ha.
  destruct (Hus a Hin) as (u0 & Hu0 & Hh). assert (u0 = u) as -> by congruence.
  destruct (list_elem_of_split_l _ _ Hin) as (pre & post & Hsplit & Hfirst).
  exists pre, post. split; [exact Hsplit|]. split; [exists u; auto|].
  apply Forall_forall. intros p Hp.
  destruct (Hus p) as (v & Hv & Hhv).
  { rewrite Hsplit. apply elem_of_app. now left. }
  exists v. split; [exact Hv|]. intros Hn.
  apply Hfirst. assert (p = a) as <- by (eapply Huq; eauto). exact Hp.
Qed.

Lemma world_ok_store (w w' : World) :
  heap w' = heap w -> users w' = users w -> world_ok w -> world_ok w'.
Proof. intros Hh Hu Hok. eapply world_ok_keeps; [exact Hok | now apply keeps_store]. Qed.

Lemma step_ok_keeps (w w' : World) (s : Session) :
  world_ok w -> session_ok w s -> keeps w w' -> step_ok w w' s.
Proof.
  intros Hw Hs Hk. split; [eapply world_ok_keeps; eauto|].
  split; [eapply session_ok_grows; eauto using keeps_grows | now apply keeps_grows].
Qed.

Lemma step_ok_refl (w : World) (s : Session) :
  world_ok w -> session_ok w s -> step_ok w w s.
Proof. intros Hw Hs. apply step_ok_keeps; auto using keeps_refl. Qed.

Lemma attach_ok (s s' : Session) (w w' : World) (a : ptr) (u : User) :
  sessUser s = Some a -> heap w !! a = Some u -> PasswordHash u <> "" ->
  attach s w = Ok (s', w') ->
  keeps w w' /\ session_ok w' s'.
Proof.
  intros Hs Ha Hh H. unfold attach in H.
  bind_step H as w1 H1. bind_step H as w2 H2. bind_step H as w3 H3.
  bind_step H as w4 H4. bind_step H as w5 H5. bind_step H as u7 H7.
  bind_step H as w8 H8. injection H as <- <-.
  assert (K1 : keeps w w1) by (revert H1; apply keeps_modify; harmless).
  assert (K2 : keeps w1 w2) by (revert H2; apply keeps_modify; harmless).
  assert (K3 : keeps w2 w3) by (revert H3; apply keeps_modify; harmless).
  assert (K4 : keeps w3 w4) by (revert H4; apply keeps_modify; harmless).
  assert (K5 : keeps w4 w5) by (revert H5; apply SendList_keeps).
  assert (K8 : keeps w5 w8).
  { set (s1 := setAuthenticated true s) in *.
    apply (keeps_trans _ (SendAnnouncementMsg s1 joinMsg w5)); [apply keeps_emit|].
    apply (keeps_trans _ (SendMsg s1 "Message of the Day" motdMsg
                            (SendAnnouncementMsg s1 joinMsg w5))); [apply keeps_emit|].
    revert H8. apply forEach_keeps. intros pm v v' H.
    bind_inv H. injection H as <-. apply keeps_emit. }
  assert (K28 : keeps w2 w8) by eauto using keeps_trans.
  assert (K08 : keeps w w8) by eauto using keeps_trans.
  split; [exact K08|].
  apply modify_inv in H2 as (b & u1 & Hb & Hu1 & ->).
  assert (b = a) as -> by congruence.
  destruct K28 as (_ & _ & K28).
  destruct (K28 a (setOnline true u1)) as (u8 & Hu8 & _ & _ & _ & Hon).
  { exact (lookup_modified w1 a u1 _ Hu1). }
  destruct K08 as (_ & _ & K08).
  destruct (K08 a u Ha) as (u8' & Hu8' & _ & Hh8 & _).
  assert (u8' = u8) as -> by congruence.
  split.
  - intros c Hc. cbn in Hc. assert (c = a) as -> by congruence. eauto.
  - intros _. exists a, u8. cbn [sessUser setAuthenticated].
    split; [exact Hs|]. split; [exact Hu8|]. split; [tauto|]. now apply Hon.
Qed.

Section Invariant.

Variable clock : nat -> Z.
Variable generate : nat -> string -> option string.
Variable compare : string -> string -> bool.

(** bcrypt digests are never empty. *)
Hypothesis generate_nonempty :
  forall n password h, generate n password = Some h -> h <> "".

Lemma caseJOIN_ok (s s' : Session) (args : list string) (w w' : World) :
  world_ok w -> session_ok w s ->
  caseJOIN clock s args w = Ok (s', w') -> step_ok w w' s'.
Proof.
  intros Hw Hs H. unfold caseJOIN in H. bind_step H as online Hon.
  destruct online.
  { injection H as <- <-. now apply step_ok_refl. }
  assert (Hauth : Authenticated s = false).
  { destruct (Authenticated s) eqn:E; [|reflexivity].
    destruct Hs as (_ & Hs). destruct (Hs E) as (a & u & Hsa & Hu & _ & Ho).
    rewrite Hsa in Hon. rewrite (deref_Some _ _ _ Hu), bind_Ok in Hon. congruence. }
  destruct args as [|a0 more].
  { injection H as <- <-. now apply step_ok_refl. }
  set (nu := match more with
             | a1 :: _ => setAbout a1 (newUser a0)
             | [] => newUser a0
             end) in H.
  change (alloc nu w) with (length (heap w), setHeap (heap w ++ [nu]) w) in H.
  cbv beta iota zeta in H.
  destruct (world_ok_alloc w nu Hw) as (Hw1 & Hg1).
  { unfold nu. destruct more; reflexivity. }
  { unfold nu. destruct more; reflexivity. }
  set (w1 := setHeap (heap w ++ [nu]) w) in *.
  set (s1 := setSessUser (Some (length (heap w))) s) in *.
  set (w2 := Ping s1 (runeString (clock (ticks w1))) (tick w1)) in *.
  assert (K2 : keeps w1 w2) by (now apply keeps_store).
  assert (Hw2 : world_ok w2) by (eapply world_ok_keeps; eauto).
  assert (Hg2 : grows w w2) by (eapply grows_trans; eauto using keeps_grows).
  bind_step H as found Hfound. destruct found.
  - bind_step H as p' Hget. injection H as <- <-.
    split; [eapply world_ok_keeps; [exact Hw2 | apply keeps_emit]|].
    split.
    + split; [|cbn; congruence].
      intros a Ha. cbn [sessUser setSessUser] in Ha. subst p'.
      destruct (getUserLoop_found a0 (users w2) w2 a Hget) as (_ & u & Hu & _).
      cbn [heap SendAuthMsg Write emit]. eauto.
    + eapply grows_trans; [exact Hg2 | apply keeps_grows, keeps_emit].
  - injection H as <- <-.
    split; [eapply world_ok_keeps; [exact Hw2 | apply keeps_emit]|].
    split.
    + split; [|cbn; congruence].
      intros a Ha. cbn [sessUser setSessUser s1] in Ha. injection Ha as <-.
      cbn [heap SendAuthMsg Write emit Ping tick setHeap w2 w1].
      apply lookup_lt_is_Some_2. rewrite length_app. cbn. lia.
    + eapply grows_trans; [exact Hg2 | apply keeps_grows, keeps_emit].
Qed.

(** Closes a case that returns the session as it was and a world that
    [keeps] the old one. *)
Ltac same_session H :=
  injection H as <- <-; apply step_ok_keeps;
  [assumption | assumption | eauto using keeps_refl, keeps_emit, keeps_tick, keeps_trans].

Lemma caseAUTH_ok (s s' : Session) (args : list string) (w w' : World) :
  world_ok w -> session_ok w s ->
  caseAUTH generate compare s args w = Ok (s', w') -> step_ok w w' s'.
Proof.
  intros Hw Hs H. unfold caseAUTH in H.
  destruct args as [|password rest]; [same_session H|].
  destruct (Authenticated s) eqn:Hauth.
  - destruct (generate (ticks w) password) as [h|] eqn:G; [|same_session H].
    bind_step H as w1 H1. injection H as <- <-.
    pose proof Hs as (_ & Hs2). destruct (Hs2 Hauth) as (a & u & Hsa & Hu & Hh & Ho).
    apply modify_inv in H1 as (b & ub & Hb & Hub & ->).
    assert (b = a) as -> by congruence.
    assert (ub = u) as -> by (cbn in Hub; congruence).
    apply step_ok_keeps; [assumption | assumption|].
    apply (keeps_trans _ (tick w)); [apply keeps_tick|].
    eapply keeps_trans; [|apply keeps_emit].
    apply (keeps_insert (tick w) a u); cbn; try tauto.
    split; intros E; [exfalso; eapply generate_nonempty; eauto | contradiction].
  - bind_step H as u Hu. apply deref_inv in Hu as (a & Hsa & Ha).
    destruct (negb (PasswordHash u =? "")%string) eqn:E.
    + apply negb_true_iff, String.eqb_neq in E.
      destruct (negb (compare (PasswordHash u) password)); [same_session H|].
      set (w1 := SendAuthMsg s _ w) in H.
      destruct (attach_ok s s' w1 w' a u Hsa Ha E H) as (K & Hs').
      assert (K' : keeps w w')
        by (apply (keeps_trans _ w1); [apply keeps_emit | exact K]).
      split; [eapply world_ok_keeps; eauto|]. split; [exact Hs' | now apply keeps_grows].
    + apply negb_false_iff, String.eqb_eq in E.
      bind_step H as found Hfound. destruct found; [same_session H|].
      destruct (generate (ticks w) password) as [h|] eqn:G; [|same_session H].
      bind_step H as w1 H1. rewrite Hsa in H.
      bind_step H as u3 Hu3. bind_step H as w4 H4.
      apply modify_inv in H1 as (b & ub & Hb & Hub & ->).
      assert (b = a) as -> by congruence.
      assert (ub = u) as -> by (cbn in Hub; congruence).
      assert (Hfound' : userExists (Username u) (tick w) = Ok false)
        by (rewrite <- Hfound; now apply userExists_keeps).
      destruct (world_ok_register (tick w) a u h) as (Hw2 & Hg2); auto.
      { eapply world_ok_store; [| |exact Hw]; reflexivity. }
      { eapply generate_nonempty; eauto. }
      clear Hfound'.
      set (w2 := setUsers _ _) in *.
      set (w3 := SendAuthMsg s _ w2) in *.
      assert (K24 : keeps w2 w4).
      { apply (keeps_trans _ w3); [apply keeps_emit|].
        revert H4. apply BroadcastAction_keeps. }
      assert (Ha2 : heap w2 !! a = Some (setPasswordHash h u)).
      { cbn. apply list_lookup_insert_eq. eapply lookup_lt_Some; eauto. }
      pose proof K24 as (_ & _ & K24').
      destruct (K24' a _ Ha2) as (u4 & Hu4 & _ & Hh4 & _).
      assert (Hne4 : PasswordHash u4 <> "").
      { intros E4. apply Hh4 in E4. cbn in E4. eapply generate_nonempty; eauto. }
      destruct (attach_ok s s' w4 w' a u4 Hsa Hu4 Hne4 H) as (K & Hs').
      assert (K2' : keeps w2 w') by (eapply keeps_trans; eauto).
      split; [eapply world_ok_keeps; eauto|]. split; [exact Hs'|].
      apply (grows_trans _ (tick w)); [apply keeps_grows, keeps_tick|].
      apply (grows_trans _ w2); [exact Hg2 | now apply keeps_grows].
Qed.

(** Closes a case that returns the session as it was and the world [w1]
    reached by the step [H1], which [keeps] the old one by [lemma]. *)
Ltac via_keeps H lemma :=
  let w1 := fresh "w1" in
  let H1 := fresh "H1" in
  apply bind_Ok_inv in H as (w1 & H1 & H);
  injection H as <- <-; apply step_ok_keeps;
  [assumption | assumption | revert H1; apply lemma].

Lemma caseQUIT_ok (s s' : Session) (w w' : World) :
  world_ok w -> session_ok w s ->
  caseQUIT s w = Ok (s', w') -> step_ok w w' s'.
Proof. intros Hw Hs H. unfold caseQUIT in H. via_keeps H Close_keeps. Qed.

Lemma caseMSG_ok (s s' : Session) (args : list string) (w w' : World) :
  world_ok w -> session_ok w s ->
  caseMSG s args w = Ok (s', w') -> step_ok w w' s'.
Proof.
  intros Hw Hs H. unfold caseMSG in H.
  destruct (negb (Authenticated s)); [same_session H|].
  destruct args as [|a0 [|a1 rest]]; [same_session H | same_session H|].
  bind_step H as u Hu.
  destruct (negb (a0 =? Username u)%string); [same_session H|].
  via_keeps H BroadcastMsg_keeps.
Qed.

Lemma casePM_ok (s s' : Session) (args : list string) (w w' : World) :
  world_ok w -> session_ok w s ->
  casePM s args w = Ok (s', w') -> step_ok w w' s'.
Proof.
  intros Hw Hs H. unfold casePM in H.
  destruct (negb (Authenticated s)); [same_session H|].
  destruct args as [|a0 [|a1 rest]]; [same_session H | same_session H|].
  bind_step H as found Hfound.
  destruct (negb found); [same_session H|].
  via_keeps H SendPM_keeps.
Qed.

Lemma caseLIST_ok (s s' : Session) (w w' : World) :
  world_ok w -> session_ok w s ->
  caseLIST s w = Ok (s', w') -> step_ok w w' s'.
Proof.
  intros Hw Hs H. unfold caseLIST in H.
  destruct (negb (Authenticated s)); [same_session H|].
  via_keeps H SendList_keeps.
Qed.

Lemma caseNAME_ok (s s' : Session) (args : list string) (w w' : World) :
  world_ok w -> session_ok w s ->
  caseNAME s args w = Ok (s', w') -> step_ok w w' s'.
Proof.
  intros Hw Hs H. unfold caseNAME in H.
  destruct args as [|a0 [|a1 rest]]; [same_session H | same_session H|].
  bind_step H as u Hu. apply deref_inv in Hu as (a & Hsa & Ha).
  destruct (negb (Username u =? a0)%string); [same_session H|].
  bind_step H as found Hfound. destruct found.
  { destruct (Authenticated s); same_session H. }
  bind_step H as w1 H1.
  apply modify_inv in H1 as (b & ub & Hb & Hub & ->).
  assert (b = a) as -> by congruence.
  assert (ub = u) as -> by congruence.
  destruct (world_ok_rename w a u a1 Hw Ha) as (Hw1 & Hg1).
  set (w1 := setHeap _ w) in *.
  assert (Hs1 : session_ok w1 s) by (eapply session_ok_grows; eauto).
  assert (Hend : forall w2, keeps w1 w2 -> step_ok w w2 s).
  { intros w2 K. split; [eapply world_ok_keeps; eauto|].
    split; [eapply session_ok_grows; eauto using keeps_grows|].
    eapply grows_trans; eauto using keeps_grows. }
  destruct (Authenticated s).
  - bind_step H as w2 H2. bind_step H as w3 H3. injection H as <- <-.
    apply Hend. apply (keeps_trans _ w2).
    + revert H2. apply BroadcastAction_keeps.
    + revert H3. apply SendList_keeps.
  - injection H as <- <-. apply Hend. apply keeps_emit.
Qed.

Lemma caseINFO_ok (s s' : Session) (args : list string) (w w' : World) :
  world_ok w -> session_ok w s ->
  caseINFO s args w = Ok (s', w') -> step_ok w w' s'.
Proof.
  intros Hw Hs H. unfold caseINFO in H. bind_step H as u Hu.
  destruct (negb (Online u)); [same_session H|].
  destruct args as [|a0 rest]; [same_session H|].
  bind_step H as found Hfound. destruct (negb found); [same_session H|].
  bind_step H as p Hp. bind_step H as user Huser. same_session H.
Qed.

Lemma caseRAW_ok (s s' : Session) (args : list string) (w w' : World) :
  world_ok w -> session_ok w s ->
  caseRAW s args w = Ok (s', w') -> step_ok w w' s'.
Proof.
  intros Hw Hs H. unfold caseRAW in H. bind_step H as u Hu.
  destruct (negb (Online u)); [same_session H|].
  destruct args as [|a0 [|a1 rest]]; [same_session H | same_session H|].
  bind_step H as found Hfound. destruct (negb found); [same_session H|].
  via_keeps H SendRAW_keeps.
Qed.

Lemma caseAWAY_ok (s s' : Session) (args : list string) (w w' : World) :
  world_ok w -> session_ok w s ->
  caseAWAY s args w = Ok (s', w') -> step_ok w w' s'.
Proof.
  intros Hw Hs H. unfold caseAWAY in H. bind_step H as u Hu.
  destruct (negb (Online u)); [same_session H|].
  bind_step H as wa Hwa. bind_step H as wb Hwb. injection H as <- <-.
  apply step_ok_keeps; [assumption | assumption|].
  apply (keeps_trans _ wa); [|revert Hwb; apply SendList_keeps].
  clear Hwb. destruct (Away u).
  - bind_step Hwa as w1 H1. bind_step Hwa as w3 H3. bind_step Hwa as w4 H4.
    apply (keeps_trans _ w1); [revert H1; apply keeps_modify; harmless|].
    apply (keeps_trans _ w3).
    { apply (keeps_trans _ (SendInfoMsg s "You are no longer marked as away." w1));
        [apply keeps_emit|].
      destruct (AwayAnnounce u).
      - revert H3. apply BroadcastAction_keeps.
      - injection H3 as <-. apply keeps_refl. }
    apply (keeps_trans _ w4); [revert H4; apply keeps_modify; harmless|].
    revert Hwa. apply keeps_modify. harmless.
  - bind_step Hwa as w1 H1.
    apply (keeps_trans _ w1); [revert H1; apply keeps_modify; harmless|].
    destruct args as [|a0 more].
    { injection Hwa as <-. apply keeps_emit. }
    bind_step Hwa as w2 H2.
    apply (keeps_trans _ w2); [revert H2; apply keeps_modify; harmless|].
    set (w3 := SendInfoMsg s _ w2) in *.
    apply (keeps_trans _ w3); [apply keeps_emit|].
    destruct more as [|a1 rest]; [injection Hwa as <-; apply keeps_refl|].
    destruct (a1 =? "1")%string; [|injection Hwa as <-; apply keeps_refl].
    bind_step Hwa as w4 H4.
    apply (keeps_trans _ w4); [revert H4; apply keeps_modify; harmless|].
    revert Hwa. apply BroadcastAction_keeps.
Qed.

Lemma dispatch_ok (s s' : Session) (cmd : string) (args : list string) (w w' : World) :
  world_ok w -> session_ok w s ->
  dispatch clock generate compare s cmd args w = Ok (s', w') -> step_ok w w' s'.
Proof.
  intros Hw Hs H. unfold dispatch in H.
  repeat match type of H with
         | (if ?b then _ else _) = _ => destruct b
         end.
  - unfold casePING in H. destruct args; same_session H.
  - same_session H.
  - eapply caseJOIN_ok; eauto.
  - eapply caseAUTH_ok; eauto.
  - eapply caseQUIT_ok; eauto.
  - eapply caseMSG_ok; eauto.
  - eapply casePM_ok; eauto.
  - eapply caseLIST_ok; eauto.
  - eapply caseNAME_ok; eauto.
  - eapply caseINFO_ok; eauto.
  - eapply caseRAW_ok; eauto.
  - eapply caseAWAY_ok; eauto.
  - same_session H.
Qed.

Lemma handlePacket_ok (s s' : Session) (r : string) (w w' : World) :
  world_ok w -> session_ok w s ->
  handlePacket clock generate compare s r w = Ok (s', w') -> step_ok w w' s'.
Proof.
  intros Hw Hs H. unfold handlePacket in H.
  destruct (r =? "")%string; [same_session H|].
  destruct (Split r SOH) as [|cmd args]; [same_session H|].
  eapply dispatch_ok; eauto.
Qed.

(** A statement of the registering branch keeps the invariant and
    establishes what the next phase relies on. *)
Lemma statement_ok (s s' : Session) (ph ph' : Phase) (w w' : World) :
  world_ok w -> session_ok w s -> phase_ok w s ph ->
  statement generate s ph w = Ok (s', ph', w') ->
  step_ok w w' s' /\ phase_ok w' s' ph'.
Proof.
  intros Hw Hs Hph H. destruct ph; cbn [statement phase_ok] in H, Hph.
  - injection H as <- <- <-. split; [now apply step_ok_refl | exact I].
  - destruct (generate (ticks w) password) as [h|] eqn:G; injection H as <- <- <-.
    + split; [apply step_ok_keeps; auto using keeps_tick|].
      cbn [phase_ok]. eapply generate_nonempty; eauto.
    + split; [|exact I]. apply step_ok_keeps; auto.
      apply (keeps_trans _ (tick w)); [apply keeps_tick | apply keeps_emit].
  - bind_step H as w1 H1. injection H as <- <- <-.
    apply modify_inv in H1 as (a & u & Hsa & Ha & ->).
    destruct (world_ok_update w a u (setPasswordHash hashedPassword u) Hw Ha)
      as (Hw1 & Hg1); [reflexivity | intros _; exact Hph | tauto |].
    split; [split; [exact Hw1|]; split; [eapply session_ok_grows; eauto | exact Hg1]|].
    exists a. split; [exact Hsa|]. exists (setPasswordHash hashedPassword u).
    split; [eapply lookup_modified; eauto | exact Hph].
  - injection H as <- <- <-. split; [now apply step_ok_refl|].
    split; [exact Hph|]. apply Forall_forall. intros p Hp. now apply (ok_users _ Hw).
  - destruct Hph as ((a & Hsa & Ha) & Hsnap). rewrite Hsa in H.
    injection H as <- <- <-.
    assert (Hg : grows w (setUsers (snapshot ++ [a]) w))
      by (intros b ub Hb; exists ub; tauto).
    split; [|exists a; split; [exact Hsa | exact Ha]].
    split; [now apply world_ok_append|].
    split; [eapply session_ok_grows; eauto | exact Hg].
  - destruct Hph as (a & Hsa & u & Ha & Hh).
    bind_step H as u3 Hu3. bind_step H as w4 H4. bind_step H as r Hr.
    destruct r as [s1 w1]. injection H as <- <- <-.
    set (w3 := SendAuthMsg s _ w) in *.
    assert (K04 : keeps w w4).
    { apply (keeps_trans _ w3); [apply keeps_emit|].
      revert H4. apply BroadcastAction_keeps. }
    pose proof K04 as (_ & _ & K04').
    destruct (K04' a u Ha) as (u4 & Hu4 & _ & Hh4 & _).
    assert (Hne4 : PasswordHash u4 <> "") by tauto.
    destruct (attach_ok s s1 w4 w1 a u4 Hsa Hu4 Hne4 Hr) as (K & Hs1).
    assert (K01 : keeps w w1) by (eapply keeps_trans; eauto).
    split; [|exact I].
    split; [eapply world_ok_keeps; eauto|]. split; [exact Hs1 | now apply keeps_grows].
Qed.

End Invariant.

Section Reachable.

Variable clock : nat -> Z.
Variable generate : nat -> string -> option string.
Variable compare : string -> string -> bool.

Hypothesis generate_nonempty :
  forall n password h, generate n password = Some h -> h <> "".

Lemma initServer_ok : server_ok initServer.
Proof.
  split.
  - split.
    + intros a Ha. inversion Ha.
    + intros a u Ha. discriminate Ha.
  - intros c h H. cbn in H. rewrite lookup_empty in H. discriminate H.
Qed.

(** The handler of [c] has moved and left the others alone. *)
Lemma server_ok_moved (σ : Server) (c : conn) (s' : Session) (ps : list string)
    (ph' : Phase) (w' : World) (n : nat) :
  server_ok σ -> step_ok (world σ) w' s' -> phase_ok w' s' ph' ->
  server_ok (mkServer w' (<[c := mkHandler s' ps ph']> (handlers σ)) n).
Proof.
  intros (Hw & Hh) (Hw' & Hs' & Hg) Hph'. split; [exact Hw'|].
  cbn [world handlers]. intros c' h Hc'.
  apply lookup_insert_Some in Hc' as [(<- & <-)|(_ & Hc')].
  - split; [exact Hs' | exact Hph'].
  - destruct (Hh c' h Hc') as (Hs & Hph).
    split; [eapply session_ok_grows; eauto | eapply phase_ok_grows; eauto].
Qed.

(** What a step does to the world, and to the handler that moved. *)
Lemma step_server_ok (σ σ' : Server) (e : Event) :
  server_ok σ -> step clock generate compare σ e = Some σ' ->
  server_ok σ' /\ grows (world σ) (world σ').
Proof.
  intros Hok H. pose proof Hok as (Hw & Hh).
  destruct e as [la ra|c buf|c|c|c]; cbn [step] in H.
  - injection H as <-. cbn [world].
    assert (K : keeps (world σ) (tick (tick (world σ)))) by (now apply keeps_store).
    split; [|now apply keeps_grows].
    apply server_ok_moved; [exact Hok | | exact I].
    split; [eapply world_ok_keeps; eauto|]. split; [|now apply keeps_grows].
    split; [intros a Ha; discriminate Ha | intros Ha; discriminate Ha].
  - destruct (handlers σ !! c) as [[s [|r rest] []]|] eqn:Hc; try discriminate H.
    destruct (Z.of_nat (String.length buf) <=? 65535); [|discriminate H].
    injection H as <-. cbn [world]. split; [|apply grows_refl].
    destruct (Hh c _ Hc) as (Hs & _).
    apply server_ok_moved; [exact Hok | now apply step_ok_refl | exact I].
  - destruct (handlers σ !! c) as [[s [|r rest] []]|] eqn:Hc; try discriminate H.
    destruct (handlePacket clock generate compare s r (world σ)) as [[s' w']|] eqn:E;
      [|discriminate H].
    injection H as <-. cbn [world].
    destruct (Hh c _ Hc) as (Hs & _).
    pose proof (handlePacket_ok clock generate compare generate_nonempty
                  s s' r (world σ) w' Hw Hs E) as Hstep.
    split; [|apply Hstep]. apply server_ok_moved; [exact Hok | exact Hstep | exact I].
  - destruct (handlers σ !! c) as [[s ps ph]|] eqn:Hc; [|discriminate H].
    destruct (Hh c _ Hc) as (Hs & Hph). cbn [session phase] in Hs, Hph.
    assert (Hmove : forall s' ph' w',
              statement generate s ph (world σ) = Ok (s', ph', w') ->
              server_ok (mkServer w' (<[c := mkHandler s' ps ph']> (handlers σ))
                           (accepted σ))
              /\ grows (world σ) w').
    { intros s' ph' w' E.
      destruct (statement_ok clock generate compare generate_nonempty s s' ph ph' (world σ) w'
                  Hw Hs Hph E) as (Hstep & Hph').
      split; [now apply server_ok_moved | apply Hstep]. }
    destruct ph.
    + destruct ps as [|r rest]; [discriminate H|].
      destruct (registrationOf s r (world σ)) as [password|]; [|discriminate H].
      injection H as <-. cbn [world]. split; [|apply grows_refl].
      apply server_ok_moved; [exact Hok | now apply step_ok_refl | exact I].
    + destruct (statement generate s (Checked password) (world σ))
        as [[[s' ph'] w']|] eqn:E; destruct ps; try discriminate H;
        injection H as <-; now apply Hmove.
    + destruct (statement generate s (Hashed hashedPassword) (world σ))
        as [[[s' ph'] w']|] eqn:E; destruct ps; try discriminate H;
        injection H as <-; now apply Hmove.
    + destruct (statement generate s Stored (world σ))
        as [[[s' ph'] w']|] eqn:E; destruct ps; try discriminate H;
        injection H as <-; now apply Hmove.
    + destruct (statement generate s (Loaded snapshot) (world σ))
        as [[[s' ph'] w']|] eqn:E; destruct ps; try discriminate H;
        injection H as <-; now apply Hmove.
    + destruct (statement generate s Appended (world σ))
        as [[[s' ph'] w']|] eqn:E; destruct ps; try discriminate H;
        injection H as <-; now apply Hmove.
  - destruct (handlers σ !! c) as [[s [|r rest] []]|] eqn:Hc; try discriminate H.
    destruct (Close s (world σ)) as [w'|] eqn:E; [|discriminate H].
    injection H as <-. cbn [world handlers].
    apply Close_keeps in E. split; [|now apply keeps_grows].
    split; [eapply world_ok_keeps; eauto|].
    cbn [world handlers]. intros c' h Hc'. apply lookup_delete_Some in Hc' as (_ & Hc').
    destruct (Hh c' h Hc') as (Hs & Hph).
    split; [eapply session_ok_grows | eapply phase_ok_grows]; eauto using keeps_grows.
Qed.

Lemma run_server_ok (events : list Event) :
  forall σ σ', server_ok σ -> run clock generate compare σ events = Some σ' ->
               server_ok σ' /\ grows (world σ) (world σ').
Proof.
  induction events as [|e events IH]; intros σ σ' Hok H; cbn [run] in H.
  - injection H as <-. split; [exact Hok | apply grows_refl].
  - destruct (step clock generate compare σ e) as [σ1|] eqn:E; [|discriminate H].
    destruct (step_server_ok σ σ1 e Hok E) as (Hok1 & Hg1).
    destruct (IH σ1 σ' Hok1 H) as (Hok' & Hg').
    split; [exact Hok' | eapply grows_trans; eauto].
Qed.

Lemma reachable_ok (σ : Server) :
  reachable clock generate compare σ -> server_ok σ.
Proof.
  intros (events & H). eapply run_server_ok; [apply initServer_ok | exact H].
Qed.

End Reachable.

(** The statements of the registering branch, run with nothing in between,
    are the AUTH case on that path. *)
Lemma registration_in_one_piece
    (clock : nat -> Z) (generate : nat -> string -> option string)
    (compare : string -> string -> bool)
    (s : Session) (r : string) (w : World) (password : string) :
  registrationOf s r w = Some password ->
  handlePacket clock generate compare s r w
  = statements generate 5 s (Checked password) w.
Proof.
  unfold registrationOf, handlePacket. destruct (r =? "")%string; [discriminate|].
  destruct (Split r SOH) as [|cmd [|p args]]; try discriminate.
  destruct (cmd =? "AUTH")%string eqn:Ecmd; [|discriminate].
  apply String.eqb_eq in Ecmd as ->.
  destruct (Authenticated s) eqn:Hauth; [discriminate|]. cbn [negb andb].
  destruct (deref (sessUser s) w) as [u|] eqn:Hu; [|discriminate].
  destruct (PasswordHash u =? "")%string eqn:Hh; [|discriminate].
  destruct (userExists (Username u) w) as [[|]|] eqn:Hex; try discriminate.
  intros [= ->].
  change (dispatch clock generate compare s "AUTH" (password :: args) w)
    with (caseAUTH generate compare s (password :: args) w).
  unfold caseAUTH. rewrite Hauth, Hu, bind_Ok, Hh. cbn [negb]. rewrite Hex, bind_Ok.
  cbn [statements statement].
  destruct (generate (ticks w) password) as [h|]; [|reflexivity].
  rewrite bind_Ok. cbn [statements statement].
  destruct (modify (sessUser s) (setPasswordHash h) (tick w)) as [w1|]; [|reflexivity].
  rewrite !bind_Ok. cbn [statements statement]. rewrite bind_Ok.
  cbn [statements statement].
  destruct (sessUser s) as [a|] eqn:Hsa; [|reflexivity].
  rewrite bind_Ok. cbn [statements statement]. rewrite Hsa.
  set (w3 := SendAuthMsg s _ (setUsers _ w1)).
  destruct (deref (Some a) w3) as [u3|]; [|reflexivity]. rewrite !bind_Ok.
  destruct (BroadcastAction s _ _) as [w4|]; [|reflexivity]. rewrite !bind_Ok.
  destruct (attach s w4) as [[s' w']|]; reflexivity.
Qed.

(** C4 fails in the code.  The AUTH case tests the name with [userExists] and
    registers it some statements later, and the handlers share [users] without
    a lock: when two connections that joined under the same free name both
    test it before either registers, both register, and the registry holds
    two users with a digest and the same name.  Handled one after the other,
    the same two records register one user and the second is refused; in
    any state, an AUTH for a candidate whose name is registered only answers
    with one message. *)
Theorem C4_concurrent_registrations_share_a_name :
  (exists σ ua ub,
     demoRun racingRegistrations = Some σ
     /\ reachable demoClock demoGenerate demoCompare σ
     /\ users (world σ) = [0; 1]%nat
     /\ heap (world σ) !! 0%nat = Some ua /\ heap (world σ) !! 1%nat = Some ub
     /\ Username ua = "alice" /\ Username ub = "alice"
     /\ PasswordHash ua = "$2a$secret" /\ PasswordHash ub = "$2a$hunter2"
     /\ ~ unique_registered (world σ))
  /\ (exists σ ub,
       demoRun orderlyRegistrations = Some σ
       /\ users (world σ) = [0%nat]
       /\ heap (world σ) !! 1%nat = Some ub /\ PasswordHash ub = ""
       /\ last (writesTo 1%nat (wire (world σ)))
          = Some (authRecord "The username alice is already taken. Please change your username and try again. Ex: [u]/nick MyNewUsername[/u]"))
  /\ (forall (clock : nat -> Z) (generate : nat -> string -> option string)
             (compare : string -> string -> bool)
             (w : World) (s : Session) (a : ptr) (u : User)
             (password : string) (rest : list string),
        Authenticated s = false -> sessUser s = Some a ->
        heap w !! a = Some u -> PasswordHash u = "" ->
        userExists (Username u) w = Ok true ->
        exists reply,
          dispatch clock generate compare s "AUTH" (password :: rest) w
          = Ok (s, emitAll [reply] w)).
Proof.
  split; [|split].
  - assert (Hrun : is_Some (demoRun racingRegistrations)) by (vm_compute; eauto).
    destruct Hrun as (σ & Hrun). exists σ.
    assert (H0 : is_Some (heap (world σ) !! 0%nat)).
    { revert Hrun. vm_compute. intros [= <-]. eauto. }
    assert (H1 : is_Some (heap (world σ) !! 1%nat)).
    { revert Hrun. vm_compute. intros [= <-]. eauto. }
    destruct H0 as (ua & H0), H1 as (ub & H1). exists ua, ub.
    assert (Hfacts : users (world σ) = [0; 1]%nat
                     /\ Username ua = "alice" /\ Username ub = "alice"
                     /\ PasswordHash ua = "$2a$secret" /\ PasswordHash ub = "$2a$hunter2").
    { revert Hrun H0 H1. vm_compute. intros [= <-] [= <-] [= <-].
      repeat split; reflexivity. }
    destruct Hfacts as (Hus & Hna & Hnb & Hha & Hhb).
    split; [exact Hrun|]. split; [exists racingRegistrations; exact Hrun|].
    split; [exact Hus|]. split; [exact H0|]. split; [exact H1|].
    split; [exact Hna|]. split; [exact Hnb|]. split; [exact Hha|]. split; [exact Hhb|].
    intros Huniq.
    assert (E : 0%nat = 1%nat); [|discriminate E].
    apply (Huniq 0%nat 1%nat ua ub H0 H1).
    + rewrite Hha. discriminate.
    + rewrite Hhb. discriminate.
    + congruence.
  - assert (Hrun : is_Some (demoRun orderlyRegistrations)) by (vm_compute; eauto).
    destruct Hrun as (σ & Hrun). exists σ.
    assert (H1 : is_Some (heap (world σ) !! 1%nat)).
    { revert Hrun. vm_compute. intros [= <-]. eauto. }
    destruct H1 as (ub & H1). exists ub.
    split; [exact Hrun|]. revert Hrun H1. vm_compute. intros [= <-] [= <-].
    repeat split; reflexivity.
  - intros clock generate compare w s a u password rest Hauth Hs Ha Hempty Hex.
    eexists.
    change (dispatch clock generate compare s "AUTH" (password :: rest) w)
      with (caseAUTH generate compare s (password :: rest) w).
    unfold caseAUTH. rewrite Hauth, Hs, (deref_Some _ _ _ Ha), bind_Ok.
    rewrite Hempty. cbn [String.eqb negb]. rewrite Hex, bind_Ok. reflexivity.
Qed.

(** ** The theorems at work on concrete states *)

Lemma demoWorld_registry : registry demoWorld demoUsers.
Proof. repeat constructor. Defined.

Lemma demoWorld_first_alice : first_named demoWorld "alice" 0%nat.
Proof.
  exists [], [1; 2; 3]%nat. split; [reflexivity|]. split.
  - eexists. split; reflexivity.
  - constructor.
Defined.

Lemma demoWorld_first_bob : first_named demoWorld "bob" 3%nat.
Proof.
  exists [0; 1; 2]%nat, []. split; [reflexivity|]. split.
  - eexists. split; reflexivity.
  - repeat constructor; eexists; (split; [reflexivity | discriminate]).
Defined.

Lemma demoGenerate_nonempty (n : nat) (password h : string) :
  demoGenerate n password = Some h -> h <> "".
Proof. intros [= <-]. discriminate. Defined.

(** The roster of the four users: alice and bob, not the ghost, not carol. *)
Lemma C7_list_roster_witness :
  registry demoWorld demoUsers
  /\ SendList sessionA demoWorld
     = Ok (emit (SWrite 0%nat
                   ("LIST" ++ SOH ++ "[OAB] alice - likes tea" ++ SOH ++ "[OM] bob - " ++ CRLF))
             demoWorld).
Proof.
  split; [exact demoWorld_registry|].
  exact (C7_list_roster sessionA demoWorld demoUsers demoWorld_registry).
Defined.

(** Killing bob's session with a reason. *)
Lemma C8_kill_writes_witness :
  exists w',
    Kill sessionBob "flood" demoWorld = Ok w'
    /\ (wire w' = [SWrite 2%nat ("KILL" ++ SOH ++ "flood" ++ CRLF);
                   SWrite 2%nat ("KILL" ++ SOH ++ "flood" ++ CRLF)]
        \/ wire w' = [SWrite 2%nat ("KILL" ++ SOH ++ "flood" ++ CRLF);
                      SWrite 2%nat ("KILL" ++ SOH ++ "flood" ++ CRLF);
                      SClose 2%nat]).
Proof.
  destruct (C8_kill_writes sessionBob "flood" demoWorld) as [_ H].
  eexists. split; [vm_compute; reflexivity|].
  apply H. vm_compute. reflexivity.
Defined.



(** A message from alice's first session reaches her second one and bob. *)
Lemma C2_broadcast_skips_origin_only_witness :
  sessUser sessionA = Some 0%nat
  /\ registry demoWorld demoUsers
  /\ BroadcastMsg sessionA "hi" demoWorld
     = Ok (emitAll [SWrite 1%nat ("MSG" ++ SOH ++ "alice" ++ SOH ++ "hi" ++ CRLF);
                    SWrite 2%nat ("MSG" ++ SOH ++ "alice" ++ SOH ++ "hi" ++ CRLF)]
             demoWorld).
Proof.
  split; [reflexivity|]. split; [exact demoWorld_registry|].
  exact (proj1 (C2_broadcast_skips_origin_only sessionA "hi" demoWorld 0%nat _ demoUsers
                  eq_refl eq_refl demoWorld_registry)).
Defined.

(** A new connection joins as alice and renames her, with a bcrypt that
    accepts no password. *)
Lemma C10_rename_without_password_witness :
  sessUser freshSession = None /\ Authenticated freshSession = false
  /\ registry demoWorld demoUsers
  /\ getUser "alice" demoWorld = Ok (Some 0%nat)
  /\ userExists "mallory" demoWorld = Ok false
  /\ exists (s1 : Session) (w1 w2 : World) (u : User),
       dispatch demoClock demoGenerate (fun _ _ => false) freshSession "JOIN" ["alice"] demoWorld
       = Ok (s1, w1)
       /\ sessUser s1 = Some 0%nat /\ Authenticated s1 = false
       /\ heap w1 !! 0%nat = Some u /\ Username u = "alice" /\ PasswordHash u <> ""
       /\ dispatch demoClock demoGenerate (fun _ _ => false) s1 "NAME" ["alice"; "mallory"] w1
          = Ok (s1, w2)
       /\ heap w2 !! 0%nat = Some (setUsername "mallory" u)
       /\ users w2 = users demoWorld.
Proof.
  split; [reflexivity|]. split; [reflexivity|]. split; [exact demoWorld_registry|].
  split; [reflexivity|]. split; [reflexivity|].
  exact (C10_rename_without_password demoClock demoGenerate (fun _ _ => false)
           freshSession demoWorld demoUsers 0%nat "alice" "mallory" [] []
           eq_refl eq_refl demoWorld_registry eq_refl eq_refl).
Defined.

(** ** Records: writing and reading back *)

Lemma hasByte_app (c : ascii) (a b : string) :
  hasByte c (a ++ b) = hasByte c a || hasByte c b.
Proof.
  induction a as [|d a IH]; cbn [append hasByte]; [reflexivity|].
  destruct (ascii_dec c d); [reflexivity | exact IH].
Qed.

Lemma prefix_SOH (c : ascii) (r : string) :
  String.prefix SOH (String c r) = if ascii_dec SOHbyte c then true else false.
Proof.
  unfold SOH. cbn [String.prefix]. fold SOHbyte.
  destruct (ascii_dec SOHbyte c); [|reflexivity]. destruct r; reflexivity.
Qed.

Lemma splitGo_SOH_step (c : ascii) (acc r : string) :
  splitGo SOH 0 acc (String c r)
  = if ascii_dec SOHbyte c then acc :: splitGo SOH 0 "" r
    else splitGo SOH 0 (acc ++ String c "") r.
Proof.
  change (splitGo SOH 0 acc (String c r))
    with (if String.prefix SOH (String c r)
          then acc :: splitGo SOH 0 "" r
          else splitGo SOH 0 (acc ++ String c "") r).
  rewrite prefix_SOH. destruct (ascii_dec SOHbyte c); reflexivity.
Qed.

(** A field without separator is read to its end. *)
Lemma splitGo_SOH_last (f : string) :
  hasByte SOHbyte f = false ->
  forall acc, splitGo SOH 0 acc f = [acc ++ f].
Proof.
  induction f as [|c f IH]; intros H acc.
  - cbn. now rewrite append_nil_r.
  - cbn [hasByte] in H. rewrite splitGo_SOH_step.
    destruct (ascii_dec SOHbyte c); [discriminate H|].
    rewrite (IH H), append_assoc. reflexivity.
Qed.

(** A field without separator is read up to the separator that follows it. *)
Lemma splitGo_SOH_field (f rest : string) :
  hasByte SOHbyte f = false ->
  forall acc, splitGo SOH 0 acc (f ++ SOH ++ rest) = (acc ++ f) :: splitGo SOH 0 "" rest.
Proof.
  induction f as [|c f IH]; intros H acc.
  - change ("" ++ SOH ++ rest) with (String SOHbyte rest).
    rewrite splitGo_SOH_step, append_nil_r.
    destruct (ascii_dec SOHbyte SOHbyte); [reflexivity | congruence].
  - cbn [hasByte] in H. change (String c f ++ SOH ++ rest) with (String c (f ++ SOH ++ rest)).
    rewrite splitGo_SOH_step.
    destruct (ascii_dec SOHbyte c); [discriminate H|].
    rewrite (IH H), append_assoc. reflexivity.
Qed.

Lemma Split_Join_SOH (fields : list string) :
  fields <> [] ->
  Forall (fun f => hasByte SOHbyte f = false) fields ->
  Split (Join fields SOH) SOH = fields.
Proof.
  intros Hne Hall. unfold Split.
  induction Hall as [|f rest Hf Hrest IH]; [congruence|].
  destruct rest as [|g rest].
  - cbn [Join]. now rewrite (splitGo_SOH_last f Hf "").
  - change (Join (f :: g :: rest) SOH) with (f ++ SOH ++ Join (g :: rest) SOH).
    rewrite (splitGo_SOH_field f _ Hf ""). f_equal. apply IH. discriminate.
Qed.

(** X1: fields that hold no separator byte come back from [Split] as they
    went into [Join]. *)
Theorem X1_split_join_fields (fields : list string) :
  fields <> [] ->
  Forall (fun f => hasByte SOHbyte f = false) fields ->
  Split (Join fields SOH) SOH = fields.
Proof. apply Split_Join_SOH. Qed.

Lemma X1_split_join_fields_witness :
  ["PM"; "alice"; "see you at 5"] <> []
  /\ Forall (fun f => hasByte SOHbyte f = false) ["PM"; "alice"; "see you at 5"]
  /\ Split (Join ["PM"; "alice"; "see you at 5"] SOH) SOH = ["PM"; "alice"; "see you at 5"].
Proof.
  assert (H1 : ["PM"; "alice"; "see you at 5"] <> []) by discriminate.
  assert (H2 : Forall (fun f => hasByte SOHbyte f = false) ["PM"; "alice"; "see you at 5"])
    by (repeat constructor).
  split; [exact H1|]. split; [exact H2|].
  exact (X1_split_join_fields _ H1 H2).
Defined.

Lemma splitGo_CRLF_plain (x : string) :
  hasByte CR x = false ->
  forall acc, splitGo CRLF 0 acc (x ++ CRLF) = [acc ++ x; ""].
Proof.
  induction x as [|c x IH]; intros H acc.
  - change ("" ++ CRLF) with (String CR (String LF "")).
    rewrite splitGo_CRLF_hit, append_nil_r. reflexivity.
  - cbn [hasByte] in H. destruct (ascii_dec CR c) as [|Hc]; [discriminate H|].
    change (String c x ++ CRLF) with (String c (x ++ CRLF)).
    rewrite splitGo_CRLF_other by congruence.
    rewrite (IH H), append_assoc. reflexivity.
Qed.

Lemma hasByte_Join (c : ascii) (fields : list string) :
  c <> SOHbyte ->
  Forall (fun f => hasByte c f = false) fields ->
  hasByte c (Join fields SOH) = false.
Proof.
  intros Hc. induction 1 as [|f rest Hf _ IH]; [reflexivity|].
  destruct rest as [|g rest]; [exact Hf|].
  change (Join (f :: g :: rest) SOH) with (f ++ SOH ++ Join (g :: rest) SOH).
  rewrite !hasByte_app, Hf, IH. cbn [hasByte SOH]. fold SOHbyte.
  destruct (ascii_dec c SOHbyte); [contradiction | reflexivity].
Qed.

Lemma Join_nonempty (cmd : string) (args : list string) :
  cmd <> "" -> Join (cmd :: args) SOH <> "".
Proof.
  intros Hcmd. destruct cmd as [|c cmd]; [congruence|].
  destruct args; cbn [Join append]; discriminate.
Qed.

Lemma decodeRead_record (fields : list string) :
  plainCommand fields -> decodeRead (record fields) = [fields].
Proof.
  destruct fields as [|cmd args]; [contradiction|]. intros (Hcmd & Hplain).
  rewrite decodeRead_records. unfold record, Split at 2.
  rewrite splitGo_CRLF_plain.
  - cbn [append List.filter]. unfold nonEmpty at 1.
    pose proof (Join_nonempty cmd args Hcmd) as Hne.
    apply String.eqb_neq in Hne. rewrite Hne. cbn [negb nonEmpty String.eqb map].
    f_equal. apply Split_Join_SOH.
    + discriminate.
    + eapply Forall_impl; [exact Hplain|]. now intros f (H & _).
  - apply hasByte_Join; [discriminate|].
    eapply Forall_impl; [exact Hplain|]. now intros f (_ & H).
Qed.

Lemma decodeRead_records_stream (cmds : list (list string)) :
  Forall plainCommand cmds -> decodeRead (stream (map record cmds)) = cmds.
Proof.
  induction 1 as [|fields cmds Hf _ IH]; [reflexivity|].
  cbn [map stream]. unfold record at 1.
  rewrite decodeRead_after_CRLF.
  change (Join fields SOH ++ CRLF) with (record fields).
  now rewrite (decodeRead_record fields Hf), IH.
Qed.

Lemma splitGo_CRLF_whole (x : string) :
  hasByte CR x = false -> forall acc, splitGo CRLF 0 acc x = [acc ++ x].
Proof.
  induction x as [|c x IH]; intros H acc.
  - now rewrite append_nil_r.
  - cbn [hasByte] in H. destruct (ascii_dec CR c) as [|Hc]; [discriminate H|].
    rewrite splitGo_CRLF_other by congruence.
    rewrite (IH H), append_assoc. reflexivity.
Qed.

(** A read that holds no CR is one record; so is one that ends with its
    only CRLF. *)
Lemma decodeRead_fragment (x : string) :
  x <> "" -> hasByte CR x = false ->
  decodeRead x = [Split x SOH] /\ decodeRead (x ++ CRLF) = [Split x SOH].
Proof.
  intros Hne Hcr. apply String.eqb_neq in Hne.
  rewrite !decodeRead_records.
  change (Split x CRLF) with (splitGo CRLF 0 "" x).
  change (Split (x ++ CRLF) CRLF) with (splitGo CRLF 0 "" (x ++ CRLF)).
  rewrite (splitGo_CRLF_whole x Hcr), (splitGo_CRLF_plain x Hcr).
  cbn [append List.filter]. unfold nonEmpty at 1 2 3. rewrite Hne.
  cbn [negb String.eqb map]. split; reflexivity.
Qed.

(** C5, as the code has it: the handler decodes every read on its own and
    keeps nothing from one read to the next: the commands it runs are those
    of the first read, then those of the second, and so on.  They are those
    of the whole stream when every read but the last ends with CRLF.  A
    record whose bytes before the CRLF are cut in two by a read boundary is
    run as two commands, one for each part, not as the command of the
    stream. *)
Theorem C5_reads_decoded_separately
    (clock : nat -> Z) (generate : nat -> string -> option string)
    (compare : string -> string -> bool)
    (s : Session) (reads : list string) (w : World) :
  handleReads clock generate compare s reads w
    = ('(s', w') ← dispatchAll clock generate compare s (decodeReads reads) w;
       Close s' w')
  /\ decodeReads reads = concat (map decodeRead reads)
  /\ (forall (init : list string) (last : string),
        reads = (init ++ [last])%list ->
        Forall endsWithCRLF init ->
        decodeReads reads = decodeRead (stream reads))
  /\ (forall (p q : string),
        reads = [p; q ++ CRLF] ->
        p <> "" -> q <> "" -> hasByte CR p = false -> hasByte CR q = false ->
        decodeReads reads = [Split p SOH; Split q SOH]
        /\ decodeRead (stream reads) = [Split (p ++ q) SOH]).
Proof.
  split; [apply handleReads_decodeReads|]. split; [reflexivity|]. split.
  - intros init last -> Hinit. now apply decodeReads_stream.
  - intros p q -> Hp Hq Hcp Hcq. split.
    + unfold decodeReads. cbn [map concat].
      rewrite (proj1 (decodeRead_fragment p Hp Hcp)),
              (proj2 (decodeRead_fragment q Hq Hcq)). reflexivity.
    + cbn [stream]. rewrite append_nil_r, <- append_assoc.
      apply decodeRead_fragment.
      * destruct p; [congruence | discriminate].
      * rewrite hasByte_app, Hcp, Hcq. reflexivity.
Qed.

(** C5 fails as stated: a PING record cut between two reads is run as the two
    unknown commands [PI] and [NG], not as the PING of the whole stream. *)
Lemma C5_straddling_record_not_reassembled :
  let reads := ["PI"; "NG" ++ SOH ++ "x" ++ CRLF] in
  decodeReads reads = [["PI"]; ["NG"; "x"]]
  /\ decodeRead (stream reads) = [["PING"; "x"]]
  /\ handleReads demoClock demoGenerate demoCompare freshSession reads initWorld
     <> handleReads demoClock demoGenerate demoCompare freshSession [stream reads] initWorld.
Proof.
  split; [reflexivity|]. split; [reflexivity|].
  vm_compute. discriminate.
Qed.

(** A read that ends with CRLF, followed by a read that does not; and a JOIN
    record cut after its third byte. *)
Lemma C5_reads_decoded_separately_witness :
  ([record ["PING"; "a"]; "LIST"] = ([record ["PING"; "a"]] ++ ["LIST"])%list
   /\ Forall endsWithCRLF [record ["PING"; "a"]]
   /\ decodeReads [record ["PING"; "a"]; "LIST"]
      = decodeRead (stream [record ["PING"; "a"]; "LIST"]))
  /\ (decodeReads ["JOI"; ("N" ++ SOH ++ "alice") ++ CRLF] = [["JOI"]; ["N"; "alice"]]
      /\ decodeRead (stream ["JOI"; ("N" ++ SOH ++ "alice") ++ CRLF]) = [["JOIN"; "alice"]]).
Proof.
  assert (H : Forall endsWithCRLF [record ["PING"; "a"]]).
  { constructor; [|constructor]. exists (Join ["PING"; "a"] SOH). reflexivity. }
  split.
  - split; [reflexivity|]. split; [exact H|].
    exact (proj1 (proj2 (proj2
             (C5_reads_decoded_separately demoClock demoGenerate demoCompare
                freshSession [record ["PING"; "a"]; "LIST"] initWorld)))
             [record ["PING"; "a"]] "LIST" eq_refl H).
  - refine (proj2 (proj2 (proj2
             (C5_reads_decoded_separately demoClock demoGenerate demoCompare
                freshSession ["JOI"; ("N" ++ SOH ++ "alice") ++ CRLF] initWorld)))
             "JOI" ("N" ++ SOH ++ "alice") eq_refl _ _ eq_refl eq_refl); discriminate.
Defined.

(** X2: a read that carries well-formed records, one after the other, is
    decoded into exactly these commands, in order: the handler runs the
    switch on each of them. *)
Theorem X2_records_read_back
    (clock : nat -> Z) (generate : nat -> string -> option string)
    (compare : string -> string -> bool)
    (s : Session) (w : World) (cmds : list (list string)) :
  Forall plainCommand cmds ->
  decodeRead (stream (map record cmds)) = cmds
  /\ handleRead clock generate compare s (stream (map record cmds)) w
     = dispatchAll clock generate compare s cmds w.
Proof.
  intros H. split; [now apply decodeRead_records_stream|].
  now rewrite handleRead_decodeRead, decodeRead_records_stream.
Qed.

Lemma X2_records_read_back_witness :
  Forall plainCommand [["JOIN"; "alice"; "likes tea"]; ["AUTH"; "secret"]; ["LIST"]]
  /\ decodeRead (stream (map record
        [["JOIN"; "alice"; "likes tea"]; ["AUTH"; "secret"]; ["LIST"]]))
     = [["JOIN"; "alice"; "likes tea"]; ["AUTH"; "secret"]; ["LIST"]].
Proof.
  assert (H : Forall plainCommand
                [["JOIN"; "alice"; "likes tea"]; ["AUTH"; "secret"]; ["LIST"]]).
  { repeat constructor; discriminate. }
  split; [exact H|].
  exact (proj1 (X2_records_read_back demoClock demoGenerate demoCompare
                  freshSession initWorld _ H)).
Defined.

(** X3: a PING record with a plain token is answered, in any state of the
    session, by the PONG record with the same token on the same socket, and
    nothing else changes; a PING without token is dropped. *)
Theorem X3_ping_is_echoed
    (clock : nat -> Z) (generate : nat -> string -> option string)
    (compare : string -> string -> bool)
    (s : Session) (w : World) (token : string) :
  plainField token ->
  handleRead clock generate compare s (record ["PING"; token]) w
    = Ok (s, emit (SWrite (Socket s) (record ["PONG"; token])) w)
  /\ handleRead clock generate compare s (record ["PING"]) w = Ok (s, w).
Proof.
  intros Htoken. split.
  - assert (H : Forall plainCommand [["PING"; token]]).
    { constructor; [|constructor]. split; [discriminate|].
      constructor; [split; reflexivity|]. constructor; [exact Htoken | constructor]. }
    rewrite <- (append_nil_r (record ["PING"; token])).
    change (record ["PING"; token] ++ "") with (stream (map record [["PING"; token]])).
    rewrite handleRead_decodeRead, (decodeRead_records_stream _ H). reflexivity.
  - reflexivity.
Qed.

Lemma X3_ping_is_echoed_witness :
  plainField "1700000000"
  /\ handleRead demoClock demoGenerate demoCompare freshSession
       (record ["PING"; "1700000000"]) initWorld
     = Ok (freshSession,
           emit (SWrite 0%nat (record ["PONG"; "1700000000"])) initWorld).
Proof.
  assert (H : plainField "1700000000") by (split; reflexivity).
  split; [exact H|].
  exact (proj1 (X3_ping_is_echoed demoClock demoGenerate demoCompare
                  freshSession initWorld "1700000000" H)).
Defined.

(** ** Private messages and raw packets *)

Lemma registryValid_registry (w : World) :
  registryValid w -> registry w (registryUsers w).
Proof.
  unfold registryValid, registry, registryUsers.
  induction 1 as [|p ps (u & Hp) _ IH]; cbn [derefAll]; [constructor|].
  rewrite Hp. constructor; assumption.
Qed.

Lemma registry_registryUsers (w : World) (us : list User) :
  registry w us -> us = registryUsers w.
Proof.
  unfold registry, registryUsers.
  induction 1 as [|p u ps us Hp _ IH]; cbn [derefAll]; [reflexivity|].
  rewrite Hp. now rewrite IH.
Qed.

Lemma SendPM_sessions (s : Session) (msg : string) (w : World)
    (b : ptr) (su : User) (sessions : list Session) :
  sessUser s = Some b -> heap w !! b = Some su ->
  forall ops,
    forEach (fun session w1 =>
        su ← deref (sessUser s) w1;
        Ok (Write session ["PM"; Username su; msg] w1))
      sessions (emitAll ops w)
    = Ok (emitAll (ops ++ map (fun session => SWrite (Socket session) (pmRecord su msg))
                           sessions) w).
Proof.
  intros Hs Hb. induction sessions as [|x l IH]; intros ops; cbn [forEach map].
  - now rewrite app_nil_r.
  - assert (Hd : deref (sessUser s) (emitAll ops w) = Ok su)
      by (rewrite Hs; apply deref_Some; exact Hb).
    rewrite Hd, !bind_Ok. unfold Write. rewrite emit_emitAll, IH.
    rewrite <- List.app_assoc, Join_three. reflexivity.
Qed.

(** X4: a private message goes to the first user of the registry with the
    target name: appended to the queue, with nothing written, when that user
    has no session; written once to each session of the user, the queue
    untouched, when there is one. *)
Theorem X4_private_message_routing
    (s : Session) (target msg : string) (w : World)
    (a b : ptr) (u su : User) :
  first_named w target a -> heap w !! a = Some u ->
  sessUser s = Some b -> heap w !! b = Some su ->
  SendPM s target msg w
  = Ok (match Sessions u with
        | [] => setHeap (<[a := setPendingPMs (PendingPMs u ++ [mkPM (Some b) msg]) u]>
                           (heap w)) w
        | _ => emitAll (map (fun session => SWrite (Socket session) (pmRecord su msg))
                          (Sessions u)) w
        end).
Proof.
  intros Hfirst Ha Hs Hb.
  destruct (Sessions u) as [|x l] eqn:E.
  - rewrite (SendPM_enqueues s target msg w a u Hfirst Ha E), Hs. reflexivity.
  - destruct Hfirst as (pre & post & Hus & (v & Hv & Hname) & Hpre).
    assert (v = u) as -> by congruence.
    unfold SendPM. rewrite Hus, (SendPMLoop_skip s target msg w pre _ Hpre).
    cbn [SendPMLoop]. rewrite (deref_Some _ _ _ Ha), bind_Ok.
    rewrite Hname, String.eqb_refl, E. cbn [length Nat.leb].
    rewrite <- (emitAll_nil w) at 1.
    apply (SendPM_sessions s msg w b su (x :: l) Hs Hb []).
Qed.

Lemma X4_private_message_routing_witness :
  first_named demoWorld "bob" 3%nat
  /\ SendPM sessionA "bob" "tea?" demoWorld
     = Ok (emitAll [SWrite 2%nat (record ["PM"; "alice"; "tea?"])] demoWorld)
  /\ first_named demoWorld "carol" 2%nat
  /\ (w' ← SendPM sessionA "carol" "tea?" demoWorld;
      Ok (wire w', (fun u => PendingPMs u) <$> heap w' !! 2%nat))
     = Ok ([], Some [mkPM (Some 0%nat) "tea?"]).
Proof.
  assert (Hcarol : first_named demoWorld "carol" 2%nat).
  { exists [0; 1]%nat, [3%nat]. split; [reflexivity|]. split.
    - eexists. split; reflexivity.
    - repeat constructor; eexists; (split; [reflexivity | discriminate]). }
  split; [exact demoWorld_first_bob|]. split.
  - exact (X4_private_message_routing sessionA "bob" "tea?" demoWorld 3%nat 0%nat _ _
             demoWorld_first_bob eq_refl eq_refl eq_refl).
  - split; [exact Hcarol|].
    rewrite (X4_private_message_routing sessionA "carol" "tea?" demoWorld 2%nat 0%nat _ _
               Hcarol eq_refl eq_refl eq_refl).
    reflexivity.
Defined.

Lemma SendRAWLoop_skip (s : Session) (target raw : string) (w : World)
    (pre rest : list ptr) :
  Forall (fun p => exists v, heap w !! p = Some v /\ Username v <> target) pre ->
  SendRAWLoop s target raw (pre ++ rest) w = SendRAWLoop s target raw rest w.
Proof.
  induction 1 as [|p pre (v & Hp & Hne) _ IH]; [reflexivity|].
  cbn [app SendRAWLoop]. rewrite (deref_Some _ _ _ Hp), bind_Ok.
  assert (E : (target =? Username v)%string = false)
    by (apply String.eqb_neq; congruence).
  now rewrite E.
Qed.

Lemma SendRAW_sessions (s : Session) (target raw : string) (w : World)
    (sessions : list Session) :
  forall ops,
    forEach (fun session w1 =>
        if (RemoteAddr s =? RemoteAddr session)%string then Ok w1
        else Ok (Write session ["RAW"; target; raw] w1))
      sessions (emitAll ops w)
    = Ok (emitAll (ops ++ map (fun session => SWrite (Socket session) (rawRecord target raw))
                           (List.filter (fun session =>
                              negb (RemoteAddr s =? RemoteAddr session)%string) sessions))
            w).
Proof.
  induction sessions as [|x l IH]; intros ops; cbn [forEach List.filter map].
  - now rewrite app_nil_r.
  - destruct (RemoteAddr s =? RemoteAddr x)%string; cbn [negb]; rewrite bind_Ok.
    + apply IH.
    + unfold Write. rewrite emit_emitAll, IH. cbn [map].
      rewrite <- List.app_assoc, Join_three. reflexivity.
Qed.

(** X5: a raw packet goes to the first user of the registry with the target
    name, once to each of its sessions of another remote address than the
    sender's, as the record [RAW<SOH>target<SOH>payload]: it carries the name
    of the target, not of the sender, and no user changes. *)
Theorem X5_raw_forwarded_to_target
    (s : Session) (target raw : string) (w : World) (a : ptr) (u : User) :
  first_named w target a -> heap w !! a = Some u ->
  SendRAW s target raw w
  = Ok (emitAll (map (fun session => SWrite (Socket session) (rawRecord target raw))
                   (reached s u)) w).
Proof.
  intros (pre & post & Hus & (v & Hv & Hname) & Hpre) Ha.
  assert (v = u) as -> by congruence.
  unfold SendRAW. rewrite Hus, (SendRAWLoop_skip s target raw w pre _ Hpre).
  cbn [SendRAWLoop]. rewrite (deref_Some _ _ _ Ha), bind_Ok.
  rewrite Hname, String.eqb_refl.
  rewrite <- (emitAll_nil w) at 1.
  apply (SendRAW_sessions s target raw w (Sessions u) []).
Qed.

Lemma X5_raw_forwarded_to_target_witness :
  first_named demoWorld "alice" 0%nat
  /\ SendRAW sessionA "alice" "file:offer" demoWorld
     = Ok (emitAll [SWrite 1%nat (record ["RAW"; "alice"; "file:offer"])] demoWorld).
Proof.
  split; [exact demoWorld_first_alice|].
  exact (X5_raw_forwarded_to_target sessionA "alice" "file:offer" demoWorld 0%nat _
           demoWorld_first_alice eq_refl).
Defined.

(** ** Close at the edges *)

(** X6: [Close] acts only when the registry has a user with the name of the
    user of the session.  For a session whose user is not registered under
    its name (a candidate that joined and did not authenticate), [Close]
    changes nothing and does not close the socket; so does a QUIT record. *)
Theorem X6_close_unregistered_does_nothing
    (clock : nat -> Z) (generate : nat -> string -> option string)
    (compare : string -> string -> bool)
    (s : Session) (w : World) (a : ptr) (u : User) :
  sessUser s = Some a -> heap w !! a = Some u ->
  Forall (fun p => exists v, heap w !! p = Some v /\ Username v <> Username u) (users w) ->
  Close s w = Ok w
  /\ handlePacket clock generate compare s "QUIT" w = Ok (s, w).
Proof.
  intros Hs Ha H.
  assert (E : Close s w = Ok w) by (apply (CloseLoop_absent s w a u _ Hs Ha H)).
  split; [exact E|].
  change (handlePacket clock generate compare s "QUIT" w)
    with (w' ← Close s w; Ok (s, w')).
  now rewrite E.
Qed.

(** X7: for a session without user, [Close] returns at once when the
    registry is empty, and dereferences the nil user, which panics, as soon
    as the registry has an entry: the loss of a connection that never joined
    then ends the process. *)
Theorem X7_close_without_user
    (clock : nat -> Z) (generate : nat -> string -> option string)
    (compare : string -> string -> bool)
    (s : Session) (w : World) :
  sessUser s = None ->
  (users w = [] -> Close s w = Ok w)
  /\ (users w <> [] ->
      Close s w = Panic
      /\ handleReads clock generate compare s [] w = Panic).
Proof.
  intros Hs. split.
  - intros E. unfold Close. now rewrite E.
  - intros Hne.
    assert (E : Close s w = Panic).
    { unfold Close. destruct (users w) as [|p ps]; [congruence|].
      cbn [CloseLoop]. now rewrite Hs. }
    split; exact E.
Qed.

Lemma X7_close_without_user_witness :
  sessUser freshSession = None
  /\ users initWorld = [] /\ Close freshSession initWorld = Ok initWorld
  /\ users demoWorld <> []
  /\ handleReads demoClock demoGenerate demoCompare freshSession [] demoWorld = Panic.
Proof.
  destruct (X7_close_without_user demoClock demoGenerate demoCompare
              freshSession initWorld eq_refl) as [H1 _].
  destruct (X7_close_without_user demoClock demoGenerate demoCompare
              freshSession demoWorld eq_refl) as [_ H2].
  assert (Hne : users demoWorld <> []) by discriminate.
  split; [reflexivity|]. split; [reflexivity|]. split; [exact (H1 eq_refl)|].
  split; [exact Hne | exact (proj2 (H2 Hne))].
Defined.

Lemma X6_close_unregistered_does_nothing_witness :
  sessUser sessionDave = Some 4%nat
  /\ heap candidateWorld !! 4%nat = Some (newUser "dave")
  /\ Close sessionDave candidateWorld = Ok candidateWorld
  /\ handlePacket demoClock demoGenerate demoCompare sessionDave "QUIT" candidateWorld
     = Ok (sessionDave, candidateWorld).
Proof.
  split; [reflexivity|]. split; [reflexivity|].
  apply (X6_close_unregistered_does_nothing demoClock demoGenerate demoCompare
           sessionDave candidateWorld 4%nat (newUser "dave") eq_refl eq_refl).
  repeat constructor; eexists; (split; [reflexivity | discriminate]).
Defined.





Lemma Split_QUIT_alone : Split ("QUIT" ++ CRLF) CRLF = ["QUIT"; ""].
Proof. reflexivity. Qed.



(** ** What the switch lets through *)

(** X9: without authentication the MSG, PM and LIST records are dropped:
    however many of them a session sends, with whatever arguments, there is
    no reply and no change, also on a session that has no user. *)
Theorem X9_unauthenticated_records_dropped
    (clock : nat -> Z) (generate : nat -> string -> option string)
    (compare : string -> string -> bool)
    (s : Session) (w : World) (cmds : list (list string)) :
  Authenticated s = false ->
  Forall (fun fields => exists cmd args,
            fields = cmd :: args /\ In cmd ["MSG"; "PM"; "LIST"]) cmds ->
  dispatchAll clock generate compare s cmds w = Ok (s, w).
Proof.
  intros Hauth. induction 1 as [|fields cmds (cmd & args & -> & Hin) _ IH];
    cbn [dispatchAll]; [reflexivity|].
  assert (E : dispatch clock generate compare s cmd args w = Ok (s, w)).
  { cbn in Hin. destruct Hin as [<-|[<-|[<-|[]]]].
    - change (dispatch clock generate compare s "MSG" args w) with (caseMSG s args w).
      unfold caseMSG. now rewrite Hauth.
    - change (dispatch clock generate compare s "PM" args w) with (casePM s args w).
      unfold casePM. now rewrite Hauth.
    - change (dispatch clock generate compare s "LIST" args w) with (caseLIST s w).
      unfold caseLIST. now rewrite Hauth. }
  rewrite E, bind_Ok. exact IH.
Qed.

Lemma X9_unauthenticated_records_dropped_witness :
  Authenticated freshSession = false
  /\ dispatchAll demoClock demoGenerate demoCompare freshSession
       [["MSG"; "bob"; "hi"]; ["LIST"]; ["PM"; "alice"; "psst"]] demoWorld
     = Ok (freshSession, demoWorld).
Proof.
  split; [reflexivity|].
  apply (X9_unauthenticated_records_dropped demoClock demoGenerate demoCompare
           freshSession demoWorld _ eq_refl).
  repeat constructor; eexists _, _; (split; [reflexivity | cbn; tauto]).
Defined.

(** X10: on a session that no JOIN has given a user, the NAME (with its two
    arguments), INFO, RAW and AWAY records dereference the nil user before
    any other check: each of them panics, whatever the arguments of the last
    three. *)
Theorem X10_records_before_join_panic
    (clock : nat -> Z) (generate : nat -> string -> option string)
    (compare : string -> string -> bool)
    (s : Session) (w : World) (old new : string) (args : list string) :
  sessUser s = None ->
  dispatch clock generate compare s "NAME" (old :: new :: args) w = Panic
  /\ dispatch clock generate compare s "INFO" args w = Panic
  /\ dispatch clock generate compare s "RAW" args w = Panic
  /\ dispatch clock generate compare s "AWAY" args w = Panic.
Proof.
  intros H.
  change (dispatch clock generate compare s "NAME" (old :: new :: args) w)
    with (caseNAME s (old :: new :: args) w).
  change (dispatch clock generate compare s "INFO" args w) with (caseINFO s args w).
  change (dispatch clock generate compare s "RAW" args w) with (caseRAW s args w).
  change (dispatch clock generate compare s "AWAY" args w) with (caseAWAY s args w).
  unfold caseNAME, caseINFO, caseRAW, caseAWAY. rewrite H. auto.
Qed.

Lemma X10_records_before_join_panic_witness :
  sessUser freshSession = None
  /\ handleRead demoClock demoGenerate demoCompare freshSession (record ["AWAY"]) demoWorld
     = Panic.
Proof.
  split; [reflexivity|].
  exact (proj2 (proj2 (proj2
    (X10_records_before_join_panic demoClock demoGenerate demoCompare
       freshSession demoWorld "" "" [] eq_refl)))).
Defined.

(** X11: a record whose opcode the switch does not name is answered with
    one server message that quotes the opcode, on the socket of the session;
    the session and the world are otherwise unchanged, with or without a
    user. *)
Theorem X11_unknown_opcode_answered
    (clock : nat -> Z) (generate : nat -> string -> option string)
    (compare : string -> string -> bool)
    (s : Session) (w : World) (cmd : string) (args : list string) :
  ~ In cmd knownOpcodes ->
  dispatch clock generate compare s cmd args w
  = Ok (s, emit (SWrite (Socket s)
                   (record ["MSG"; "[Server]";
                            "[color=#d64161]"
                            ++ ("Server does not support opcode [b]" ++ cmd ++ "[/b].")
                            ++ "[/color]"])) w).
Proof.
  intros H. unfold dispatch.
  repeat match goal with
         | |- context [(cmd =? ?k)%string] =>
             let E := fresh "E" in
             destruct (String.eqb_spec cmd k) as [E|E];
             [exfalso; apply H; rewrite E; cbn; tauto|]
         end.
  reflexivity.
Qed.

Lemma X11_unknown_opcode_answered_witness :
  ~ In "FOO" knownOpcodes
  /\ handleRead demoClock demoGenerate demoCompare freshSession (record ["FOO"]) demoWorld
     = Ok (freshSession,
           emit (SWrite 0%nat
                   (record ["MSG"; "[Server]";
                            "[color=#d64161]Server does not support opcode [b]FOO[/b].[/color]"]))
             demoWorld).
Proof.
  assert (H : ~ In "FOO" knownOpcodes).
  { cbn. intros H. repeat (destruct H as [H|H]; [discriminate H|]). exact H. }
  split; [exact H|].
  exact (X11_unknown_opcode_answered demoClock demoGenerate demoCompare
           freshSession demoWorld "FOO" [] H).
Defined.

(** ** Logging in *)

Lemma emitAll_emitAll (ops1 ops2 : list SockOp) (w : World) :
  emitAll ops2 (emitAll ops1 w) = emitAll (ops1 ++ ops2) w.
Proof. unfold emitAll. cbn. now rewrite <- List.app_assoc. Qed.

Lemma emit_as_emitAll (op : SockOp) (w : World) : emit op w = emitAll [op] w.
Proof. reflexivity. Qed.

Lemma registryValid_insert (w : World) (a : ptr) (v : User) :
  registryValid w -> registryValid (setHeap (<[a := v]> (heap w)) w).
Proof.
  unfold registryValid. cbn [heap users setHeap]. intros H.
  eapply Forall_impl; [exact H|]. intros p Hp. now apply list_lookup_insert_is_Some.
Qed.

Lemma SendList_total (s : Session) (w : World) :
  registryValid w ->
  SendList s w = Ok (emit (SWrite (Socket s) (rosterReply w)) w).
Proof.
  intros H. unfold SendList.
  rewrite (SendListLoop_spec w _ _ (registryValid_registry w H) []), bind_Ok.
  reflexivity.
Qed.

Lemma flush_total (s1 : Session) (w : World) (pms : list PrivateMessage) :
  Forall (fun pm => exists b, pmUser pm = Some b /\ is_Some (heap w !! b)) pms ->
  forall ops,
    forEach (fun pm w0 =>
        sender ← deref (pmUser pm) w0;
        Ok (SendPMFrom s1 (Username sender) (Message pm) w0))
      pms (emitAll ops w)
    = Ok (emitAll (ops ++ map (fun pm => SWrite (Socket s1)
                                 ("PM" ++ SOH ++ senderName w pm ++ SOH ++ Message pm ++ CRLF))
                           pms) w).
Proof.
  induction 1 as [|pm pms (b & Hb & (v & Hv)) _ IH]; intros ops; cbn [forEach map].
  - now rewrite app_nil_r.
  - assert (Hd : deref (pmUser pm) (emitAll ops w) = Ok v)
      by (rewrite Hb; apply deref_Some; exact Hv).
    rewrite Hd, bind_Ok.
    change (SendPMFrom s1 (Username v) (Message pm) (emitAll ops w))
      with (emit (SWrite (Socket s1) (Join ["PM"; Username v; Message pm] SOH ++ CRLF))
              (emitAll ops w)).
    rewrite emit_emitAll, bind_Ok, IH, <- List.app_assoc, Join_three.
    unfold senderName. rewrite Hb, Hv. reflexivity.
Qed.

(** The tail of the AUTH case, run forward. *)
Lemma attach_spec (s : Session) (w : World) (a : ptr) (u : User) :
  sessUser s = Some a -> heap w !! a = Some u ->
  registryValid w -> pendingValid w u ->
  let w' := setHeap (<[a := loggedIn s u]> (heap w)) w in
  attach s w = Ok (setAuthenticated true s, emitAll (welcome s w' u) w').
Proof.
  intros Hs Ha Hreg Hpend w'. unfold attach. rewrite Hs.
  rewrite (modify_Some _ _ _ _ Ha), bind_Ok.
  set (u1 := setSessions (Sessions u ++ [s]) u).
  pose proof (lookup_modified w a u u1 Ha) as Ha1.
  set (w1 := setHeap (<[a:=u1]> (heap w)) w) in *.
  rewrite (modify_Some _ _ _ _ Ha1), bind_Ok.
  set (u2 := setOnline true u1).
  pose proof (lookup_modified w1 a u1 u2 Ha1) as Ha2.
  set (w2 := setHeap (<[a:=u2]> (heap w1)) w1) in *.
  rewrite (modify_Some _ _ _ _ Ha2), bind_Ok.
  set (u3 := setAway false u2).
  pose proof (lookup_modified w2 a u2 u3 Ha2) as Ha3.
  set (w3 := setHeap (<[a:=u3]> (heap w2)) w2) in *.
  rewrite (modify_Some _ _ _ _ Ha3), bind_Ok.
  assert (E4 : setHeap (<[a:=setAwayReason "" u3]> (heap w3)) w3 = w').
  { unfold w', w3, w2, w1, setHeap. cbn [heap users wire ticks].
    rewrite !list_insert_insert_eq. reflexivity. }
  rewrite E4.
  assert (Hreg' : registryValid w') by (now apply registryValid_insert).
  assert (Ha' : heap w' !! a = Some (loggedIn s u)) by (apply (lookup_modified w a u _ Ha)).
  change (Socket s) with (Socket (setAuthenticated true s)) in *.
  rewrite (SendList_total _ w' Hreg'), bind_Ok.
  unfold SendMsg, SendAnnouncementMsg, Write.
  rewrite (emit_as_emitAll _ w'), !emit_emitAll. cbn [app].
  change (sessUser (setAuthenticated true s)) with (sessUser s). rewrite Hs.
  erewrite deref_Some by (exact Ha'). rewrite bind_Ok.
  change (PendingPMs (loggedIn s u)) with (PendingPMs u).
  rewrite flush_total.
  - rewrite bind_Ok. reflexivity.
  - eapply Forall_impl; [exact Hpend|]. intros pm (b & Hb & Hv).
    exists b. split; [exact Hb|]. cbn [heap w' setHeap].
    now apply list_lookup_insert_is_Some.
Qed.

(** X12: an AUTH record with the password of the registered user that the
    session joined as authenticates the session: the user gets the session
    appended to its sessions, is online and no longer away, and the session
    is sent the confirmation, the roster, the banner, the message of the day
    and the queued private messages, in this order. *)
Theorem X12_login_with_password
    (clock : nat -> Z) (generate : nat -> string -> option string)
    (compare : string -> string -> bool)
    (s : Session) (w : World) (a : ptr) (u : User)
    (password : string) (rest : list string) :
  Authenticated s = false -> sessUser s = Some a -> heap w !! a = Some u ->
  PasswordHash u <> "" -> compare (PasswordHash u) password = true ->
  registryValid w -> pendingValid w u ->
  let w' := setHeap (<[a := loggedIn s u]> (heap w)) w in
  dispatch clock generate compare s "AUTH" (password :: rest) w
  = Ok (setAuthenticated true s,
        emitAll (SWrite (Socket s)
                   (authRecord ("Authenticated as " ++ Username u ++ " successfully."))
                 :: welcome s w' u) w').
Proof.
  intros Hauth Hs Ha Hh Hcmp Hreg Hpend w'.
  change (dispatch clock generate compare s "AUTH" (password :: rest) w)
    with (caseAUTH generate compare s (password :: rest) w).
  unfold caseAUTH. rewrite Hauth, Hs, (deref_Some _ _ _ Ha), bind_Ok.
  apply String.eqb_neq in Hh. rewrite Hh, Hcmp. cbn [negb].
  unfold SendAuthMsg, Write. rewrite emit_as_emitAll.
  rewrite (attach_spec s (emitAll _ w) a u Hs Ha Hreg Hpend).
  cbv zeta. f_equal. f_equal.
  change (setHeap (<[a:=loggedIn s u]> (heap (emitAll ?ops w))) (emitAll ?ops w))
    with (emitAll ops w').
  rewrite emitAll_emitAll. reflexivity.
Qed.

Lemma X12_login_with_password_witness :
  demoCompare "$2a$carol" "carol" = true
  /\ registryValid queuedWorld
  /\ (r ← dispatch demoClock demoGenerate demoCompare sessionCarol "AUTH" ["carol"]
            queuedWorld;
      Ok (Authenticated (fst r), writesTo 3%nat (wire (snd r)),
          (fun u => (Online u, map Socket (Sessions u), PendingPMs u))
            <$> heap (snd r) !! 2%nat))
     = Ok (true,
           [authRecord "Authenticated as carol successfully.";
            ("LIST" ++ SOH ++ "[OAB] alice - likes tea" ++ SOH ++ "[O] carol - " ++ SOH
               ++ "[OM] bob - " ++ CRLF)%string;
            record ["Msg"; "Announcement"; joinMsg];
            record ["MSG"; "Message of the Day"; motdMsg];
            record ["PM"; "bob"; "hello"]],
           Some (true, [3%nat], [mkPM (Some 3%nat) "hello"])).
Proof.
  assert (Hreg : registryValid queuedWorld) by (repeat constructor; eexists; reflexivity).
  assert (Hpend : pendingValid queuedWorld
                    (mkUser "carol" "$2a$carol" "" [] false false false false false
                       false [mkPM (Some 3%nat) "hello"] "" false)).
  { constructor; [|constructor]. exists 3%nat. split; [reflexivity | eexists; reflexivity]. }
  split; [reflexivity|]. split; [exact Hreg|].
  rewrite (X12_login_with_password demoClock demoGenerate demoCompare
             sessionCarol queuedWorld 2%nat _ "carol" []
             eq_refl eq_refl eq_refl ltac:(discriminate) eq_refl Hreg Hpend).
  reflexivity.
Defined.

(** X13: AUTH records with wrong passwords, as many as one likes, are each
    answered with the same message and change neither the session, which
    stays unauthenticated, nor any user: there is no lockout and no
    disconnection. *)
Theorem X13_wrong_passwords_change_nothing
    (clock : nat -> Z) (generate : nat -> string -> option string)
    (compare : string -> string -> bool)
    (s : Session) (w : World) (a : ptr) (u : User) (passwords : list string) :
  Authenticated s = false -> sessUser s = Some a -> heap w !! a = Some u ->
  PasswordHash u <> "" ->
  Forall (fun password => compare (PasswordHash u) password = false) passwords ->
  dispatchAll clock generate compare s (map (fun password => ["AUTH"; password]) passwords) w
  = Ok (s, emitAll (map (fun _ => SWrite (Socket s)
                           (authRecord "You entered an invalid password. Please try again."))
                      passwords) w).
Proof.
  intros Hauth Hs Ha Hh Hall.
  assert (G : forall ops,
            dispatchAll clock generate compare s
              (map (fun password => ["AUTH"; password]) passwords) (emitAll ops w)
            = Ok (s, emitAll (ops ++ map (fun _ => SWrite (Socket s)
                     (authRecord "You entered an invalid password. Please try again."))
                   passwords) w));
    [|specialize (G []); now rewrite emitAll_nil in G].
  induction Hall as [|password passwords Hp _ IH]; intros ops; cbn [map dispatchAll].
  - now rewrite app_nil_r.
  - change (dispatch clock generate compare s "AUTH" [password] (emitAll ops w))
      with (caseAUTH generate compare s [password] (emitAll ops w)).
    unfold caseAUTH. rewrite Hauth, Hs.
    rewrite (deref_Some (emitAll ops w) a u Ha), bind_Ok.
    apply String.eqb_neq in Hh. rewrite Hh, Hp. cbn [negb].
    rewrite bind_Ok. unfold SendAuthMsg, Write. rewrite emit_emitAll.
    apply String.eqb_neq in Hh.
    rewrite IH, <- List.app_assoc. reflexivity.
Qed.

Lemma X13_wrong_passwords_change_nothing_witness :
  Forall (fun password => demoCompare "$2a$carol" password = false) ["x"; "secret"; ""]
  /\ dispatchAll demoClock demoGenerate demoCompare sessionCarol
       [["AUTH"; "x"]; ["AUTH"; "secret"]; ["AUTH"; ""]] queuedWorld
     = Ok (sessionCarol,
           emitAll (map (fun _ => SWrite 3%nat
                           (authRecord "You entered an invalid password. Please try again."))
                      ["x"; "secret"; ""]) queuedWorld).
Proof.
  assert (H : Forall (fun password => demoCompare "$2a$carol" password = false)
                ["x"; "secret"; ""]) by (repeat constructor).
  split; [exact H|].
  exact (X13_wrong_passwords_change_nothing demoClock demoGenerate demoCompare
           sessionCarol queuedWorld 2%nat _ ["x"; "secret"; ""]
           eq_refl eq_refl eq_refl ltac:(discriminate) H).
Defined.

(** ** Announcements and registration *)

Lemma BroadcastAction_sessions (s : Session) (msg : string) (w : World)
    (sessions : list Session) :
  forall ops,
    forEach (fun session w2 =>
        if (RemoteAddr s =? RemoteAddr session)%string then Ok w2
        else Ok (Write session ["MSG"; "Announcement"; msg] w2))
      sessions (emitAll ops w)
    = Ok (emitAll
            (ops ++ map (fun session => SWrite (Socket session) (announcement msg))
                      (List.filter (fun session =>
                         negb (RemoteAddr s =? RemoteAddr session)%string) sessions))
            w).
Proof.
  induction sessions as [|x l IH]; intros ops; cbn [forEach List.filter map].
  - now rewrite app_nil_r.
  - destruct (RemoteAddr s =? RemoteAddr x)%string; cbn [negb]; rewrite bind_Ok.
    + apply IH.
    + unfold Write. rewrite emit_emitAll, IH. cbn [map].
      rewrite <- List.app_assoc. reflexivity.
Qed.

Lemma BroadcastAction_users (s : Session) (msg : string) (w : World) (ps : list ptr) :
  Forall (fun p => is_Some (heap w !! p)) ps ->
  forall ops,
    forEach (fun p w1 =>
        user ← deref (Some p) w1;
        forEach (fun session w2 =>
            if (RemoteAddr s =? RemoteAddr session)%string then Ok w2
            else Ok (Write session ["MSG"; "Announcement"; msg] w2))
          (Sessions user) w1)
      ps (emitAll ops w)
    = Ok (emitAll
            (ops ++ map (fun session => SWrite (Socket session) (announcement msg))
                      (concat (map (reached s) (derefAll (heap w) ps))))
            w).
Proof.
  induction 1 as [|p ps (u & Hp) _ IH]; intros ops; cbn [forEach derefAll map concat].
  - now rewrite app_nil_r.
  - rewrite (deref_Some (emitAll ops w) p u Hp), bind_Ok, Hp.
    rewrite (BroadcastAction_sessions s msg w (Sessions u)), bind_Ok.
    cbn [map concat]. rewrite IH, map_app, <- List.app_assoc. reflexivity.
Qed.

(** X14: an announcement is written once, as [MSG<SOH>Announcement<SOH>text],
    to every session of every registered user whose remote address is not
    that of the session that caused it, in registry order; it changes no
    user. *)
Theorem X14_announcement_reaches_others (s : Session) (msg : string) (w : World) :
  registryValid w ->
  BroadcastAction s msg w
  = Ok (emitAll (map (fun session => SWrite (Socket session) (announcement msg))
                   (concat (map (reached s) (registryUsers w)))) w).
Proof.
  intros H. unfold BroadcastAction. rewrite <- (emitAll_nil w) at 2.
  apply (BroadcastAction_users s msg w (users w) H []).
Qed.

Lemma demoWorld_valid : registryValid demoWorld.
Proof. repeat constructor; eexists; reflexivity. Defined.

Lemma X14_announcement_reaches_others_witness :
  registryValid demoWorld
  /\ BroadcastAction sessionBob "bob is now known as rob." demoWorld
     = Ok (emitAll [SWrite 0%nat (record ["MSG"; "Announcement"; "bob is now known as rob."]);
                    SWrite 1%nat (record ["MSG"; "Announcement"; "bob is now known as rob."])]
             demoWorld).
Proof.
  split; [exact demoWorld_valid|].
  exact (X14_announcement_reaches_others sessionBob "bob is now known as rob."
           demoWorld demoWorld_valid).
Defined.

(** X15: the first AUTH record of a session that joined under a free name
    registers the user: the digest is stored, the user is appended to the
    registry, announced to the sessions of the others, and the session is
    authenticated and welcomed as after a login. *)
Theorem X15_first_auth_registers
    (clock : nat -> Z) (generate : nat -> string -> option string)
    (compare : string -> string -> bool)
    (s : Session) (w : World) (a : ptr) (u : User)
    (password h : string) (rest : list string) :
  Authenticated s = false -> sessUser s = Some a -> heap w !! a = Some u ->
  PasswordHash u = "" -> userExists (Username u) w = Ok false ->
  generate (ticks w) password = Some h ->
  registryValid w -> pendingValid w u ->
  let registered :=
    mkWorld (<[a := setPasswordHash h u]> (heap w)) (users w ++ [a]) (wire w) (S (ticks w)) in
  let w' :=
    mkWorld (<[a := loggedIn s (setPasswordHash h u)]> (heap w)) (users w ++ [a])
      (wire w) (S (ticks w)) in
  dispatch clock generate compare s "AUTH" (password :: rest) w
  = Ok (setAuthenticated true s,
        emitAll ([SWrite (Socket s)
                    (authRecord "Registered your username with your chosen password successfully.")]
                 ++ map (fun session => SWrite (Socket session)
                           (announcement (Username u ++ " has joined the server!")))
                      (concat (map (reached s) (registryUsers registered)))
                 ++ welcome s w' (setPasswordHash h u)) w').
Proof.
  intros Hauth Hs Ha Hempty Hfree Hgen Hreg Hpend registered w'.
  change (dispatch clock generate compare s "AUTH" (password :: rest) w)
    with (caseAUTH generate compare s (password :: rest) w).
  unfold caseAUTH. rewrite Hauth, Hs, (deref_Some _ _ _ Ha), bind_Ok.
  rewrite Hempty. cbn [String.eqb negb]. rewrite Hfree, bind_Ok, Hgen.
  assert (Hat : heap (tick w) !! a = Some u) by exact Ha.
  rewrite (modify_Some _ _ _ _ Hat), bind_Ok.
  assert (Har : heap registered !! a = Some (setPasswordHash h u)).
  { cbn [heap registered]. apply list_lookup_insert_eq. eapply lookup_lt_Some; eauto. }
  assert (Hvalid : registryValid registered).
  { unfold registryValid. cbn [heap users registered]. apply Forall_app. split.
    - eapply Forall_impl; [exact Hreg|]. intros p Hp.
      now apply list_lookup_insert_is_Some.
    - constructor; [|constructor]. cbn [heap registered] in Har. eauto. }
  set (op := SWrite (Socket s)
               (authRecord "Registered your username with your chosen password successfully.")).
  change (SendAuthMsg s "Registered your username with your chosen password successfully."
            (setUsers (users (setHeap (<[a:=setPasswordHash h u]> (heap (tick w))) (tick w))
                         ++ [a])
               (setHeap (<[a:=setPasswordHash h u]> (heap (tick w))) (tick w))))
    with (emitAll [op] registered).
  rewrite (deref_Some (emitAll [op] registered) a _ Har), bind_Ok.
  change (Username (setPasswordHash h u)) with (Username u).
  unfold BroadcastAction. change (users (emitAll [op] registered)) with (users registered).
  rewrite (BroadcastAction_users s _ registered (users registered) Hvalid [op]), bind_Ok.
  fold (registryUsers registered).
  assert (Hpend' : pendingValid registered (setPasswordHash h u)).
  { unfold pendingValid. cbn [PendingPMs setPasswordHash].
    eapply Forall_impl; [exact Hpend|]. intros pm (b & Hb & Hv).
    exists b. split; [exact Hb|]. cbn [heap registered].
    now apply list_lookup_insert_is_Some. }
  rewrite (attach_spec s (emitAll _ registered) a (setPasswordHash h u) Hs Har Hvalid Hpend').
  cbv zeta. f_equal. f_equal.
  change (setHeap (<[a:=loggedIn s (setPasswordHash h u)]> (heap (emitAll ?ops registered)))
            (emitAll ?ops registered))
    with (emitAll ops (setHeap (<[a:=loggedIn s (setPasswordHash h u)]> (heap registered))
                         registered)).
  rewrite emitAll_emitAll.
  assert (E : setHeap (<[a:=loggedIn s (setPasswordHash h u)]> (heap registered)) registered
              = w').
  { unfold setHeap, registered, w'. cbn [heap users wire ticks].
    now rewrite list_insert_insert_eq. }
  rewrite E, <- List.app_assoc. reflexivity.
Qed.

Lemma X15_first_auth_registers_witness :
  userExists "dave" candidateWorld = Ok false
  /\ demoGenerate 0 "pw" = Some "$2a$pw"
  /\ registryValid candidateWorld
  /\ (r ← dispatch demoClock demoGenerate demoCompare sessionDave "AUTH" ["pw"]
            candidateWorld;
      Ok (Authenticated (fst r), users (snd r),
          (fun u => (PasswordHash u, Online u, map Socket (Sessions u)))
            <$> heap (snd r) !! 4%nat,
          writesTo 2%nat (wire (snd r))))
     = Ok (true, [0; 1; 2; 3; 4]%nat, Some ("$2a$pw", true, [3%nat]),
           [record ["MSG"; "Announcement"; "dave has joined the server!"]]).
Proof.
  assert (Hreg : registryValid candidateWorld)
    by (repeat constructor; eexists; reflexivity).
  split; [reflexivity|]. split; [reflexivity|]. split; [exact Hreg|].
  rewrite (X15_first_auth_registers demoClock demoGenerate demoCompare
             sessionDave candidateWorld 4%nat (newUser "dave") "pw" "$2a$pw" []
             eq_refl eq_refl eq_refl eq_refl eq_refl eq_refl Hreg ltac:(constructor)).
  reflexivity.
Defined.

(** ** AWAY *)

Lemma modify_emitAll (ops : list SockOp) (w : World) (a : ptr) (u : User)
    (f : User -> User) :
  heap w !! a = Some u ->
  modify (Some a) f (emitAll ops w) = Ok (emitAll ops (setHeap (<[a := f u]> (heap w)) w)).
Proof. intros H. unfold modify. cbn [heap emitAll]. now rewrite H. Qed.

Lemma BroadcastAction_emitAll (s : Session) (msg : string) (ops : list SockOp) (w : World) :
  registryValid w ->
  exists ops', BroadcastAction s msg (emitAll ops w) = Ok (emitAll (ops ++ ops') w).
Proof.
  intros H. eexists. unfold BroadcastAction.
  change (users (emitAll ops w)) with (users w).
  apply (BroadcastAction_users s msg w (users w) H ops).
Qed.

Lemma SendList_emitAll (s : Session) (ops : list SockOp) (w : World) :
  registryValid w ->
  exists ops', SendList s (emitAll ops w) = Ok (emitAll (ops ++ ops') w).
Proof.
  intros H. eexists. rewrite (SendList_total s (emitAll ops w) H).
  rewrite emit_emitAll. reflexivity.
Qed.

(** Leaving the away state. *)
Lemma caseAWAY_back (s : Session) (args : list string) (w : World) (a : ptr) (u : User) :
  sessUser s = Some a -> heap w !! a = Some u -> Online u = true -> Away u = true ->
  registryValid w ->
  exists ops,
    caseAWAY s args w
    = Ok (s, emitAll ops
               (setHeap (<[a := setAwayReason "" (setAwayAnnounce false (setAway false u))]>
                           (heap w)) w)).
Proof.
  intros Hs Ha Hon Haway Hreg. unfold caseAWAY.
  rewrite Hs, (deref_Some _ _ _ Ha), bind_Ok, Hon, Haway. cbn [negb].
  rewrite (modify_Some _ _ _ _ Ha), bind_Ok.
  set (u1 := setAway false u). set (w1 := setHeap (<[a:=u1]> (heap w)) w).
  assert (Ha1 : heap w1 !! a = Some u1) by (apply (lookup_modified w a u u1 Ha)).
  assert (Hreg1 : registryValid w1) by (now apply registryValid_insert).
  unfold SendInfoMsg, Write. rewrite (emit_as_emitAll _ w1).
  set (ops1 := [SWrite (Socket s) _]).
  assert (Hb : exists ops2,
            (if AwayAnnounce u
             then BroadcastAction s (Username u ++ " is no longer marked as away.")
                    (emitAll ops1 w1)
             else Ok (emitAll ops1 w1)) = Ok (emitAll ops2 w1)).
  { destruct (AwayAnnounce u); [|eauto].
    destruct (BroadcastAction_emitAll s (Username u ++ " is no longer marked as away.")
                ops1 w1 Hreg1) as (ops' & E). eauto. }
  destruct Hb as (ops2 & ->). rewrite bind_Ok.
  rewrite (modify_emitAll ops2 w1 a u1 _ Ha1), bind_Ok.
  set (u2 := setAwayAnnounce false u1). set (w2 := setHeap (<[a:=u2]> (heap w1)) w1).
  assert (Ha2 : heap w2 !! a = Some u2) by (apply (lookup_modified w1 a u1 u2 Ha1)).
  rewrite (modify_emitAll ops2 w2 a u2 _ Ha2), bind_Ok.
  set (w3 := setHeap (<[a:=setAwayReason "" u2]> (heap w2)) w2).
  assert (Hreg3 : registryValid w3) by (do 2 apply registryValid_insert; exact Hreg1).
  destruct (SendList_emitAll s ops2 w3 Hreg3) as (ops3 & ->). rewrite bind_Ok.
  exists (ops2 ++ ops3)%list. f_equal. f_equal. f_equal.
  unfold w3, w2, w1, setHeap. cbn [heap users wire ticks].
  now rewrite !list_insert_insert_eq.
Qed.

(** Entering the away state with a reason. *)
Lemma caseAWAY_away (s : Session) (reason : string) (more : list string)
    (w : World) (a : ptr) (u : User) :
  sessUser s = Some a -> heap w !! a = Some u -> Online u = true -> Away u = false ->
  registryValid w ->
  let announce := match more with a1 :: _ => (a1 =? "1")%string | [] => false end in
  let u' := (if announce then setAwayAnnounce true else fun v => v)
              (setAwayReason reason (setAway true u)) in
  exists ops,
    caseAWAY s (reason :: more) w
    = Ok (s, emitAll ops (setHeap (<[a := u']> (heap w)) w)).
Proof.
  intros Hs Ha Hon Haway Hreg announce u'. unfold caseAWAY.
  rewrite Hs, (deref_Some _ _ _ Ha), bind_Ok, Hon, Haway. cbn [negb].
  rewrite (modify_Some _ _ _ _ Ha), bind_Ok.
  set (u1 := setAway true u). set (w1 := setHeap (<[a:=u1]> (heap w)) w).
  assert (Ha1 : heap w1 !! a = Some u1) by (apply (lookup_modified w a u u1 Ha)).
  rewrite (modify_Some _ _ _ _ Ha1), bind_Ok.
  set (u2 := setAwayReason reason u1). set (w2 := setHeap (<[a:=u2]> (heap w1)) w1).
  assert (Ha2 : heap w2 !! a = Some u2) by (apply (lookup_modified w1 a u1 u2 Ha1)).
  assert (Hreg2 : registryValid w2) by (do 2 apply registryValid_insert; exact Hreg).
  unfold SendInfoMsg, Write. rewrite (emit_as_emitAll _ w2).
  set (ops1 := [SWrite (Socket s) _]).
  assert (E2 : w2 = setHeap (<[a:=u2]> (heap w)) w).
  { unfold w2, w1, setHeap. cbn [heap users wire ticks].
    now rewrite list_insert_insert_eq. }
  unfold u', announce. destruct more as [|a1 more'].
  - rewrite bind_Ok.
    destruct (SendList_emitAll s ops1 w2 Hreg2) as (ops3 & ->). rewrite bind_Ok.
    exists (ops1 ++ ops3)%list. now rewrite E2.
  - destruct (a1 =? "1")%string.
    + rewrite (modify_emitAll ops1 w2 a u2 _ Ha2), bind_Ok.
      set (w3 := setHeap (<[a:=setAwayAnnounce true u2]> (heap w2)) w2).
      assert (Hreg3 : registryValid w3) by (apply registryValid_insert; exact Hreg2).
      destruct (BroadcastAction_emitAll s
                  (Username u ++ " is now marked as away. Reason: " ++ reason)
                  ops1 w3 Hreg3) as (ops2 & ->).
      rewrite bind_Ok.
      destruct (SendList_emitAll s (ops1 ++ ops2) w3 Hreg3) as (ops3 & ->).
      rewrite bind_Ok. exists ((ops1 ++ ops2) ++ ops3)%list. f_equal. f_equal. f_equal.
      unfold w3. rewrite E2. unfold setHeap. cbn [heap users wire ticks].
      now rewrite list_insert_insert_eq.
    + rewrite bind_Ok.
      destruct (SendList_emitAll s ops1 w2 Hreg2) as (ops3 & ->). rewrite bind_Ok.
      exists (ops1 ++ ops3)%list. now rewrite E2.
Qed.

(** X16: AWAY toggles.  For an online user who is not away, an AWAY record
    with a reason marks the user away with that reason (and with the
    announce flag when the second argument is [1]); the next AWAY record,
    whatever its arguments, takes all of it back: the user is not away, has
    no reason and no announce flag, and nothing else of the user changed. *)
Theorem X16_away_toggles
    (clock : nat -> Z) (generate : nat -> string -> option string)
    (compare : string -> string -> bool)
    (s : Session) (w : World) (a : ptr) (u : User)
    (reason : string) (more args : list string) :
  sessUser s = Some a -> heap w !! a = Some u -> Online u = true -> Away u = false ->
  registryValid w ->
  let announce := match more with a1 :: _ => (a1 =? "1")%string | [] => false end in
  let away := (if announce then setAwayAnnounce true else fun v => v)
                (setAwayReason reason (setAway true u)) in
  (exists ops,
     dispatch clock generate compare s "AWAY" (reason :: more) w
     = Ok (s, emitAll ops (setHeap (<[a := away]> (heap w)) w)))
  /\ (exists ops,
        dispatchAll clock generate compare s
          [("AWAY" :: reason :: more); ("AWAY" :: args)] w
        = Ok (s, emitAll ops
                   (setHeap (<[a := setAwayReason "" (setAwayAnnounce false u)]> (heap w)) w))).
Proof.
  intros Hs Ha Hon Haway Hreg announce away.
  destruct (caseAWAY_away s reason more w a u Hs Ha Hon Haway Hreg) as (ops1 & E1).
  fold announce in E1. fold away in E1.
  split; [exists ops1; exact E1|].
  cbn [dispatchAll].
  change (dispatch clock generate compare s "AWAY" (reason :: more) w)
    with (caseAWAY s (reason :: more) w).
  rewrite E1, bind_Ok.
  set (w1 := setHeap (<[a:=away]> (heap w)) w).
  change (dispatch clock generate compare s "AWAY" args (emitAll ops1 w1))
    with (caseAWAY s args (emitAll ops1 w1)).
  assert (Ha1 : heap (emitAll ops1 w1) !! a = Some away)
    by (apply (lookup_modified w a u away Ha)).
  assert (Hon1 : Online away = true) by (unfold away; destruct announce; exact Hon).
  assert (Haw1 : Away away = true) by (unfold away; destruct announce; reflexivity).
  assert (Hreg1 : registryValid (emitAll ops1 w1)) by (now apply registryValid_insert).
  destruct (caseAWAY_back s args (emitAll ops1 w1) a away Hs Ha1 Hon1 Haw1 Hreg1)
    as (ops2 & ->).
  rewrite bind_Ok. exists (ops1 ++ ops2)%list. f_equal. f_equal.
  assert (Eu : setAwayReason "" (setAwayAnnounce false (setAway false away))
               = setAwayReason "" (setAwayAnnounce false u)).
  { unfold away. destruct u. cbn in Haway. subst. destruct announce; reflexivity. }
  rewrite Eu. unfold emitAll, w1. cbn [heap users wire ticks setHeap].
  now rewrite list_insert_insert_eq, <- List.app_assoc.
Qed.

Lemma X16_away_toggles_witness :
  sessUser sessionBob = Some 3%nat /\ registryValid demoWorld
  /\ (r ← dispatchAll demoClock demoGenerate demoCompare sessionBob
            [["AWAY"; "lunch"; "1"]; ["AWAY"]] demoWorld;
      Ok ((fun u => (Away u, AwayReason u, AwayAnnounce u)) <$> heap (snd r) !! 3%nat))
     = Ok (Some (false, "", false))
  /\ (r ← dispatch demoClock demoGenerate demoCompare sessionBob "AWAY" ["lunch"; "1"]
            demoWorld;
      Ok ((fun u => (Away u, AwayReason u, AwayAnnounce u)) <$> heap (snd r) !! 3%nat))
     = Ok (Some (true, "lunch", true)).
Proof.
  destruct (X16_away_toggles demoClock demoGenerate demoCompare sessionBob demoWorld
              3%nat _ "lunch" ["1"] [] eq_refl eq_refl eq_refl eq_refl demoWorld_valid)
    as ((ops1 & E1) & (ops2 & E2)).
  split; [reflexivity|]. split; [exact demoWorld_valid|]. split.
  - rewrite E2. reflexivity.
  - rewrite E1. reflexivity.
Defined.

(** ** Along the runs of the server *)

(** X17: in every state that the server reaches, the user of a session
    exists, and the user of an authenticated session is registered and
    online: the MSG, PM and LIST cases, which run only for authenticated
    sessions, never find a nil user. *)
Theorem X17_authenticated_sessions_have_users
    (clock : nat -> Z) (generate : nat -> string -> option string)
    (compare : string -> string -> bool) (σ : Server) (c : conn) (h : Handler) :
  (forall n password d, generate n password = Some d -> d <> "") ->
  reachable clock generate compare σ ->
  handlers σ !! c = Some h ->
  (forall a, sessUser (session h) = Some a -> is_Some (heap (world σ) !! a))
  /\ (Authenticated (session h) = true ->
      exists a u, sessUser (session h) = Some a /\ heap (world σ) !! a = Some u
                  /\ PasswordHash u <> "" /\ Online u = true).
Proof.
  intros Hgen Hreach Hc.
  destruct (reachable_ok clock generate compare Hgen σ Hreach) as (_ & Hs).
  exact (proj1 (Hs c h Hc)).
Qed.

(** X18: in every state that the server reaches, every entry of the
    registry points to a user that has a password digest, and no user is a
    ghost (nothing ever sets the flag).  The digest is assigned before the
    user is appended, and no digest is ever emptied. *)
Theorem X18_registry_entries_have_digests
    (clock : nat -> Z) (generate : nat -> string -> option string)
    (compare : string -> string -> bool) (σ : Server) :
  (forall n password d, generate n password = Some d -> d <> "") ->
  reachable clock generate compare σ ->
  registryValid (world σ)
  /\ (forall a, a ∈ users (world σ) ->
        exists u, heap (world σ) !! a = Some u /\ PasswordHash u <> "")
  /\ (forall a u, heap (world σ) !! a = Some u -> Ghost u = false).
Proof.
  intros Hgen Hreach.
  destruct (reachable_ok clock generate compare Hgen σ Hreach) as ([Hus Hgh] & _).
  split; [|split].
  - apply Forall_forall. intros p Hp. destruct (Hus p Hp) as (u & Hu & _). eauto.
  - exact Hus.
  - exact Hgh.
Qed.

(** X19: the server forgets nothing.  From a reachable state on, whatever
    happens, every user stays where it is, a registered user stays
    registered and an online user stays online, also when its last session
    is gone: nothing ever clears [Online]. *)
Theorem X19_online_and_registered_for_good
    (clock : nat -> Z) (generate : nat -> string -> option string)
    (compare : string -> string -> bool)
    (σ σ' : Server) (events : list Event) (a : ptr) (u : User) :
  (forall n password d, generate n password = Some d -> d <> "") ->
  reachable clock generate compare σ ->
  run clock generate compare σ events = Some σ' ->
  heap (world σ) !! a = Some u ->
  exists u', heap (world σ') !! a = Some u'
             /\ (PasswordHash u <> "" -> PasswordHash u' <> "")
             /\ (Online u = true -> Online u' = true).
Proof.
  intros Hgen Hreach Hrun Ha.
  pose proof (reachable_ok clock generate compare Hgen σ Hreach) as Hok.
  exact (proj2 (run_server_ok clock generate compare Hgen events σ σ' Hok Hrun) a u Ha).
Qed.

Lemma serverOnline_reachable : reachable demoClock demoGenerate demoCompare serverOnline.
Proof. exists aliceOnline. vm_compute. reflexivity. Defined.

Lemma X17_authenticated_sessions_have_users_witness :
  reachable demoClock demoGenerate demoCompare serverOnline
  /\ (exists h, handlers serverOnline !! 0%nat = Some h
        /\ Authenticated (session h) = true
        /\ exists a u, sessUser (session h) = Some a
             /\ heap (world serverOnline) !! a = Some u
             /\ PasswordHash u <> "" /\ Online u = true).
Proof.
  split; [exact serverOnline_reachable|].
  eexists. split; [vm_compute; reflexivity|]. split; [reflexivity|].
  eapply (X17_authenticated_sessions_have_users demoClock demoGenerate demoCompare
            serverOnline 0%nat _ demoGenerate_nonempty serverOnline_reachable).
  - vm_compute. reflexivity.
  - reflexivity.
Defined.

Lemma X18_registry_entries_have_digests_witness :
  reachable demoClock demoGenerate demoCompare serverOnline
  /\ registryValid (world serverOnline)
  /\ users (world serverOnline) = [0%nat]
  /\ exists u, heap (world serverOnline) !! 0%nat = Some u /\ PasswordHash u <> "".
Proof.
  destruct (X18_registry_entries_have_digests demoClock demoGenerate demoCompare
              serverOnline demoGenerate_nonempty serverOnline_reachable)
    as (Hvalid & Hdigest & _).
  split; [exact serverOnline_reachable|]. split; [exact Hvalid|].
  split; [reflexivity|]. apply Hdigest. vm_compute. apply list_elem_of_here.
Defined.

Lemma X19_online_and_registered_for_good_witness :
  reachable demoClock demoGenerate demoCompare serverOnline
  /\ run demoClock demoGenerate demoCompare serverOnline aliceLeaves = Some serverLeft
  /\ exists u u',
       heap (world serverOnline) !! 0%nat = Some u /\ Online u = true
       /\ heap (world serverLeft) !! 0%nat = Some u'
       /\ Sessions u' = [] /\ Online u' = true.
Proof.
  assert (Hrun : run demoClock demoGenerate demoCompare serverOnline aliceLeaves
                 = Some serverLeft) by (vm_compute; reflexivity).
  split; [exact serverOnline_reachable|]. split; [exact Hrun|].
  eexists. 
  assert (Ha : heap (world serverOnline) !! 0%nat
               = Some (mkUser "alice" "$2a$secret" ""
                         [mkSession (Some 0%nat) false 0%nat 1700000000 1700000001
                            "0.0.0.0:100" "10.0.0.7:4000"]
                         true false false false false false [] "" false))
    by reflexivity.
  destruct (X19_online_and_registered_for_good demoClock demoGenerate demoCompare
              serverOnline serverLeft aliceLeaves 0%nat _
              demoGenerate_nonempty serverOnline_reachable Hrun Ha) as (u' & H1 & _ & H3).
  exists u'. split; [exact Ha|]. split; [reflexivity|]. split; [exact H1|].
  split; [|exact (H3 eq_refl)].
  vm_compute in H1. injection H1 as <-. reflexivity.
Defined.

(** ** JOIN, and the names that do not exist or are taken *)

Lemma userExists_after_alloc (name : string) (w : World) (nu : User) (ops : list SockOp) :
  registryValid w ->
  userExists name (emitAll ops (tick (setHeap (heap w ++ [nu]) w))) = userExists name w.
Proof.
  intros H. unfold userExists.
  change (users (emitAll ops (tick (setHeap (heap w ++ [nu]) w)))) with (users w).
  apply userExistsLoop_frame.
  apply (registry_valid_after_alloc w (registryUsers w) nu).
  now apply registryValid_registry.
Qed.

(** X20: a JOIN record under a name that no registered user has creates a
    candidate user with that name, the second argument as its tagline and no
    digest, makes it the user of the session, and answers with a PING and the
    prompt to register; the registry is unchanged: joining registers
    nothing. *)
Theorem X20_join_creates_candidate
    (clock : nat -> Z) (generate : nat -> string -> option string)
    (compare : string -> string -> bool)
    (s : Session) (w : World) (name : string) (rest : list string) :
  mayJoin s w -> registryValid w -> userExists name w = Ok false ->
  dispatch clock generate compare s "JOIN" (name :: rest) w
  = Ok (setSessUser (Some (length (heap w))) s,
        mkWorld (heap w ++ [candidate name rest]) (users w)
          (wire w ++ [SWrite (Socket s) (record ["PING"; runeString (clock (ticks w))]);
                      SWrite (Socket s)
                        (authRecord "You must register a password to attach to your username to continue. Ex: [u]/auth MyNewPassword[/u]")])
          (S (ticks w))).
Proof.
  intros Hjoin Hreg Hfree.
  change (dispatch clock generate compare s "JOIN" (name :: rest) w)
    with (caseJOIN clock s (name :: rest) w).
  unfold caseJOIN.
  assert (Hon : match sessUser s with
                | Some _ => u ← deref (sessUser s) w; Ok (Online u)
                | None => Ok false
                end = Ok false).
  { destruct Hjoin as [->|(b & v & Hb & Hv & Ho)]; [reflexivity|].
    rewrite Hb, (deref_Some _ _ _ Hv), bind_Ok. now rewrite Ho. }
  rewrite Hon, bind_Ok.
  change (alloc _ w) with (length (heap w), setHeap (heap w ++ [candidate name rest]) w).
  cbv beta iota zeta.
  set (s1 := setSessUser (Some (length (heap w))) s).
  change (Ping s1 (runeString (clock (ticks (setHeap (heap w ++ [candidate name rest]) w))))
            (tick (setHeap (heap w ++ [candidate name rest]) w)))
    with (emitAll [SWrite (Socket s) (Join ["PING"; runeString (clock (ticks w))] SOH ++ CRLF)]
            (tick (setHeap (heap w ++ [candidate name rest]) w))).
  rewrite (userExists_after_alloc name w _ _ Hreg), Hfree, bind_Ok.
  unfold SendAuthMsg, Write. rewrite emit_emitAll. reflexivity.
Qed.

Lemma X20_join_creates_candidate_witness :
  mayJoin freshSession demoWorld /\ registryValid demoWorld
  /\ userExists "dave" demoWorld = Ok false
  /\ (r ← dispatch demoClock demoGenerate demoCompare freshSession "JOIN"
            ["dave"; "hello there"] demoWorld;
      Ok (sessUser (fst r), users (snd r), heap (snd r) !! 4%nat))
     = Ok (Some 4%nat, [0; 1; 2; 3]%nat, Some (setAbout "hello there" (newUser "dave"))).
Proof.
  assert (Hjoin : mayJoin freshSession demoWorld) by (left; reflexivity).
  split; [exact Hjoin|]. split; [exact demoWorld_valid|]. split; [reflexivity|].
  rewrite (X20_join_creates_candidate demoClock demoGenerate demoCompare
             freshSession demoWorld "dave" ["hello there"] Hjoin demoWorld_valid eq_refl).
  reflexivity.
Defined.

(** X21: a PM, RAW or INFO record for a name that no registered user has is
    answered to the requester alone with [The user <name> does not exist.];
    nothing is queued, nothing forwarded, no user changes. *)
Theorem X21_unknown_target_reported
    (clock : nat -> Z) (generate : nat -> string -> option string)
    (compare : string -> string -> bool)
    (s : Session) (w : World) (a : ptr) (u : User)
    (target payload : string) (rest : list string) :
  Authenticated s = true -> sessUser s = Some a -> heap w !! a = Some u ->
  Online u = true -> userExists target w = Ok false ->
  let reply := emit (SWrite (Socket s)
                       (serverRecord ("The user " ++ target ++ " does not exist."))) w in
  dispatch clock generate compare s "PM" (target :: payload :: rest) w = Ok (s, reply)
  /\ dispatch clock generate compare s "RAW" (target :: payload :: rest) w = Ok (s, reply)
  /\ dispatch clock generate compare s "INFO" (target :: rest) w = Ok (s, reply).
Proof.
  intros Hauth Hs Ha Hon Hfree reply.
  change (dispatch clock generate compare s "PM" (target :: payload :: rest) w)
    with (casePM s (target :: payload :: rest) w).
  change (dispatch clock generate compare s "RAW" (target :: payload :: rest) w)
    with (caseRAW s (target :: payload :: rest) w).
  change (dispatch clock generate compare s "INFO" (target :: rest) w)
    with (caseINFO s (target :: rest) w).
  unfold casePM, caseRAW, caseINFO.
  rewrite Hauth, Hs, (deref_Some _ _ _ Ha), !bind_Ok, Hon, Hfree, !bind_Ok.
  cbn [negb]. auto.
Qed.

Lemma X21_unknown_target_reported_witness :
  userExists "nobody" demoWorld = Ok false
  /\ dispatch demoClock demoGenerate demoCompare sessionBob "PM" ["nobody"; "hi"] demoWorld
     = Ok (sessionBob,
           emit (SWrite 2%nat (serverRecord "The user nobody does not exist.")) demoWorld).
Proof.
  split; [reflexivity|].
  exact (proj1 (X21_unknown_target_reported demoClock demoGenerate demoCompare
                  sessionBob demoWorld 3%nat _ "nobody" "hi" []
                  eq_refl eq_refl eq_refl eq_refl eq_refl)).
Defined.

(** X22: a NAME record towards a name that a registered user has is
    refused: no user is renamed, and the session is told that a name is
    taken, in which the server quotes the old name of the user, not the one
    that was asked for. *)
Theorem X22_rename_to_taken_name_refused
    (clock : nat -> Z) (generate : nat -> string -> option string)
    (compare : string -> string -> bool)
    (s : Session) (w : World) (a : ptr) (u : User)
    (new : string) (rest : list string) :
  sessUser s = Some a -> heap w !! a = Some u -> userExists new w = Ok true ->
  dispatch clock generate compare s "NAME" (Username u :: new :: rest) w
  = Ok (s, emit (SWrite (Socket s)
                   ((if Authenticated s then serverRecord else authRecord)
                      ("The username " ++ Username u ++ " is already taken."))) w).
Proof.
  intros Hs Ha Hex.
  change (dispatch clock generate compare s "NAME" (Username u :: new :: rest) w)
    with (caseNAME s (Username u :: new :: rest) w).
  unfold caseNAME. rewrite Hs, (deref_Some _ _ _ Ha), bind_Ok, String.eqb_refl.
  cbn [negb]. rewrite Hex, bind_Ok. destruct (Authenticated s); reflexivity.
Qed.

Lemma X22_rename_to_taken_name_refused_witness :
  userExists "alice" demoWorld = Ok true
  /\ dispatch demoClock demoGenerate demoCompare sessionBob "NAME" ["bob"; "alice"] demoWorld
     = Ok (sessionBob,
           emit (SWrite 2%nat (serverRecord "The username bob is already taken.")) demoWorld).
Proof.
  split; [reflexivity|].
  exact (X22_rename_to_taken_name_refused demoClock demoGenerate demoCompare
           sessionBob demoWorld 3%nat _ "alice" [] eq_refl eq_refl eq_refl).
Defined.

(** ** The legacy server *)

Lemma legacy_get (st : LegacyHandler.State) (p : ptr) (c : Legacy.Client) :
  LegacyHandler.objects st !! p = Some c -> LegacyHandler.get st p = Ok c.
Proof. intros H. unfold LegacyHandler.get. now rewrite H. Qed.

Lemma legacy_update (st : LegacyHandler.State) (p : ptr) (c : Legacy.Client)
    (f : Legacy.Client -> Legacy.Client) :
  LegacyHandler.objects st !! p = Some c ->
  LegacyHandler.update p f st
  = Ok (LegacyHandler.setObjects (<[p := f c]> (LegacyHandler.objects st)) st).
Proof. intros H. unfold LegacyHandler.update. now rewrite H. Qed.

Lemma legacy_updated (st : LegacyHandler.State) (p : ptr) (c v : Legacy.Client) :
  LegacyHandler.objects st !! p = Some c ->
  LegacyHandler.objects
    (LegacyHandler.setObjects (<[p := v]> (LegacyHandler.objects st)) st) !! p = Some v.
Proof.
  intros H. cbn. apply list_lookup_insert_eq. eapply lookup_lt_Some; eauto.
Qed.

(** X23: in the legacy server a JOIN record with exactly one argument, the
    user name alone, panics: after the name is stored, the second test
    [len(args) < 3] holds too and reads [args[1]], which is out of range. *)
Theorem X23_legacy_join_without_agent_panics
    (me : ptr) (st : LegacyHandler.State) (client : Legacy.Client) (name : string) :
  LegacyHandler.objects st !! me = Some client ->
  Legacy.Online client = false ->
  hasByte SOHbyte name = false ->
  LegacyHandler.dispatch me "JOIN" [name] st = Panic
  /\ LegacyHandler.handlePacket me (Join ["JOIN"; name] SOH) st = Panic.
Proof.
  intros Hme Hoff Hname.
  assert (E : LegacyHandler.dispatch me "JOIN" [name] st = Panic).
  { change (LegacyHandler.dispatch me "JOIN" [name] st)
      with (LegacyHandler.caseJOIN me [name] st).
    unfold LegacyHandler.caseJOIN. rewrite (legacy_get st me client Hme), bind_Ok, Hoff.
    cbn [length Nat.ltb Nat.leb].
    rewrite (legacy_update st me client _ Hme), bind_Ok.
    erewrite legacy_update by (apply (legacy_updated st me client _ Hme)).
    reflexivity. }
  split; [exact E|].
  unfold LegacyHandler.handlePacket.
  change (Join ["JOIN"; name] SOH =? "")%string with false. cbv iota.
  rewrite Split_Join_SOH; [exact E | discriminate|].
  constructor; [reflexivity|]. constructor; [exact Hname | constructor].
Qed.

Lemma X23_legacy_join_without_agent_panics_witness :
  LegacyHandler.objects legacyState !! 2%nat = Some legacyNew
  /\ LegacyHandler.handleRead 2%nat (record ["JOIN"; "carl"]) legacyState = Panic.
Proof.
  split; [reflexivity|].
  destruct (X23_legacy_join_without_agent_panics 2%nat legacyState legacyNew "carl"
              eq_refl eq_refl eq_refl) as [_ H].
  unfold LegacyHandler.handleRead.
  change (Split (record ["JOIN"; "carl"]) CRLF) with [Join ["JOIN"; "carl"] SOH; ""].
  cbn [String.length record Nat.leb LegacyHandler.handlePackets].
  change (String.length (Join ["JOIN"; "carl"] SOH ++ CRLF) <=? 0)%nat with false.
  cbv iota. cbn [LegacyHandler.handlePackets]. rewrite H. reflexivity.
Defined.

Lemma legacy_sendLoop (opcode fromUsername toUsername msg : string)
    (cs : list Legacy.Client) (wire : list SockOp) :
  LegacyHandler.sendLoop opcode fromUsername toUsername msg cs wire
  = match List.find (fun c => (Legacy.Username c =? toUsername)%string) cs with
    | Some c => (wire ++ [SWrite (Legacy.Socket c)
                            (opcode ++ SOH ++ fromUsername ++ SOH ++ msg ++ CRLF)])%list
    | None => wire
    end.
Proof.
  induction cs as [|c cs IH]; cbn [LegacyHandler.sendLoop List.find]; [reflexivity|].
  destruct (Legacy.Username c =? toUsername)%string; [reflexivity | exact IH].
Qed.

(** X24: the legacy [sendMsg] and [sendPM] write one record, to the first
    client of [clients] that has the target name and to no other client of
    that name, and nothing when no client has it. *)
Theorem X24_legacy_send_reaches_first_of_name
    (cs : list Legacy.Client) (fromUsername toUsername msg : string) (wire : list SockOp) :
  let target := List.find (fun c => (Legacy.Username c =? toUsername)%string) cs in
  LegacyHandler.sendMsg cs fromUsername toUsername msg wire
  = match target with
    | Some c => (wire ++ [SWrite (Legacy.Socket c)
                            ("MSG" ++ SOH ++ fromUsername ++ SOH ++ msg ++ CRLF)])%list
    | None => wire
    end
  /\ LegacyHandler.sendPM cs fromUsername toUsername msg wire
     = match target with
       | Some c => (wire ++ [SWrite (Legacy.Socket c)
                               ("PM" ++ SOH ++ fromUsername ++ SOH ++ msg ++ CRLF)])%list
       | None => wire
       end.
Proof.
  intros target. unfold LegacyHandler.sendMsg, LegacyHandler.sendPM, target.
  destruct cs as [|c cs]; [split; reflexivity|].
  cbn [length Nat.ltb Nat.leb]. split; apply legacy_sendLoop.
Qed.

Lemma legacy_kickLoop (st : LegacyHandler.State) (addr : string) (ps : list ptr) :
  Forall (fun p => is_Some (LegacyHandler.objects st !! p)) ps ->
  LegacyHandler.kickLoop st addr ps = Ok (elsewhere st addr ps).
Proof.
  unfold elsewhere.
  induction 1 as [|p ps (d & Hp) _ IH]; cbn [LegacyHandler.kickLoop List.filter];
    [reflexivity|].
  rewrite (legacy_get st p d Hp), bind_Ok, IH, bind_Ok, Hp.
  destruct (addr =? Legacy.RemoteAddr d)%string; reflexivity.
Qed.

Lemma legacy_kick (me : ptr) (st : LegacyHandler.State) (client : Legacy.Client) :
  LegacyHandler.objects st !! me = Some client -> clientsValid st ->
  LegacyHandler.clients st <> [] ->
  LegacyHandler.kickClient me st
  = Ok (LegacyHandler.mkState (LegacyHandler.objects st)
          (elsewhere st (Legacy.RemoteAddr client) (LegacyHandler.clients st))
          (LegacyHandler.trace st ++ [SClose (Legacy.Socket client)])).
Proof.
  intros Hme Hvalid Hne.
  assert (Hlen : (length (LegacyHandler.clients st) <? 1)%nat = false).
  { destruct (LegacyHandler.clients st); [congruence | reflexivity]. }
  unfold LegacyHandler.kickClient. rewrite Hlen, (legacy_get st me client Hme), bind_Ok.
  rewrite (legacy_kickLoop st _ _ Hvalid), bind_Ok. reflexivity.
Qed.

(** X25: the legacy [kickClient] takes every client with the remote address
    of the kicked one off [clients], keeps the others in their order, and
    closes the socket; [killClient] writes one KILL record before that.
    When [clients] is empty both return at once: nothing is written and the
    socket is not closed. *)
Theorem X25_legacy_kick_and_kill
    (me : ptr) (st : LegacyHandler.State) (client : Legacy.Client) (reason : string) :
  LegacyHandler.objects st !! me = Some client -> clientsValid st ->
  let rest := elsewhere st (Legacy.RemoteAddr client) (LegacyHandler.clients st) in
  let kill := if (reason =? "")%string then "KILL" ++ CRLF
              else "KILL" ++ SOH ++ reason ++ CRLF in
  (LegacyHandler.clients st = [] ->
   LegacyHandler.kickClient me st = Ok st /\ LegacyHandler.killClient me reason st = Ok st)
  /\ (LegacyHandler.clients st <> [] ->
      LegacyHandler.kickClient me st
      = Ok (LegacyHandler.mkState (LegacyHandler.objects st) rest
              (LegacyHandler.trace st ++ [SClose (Legacy.Socket client)]))
      /\ LegacyHandler.killClient me reason st
         = Ok (LegacyHandler.mkState (LegacyHandler.objects st) rest
                 (LegacyHandler.trace st ++ [SWrite (Legacy.Socket client) kill;
                                             SClose (Legacy.Socket client)]))).
Proof.
  intros Hme Hvalid rest kill. split.
  - intros E. unfold LegacyHandler.kickClient, LegacyHandler.killClient. rewrite E.
    split; reflexivity.
  - intros Hne.
    assert (Hlen : (length (LegacyHandler.clients st) <? 1)%nat = false).
    { destruct (LegacyHandler.clients st); [congruence | reflexivity]. }
    split; [apply (legacy_kick me st client Hme Hvalid Hne)|].
    unfold LegacyHandler.killClient. rewrite Hlen, (legacy_get st me client Hme), bind_Ok.
    set (st1 := if (reason =? "")%string then _ else _).
    assert (E1 : st1 = LegacyHandler.call (SWrite (Legacy.Socket client) kill) st).
    { unfold st1, kill. destruct (reason =? "")%string; reflexivity. }
    rewrite E1.
    rewrite (legacy_kick me (LegacyHandler.call _ st) client Hme Hvalid Hne).
    unfold LegacyHandler.call, LegacyHandler.setTrace, elsewhere.
    cbn [LegacyHandler.objects LegacyHandler.clients LegacyHandler.trace].
    rewrite <- List.app_assoc. reflexivity.
Qed.

Lemma legacyState_valid : clientsValid legacyState.
Proof. repeat constructor; eexists; reflexivity. Defined.

Lemma X25_legacy_kick_and_kill_witness :
  clientsValid legacyState
  /\ LegacyHandler.killClient 1%nat "Username is already in use." legacyState
     = Ok (LegacyHandler.mkState [legacyAnn; legacyBen; legacyNew] [0; 2]%nat
             [SWrite 1%nat ("KILL" ++ SOH ++ "Username is already in use." ++ CRLF);
              SClose 1%nat])
  /\ LegacyHandler.kickClient 0%nat (LegacyHandler.mkState [legacyAnn] [] [])
     = Ok (LegacyHandler.mkState [legacyAnn] [] []).
Proof.
  destruct (X25_legacy_kick_and_kill 1%nat legacyState legacyBen
              "Username is already in use." eq_refl legacyState_valid) as [_ H].
  destruct (X25_legacy_kick_and_kill 0%nat (LegacyHandler.mkState [legacyAnn] [] [])
              legacyAnn "" eq_refl ltac:(constructor)) as [H0 _].
  split; [exact legacyState_valid|]. split.
  - exact (proj2 (H ltac:(discriminate))).
  - exact (proj1 (H0 eq_refl)).
Defined.

Lemma legacy_listLoop (cs : list Legacy.Client) :
  forall users,
    LegacyHandler.listLoop cs users
    = (users ++ map legacyEntry (List.filter legacyListed cs))%list.
Proof.
  induction cs as [|c cs IH]; intros users; cbn [LegacyHandler.listLoop List.filter map].
  - now rewrite app_nil_r.
  - unfold legacyListed at 1.
    destruct (Legacy.Ghost c), (Legacy.Online c); cbn [negb andb map]; rewrite IH;
      try reflexivity.
    rewrite <- List.app_assoc. cbn [app]. do 2 f_equal.
    unfold legacyEntry, LegacyHandler.clientFlags.
    destruct (Legacy.Mute c), (Legacy.Admin c), (Legacy.Root c), (Legacy.Away c);
      reflexivity.
Qed.

(** X26: the legacy [sendList] writes [LIST<SOH>] followed by the entries
    [[<flags>] username - useragent] of the clients that are online and not
    ghost, in the order of [clients]; with no client at all it writes
    nothing. *)
Theorem X26_legacy_roster
    (cs : list Legacy.Client) (c : conn) (wire : list SockOp) :
  LegacyHandler.sendList cs c wire
  = match cs with
    | [] => wire
    | _ => (wire ++ [SWrite c ("LIST" ++ SOH
                               ++ Join (map legacyEntry (List.filter legacyListed cs)) SOH
                               ++ CRLF)])%list
    end.
Proof.
  unfold LegacyHandler.sendList. destruct cs as [|d cs]; [reflexivity|].
  cbn [length Nat.ltb Nat.leb]. now rewrite legacy_listLoop.
Qed.

Lemma legacy_kill (me : ptr) (st : LegacyHandler.State) (client : Legacy.Client)
    (reason : string) :
  LegacyHandler.objects st !! me = Some client -> clientsValid st ->
  LegacyHandler.clients st <> [] -> reason <> "" ->
  LegacyHandler.killClient me reason st
  = Ok (LegacyHandler.mkState (LegacyHandler.objects st)
          (elsewhere st (Legacy.RemoteAddr client) (LegacyHandler.clients st))
          (LegacyHandler.trace st
             ++ [SWrite (Legacy.Socket client) ("KILL" ++ SOH ++ reason ++ CRLF);
                 SClose (Legacy.Socket client)])).
Proof.
  intros Hme Hvalid Hne Hreason.
  assert (Hlen : (length (LegacyHandler.clients st) <? 1)%nat = false).
  { destruct (LegacyHandler.clients st); [congruence | reflexivity]. }
  unfold LegacyHandler.killClient. rewrite Hlen, (legacy_get st me client Hme), bind_Ok.
  apply String.eqb_neq in Hreason. rewrite Hreason.
  rewrite (legacy_kick me (LegacyHandler.call _ st) client Hme Hvalid Hne).
  unfold LegacyHandler.call, LegacyHandler.setTrace, elsewhere.
  cbn [LegacyHandler.objects LegacyHandler.clients LegacyHandler.trace].
  rewrite <- List.app_assoc. reflexivity.
Qed.

Lemma legacy_getAll (st : LegacyHandler.State) (ps : list ptr) :
  Forall (fun p => is_Some (LegacyHandler.objects st !! p)) ps ->
  exists cs, LegacyHandler.getAll st ps = Ok cs
             /\ Forall2 (fun p c => LegacyHandler.objects st !! p = Some c) ps cs.
Proof.
  induction 1 as [|p ps (c & Hp) _ (cs & E & H2)]; cbn [LegacyHandler.getAll].
  - exists []. split; [reflexivity | constructor].
  - exists (c :: cs). rewrite (legacy_get st p c Hp), bind_Ok, E, bind_Ok.
    split; [reflexivity | now constructor].
Qed.

Lemma elsewhere_same_addresses (st st' : LegacyHandler.State) (addr : string)
    (ps : list ptr) :
  (forall p d, LegacyHandler.objects st !! p = Some d ->
     exists d', LegacyHandler.objects st' !! p = Some d'
                /\ Legacy.RemoteAddr d' = Legacy.RemoteAddr d) ->
  Forall (fun p => is_Some (LegacyHandler.objects st !! p)) ps ->
  elsewhere st' addr ps = elsewhere st addr ps.
Proof.
  intros Hsame. unfold elsewhere.
  induction 1 as [|p ps (d & Hp) _ IH]; cbn [List.filter]; [reflexivity|].
  destruct (Hsame p d Hp) as (d' & Hp' & Haddr).
  now rewrite Hp, Hp', Haddr, IH.
Qed.

(** X27: in the legacy server a JOIN record with a name and a user agent is
    refused when a client at another remote address carries the name: the
    joiner is sent [KILL<SOH>Username is already in use.], is taken off
    [clients] with every client at its address, its socket is closed and its
    handler returns.  Its own record has taken the name and the user agent
    by then. *)
Theorem X27_legacy_join_name_in_use
    (me q : ptr) (st : LegacyHandler.State) (client other : Legacy.Client)
    (name agent : string) :
  LegacyHandler.objects st !! me = Some client -> Legacy.Online client = false ->
  clientsValid st ->
  q ∈ LegacyHandler.clients st -> LegacyHandler.objects st !! q = Some other ->
  Legacy.Username other = name ->
  Legacy.RemoteAddr other <> Legacy.RemoteAddr client ->
  LegacyHandler.dispatch me "JOIN" [name; agent] st
  = Ok (LegacyHandler.Return
          (LegacyHandler.mkState
             (<[me := LegacyHandler.setUserAgent agent
                        (LegacyHandler.setUsername name client)]> (LegacyHandler.objects st))
             (elsewhere st (Legacy.RemoteAddr client) (LegacyHandler.clients st))
             (LegacyHandler.trace st
                ++ [SWrite (Legacy.Socket client)
                      ("KILL" ++ SOH ++ "Username is already in use." ++ CRLF);
                    SClose (Legacy.Socket client)]))).
Proof.
  intros Hme Hoff Hvalid Hq Hother Hname Haddr.
  change (LegacyHandler.dispatch me "JOIN" [name; agent] st)
    with (LegacyHandler.caseJOIN me [name; agent] st).
  unfold LegacyHandler.caseJOIN. rewrite (legacy_get st me client Hme), bind_Ok, Hoff.
  cbn [length Nat.ltb Nat.leb]. rewrite bind_Ok.
  rewrite (legacy_update st me client _ Hme), bind_Ok.
  set (c1 := LegacyHandler.setUsername name client).
  set (st1 := LegacyHandler.setObjects (<[me:=c1]> (LegacyHandler.objects st)) st).
  pose proof (legacy_updated st me client c1 Hme) as Hme1. fold st1 in Hme1.
  rewrite (legacy_update st1 me c1 _ Hme1), bind_Ok.
  set (joined := LegacyHandler.setUserAgent agent c1).
  set (st2 := LegacyHandler.setObjects (<[me:=joined]> (LegacyHandler.objects st1)) st1).
  pose proof (legacy_updated st1 me c1 joined Hme1) as Hme2. fold st2 in Hme2.
  assert (Hobj : LegacyHandler.objects st2 = <[me:=joined]> (LegacyHandler.objects st)).
  { unfold st2, st1. cbn. now rewrite list_insert_insert_eq. }
  assert (Hqme : q <> me).
  { intros ->. apply Haddr. congruence. }
  assert (Hother2 : LegacyHandler.objects st2 !! q = Some other).
  { rewrite Hobj. rewrite list_lookup_insert_ne by congruence. exact Hother. }
  assert (Hvalid2 : clientsValid st2).
  { unfold clientsValid. change (LegacyHandler.clients st2) with (LegacyHandler.clients st).
    eapply Forall_impl; [exact Hvalid|]. intros p Hp. rewrite Hobj.
    now apply list_lookup_insert_is_Some. }
  rewrite (legacy_get st2 me joined Hme2), bind_Ok.
  destruct (legacy_getAll st2 _ Hvalid2) as (cs & -> & Hcs). rewrite bind_Ok.
  assert (Hex : existsb (fun otherClient =>
                   (Legacy.Username joined =? Legacy.Username otherClient)%string
                   && negb (Legacy.RemoteAddr joined =? Legacy.RemoteAddr otherClient)%string)
                  cs = true).
  { apply existsb_exists. exists other. split.
    - change (LegacyHandler.clients st2) with (LegacyHandler.clients st) in Hcs.
      apply list_elem_of_In.
      apply list_elem_of_lookup in Hq as (i & Hi).
      destruct (Forall2_lookup_l _ _ _ _ _ Hcs Hi) as (c & Hc & Hpc).
      assert (c = other) as -> by congruence.
      apply list_elem_of_lookup. eauto.
    - cbn [Legacy.Username Legacy.RemoteAddr joined c1 LegacyHandler.setUserAgent
             LegacyHandler.setUsername].
      rewrite Hname, String.eqb_refl. cbn [andb].
      apply negb_true_iff, String.eqb_neq. congruence. }
  rewrite Hex.
  assert (Hne : LegacyHandler.clients st2 <> []).
  { change (LegacyHandler.clients st2) with (LegacyHandler.clients st).
    intros E. rewrite E in Hq. inversion Hq. }
  assert (Hreason : "Username is already in use." <> "") by discriminate.
  rewrite (legacy_kill me st2 joined _ Hme2 Hvalid2 Hne Hreason), bind_Ok.
  do 2 f_equal.
  change (LegacyHandler.clients st2) with (LegacyHandler.clients st).
  change (LegacyHandler.trace st2) with (LegacyHandler.trace st).
  rewrite Hobj. f_equal.
  apply elsewhere_same_addresses; [|exact Hvalid].
  intros p d Hp. rewrite Hobj. destruct (decide (p = me)) as [->|Hpm].
  - exists joined. rewrite list_lookup_insert_eq by (eapply lookup_lt_Some; eauto).
    split; [reflexivity|]. assert (d = client) as -> by congruence. reflexivity.
  - exists d. rewrite list_lookup_insert_ne by congruence. auto.
Qed.

Lemma X27_legacy_join_name_in_use_witness :
  clientsValid legacyState
  /\ LegacyHandler.dispatch 2%nat "JOIN" ["ann"; "kChat 3"] legacyState
     = Ok (LegacyHandler.Return
             (LegacyHandler.mkState
                [legacyAnn; legacyBen;
                 LegacyHandler.setUserAgent "kChat 3"
                   (LegacyHandler.setUsername "ann" legacyNew)]
                [0; 1]%nat
                [SWrite 2%nat ("KILL" ++ SOH ++ "Username is already in use." ++ CRLF);
                 SClose 2%nat])).
Proof.
  split; [exact legacyState_valid|].
  apply (X27_legacy_join_name_in_use 2%nat 0%nat legacyState legacyNew legacyAnn
           "ann" "kChat 3" eq_refl eq_refl legacyState_valid).
  - apply list_elem_of_In. cbn. tauto.
  - reflexivity.
  - reflexivity.
  - discriminate.
Defined.

(** ** INFO and the change of password *)

Lemma userInfoText_untrimmed (user : User) :
  TrimPrefix (userInfoText user) "%%n%%" = userInfoText user.
Proof.
  unfold TrimPrefix.
  assert (E : String.prefix "%%n%%" (userInfoText user) = false); [|now rewrite E].
  unfold userInfoText. destruct (negb (AwayReason user =? "")%string); reflexivity.
Qed.

(** X28: an INFO record about a registered user is answered to the
    requester with the status text of that user, untrimmed (the prefix that
    the code tries to cut never occurs); the requester's user must be
    online, the session need not be authenticated, and nothing changes. *)
Theorem X28_info_reports_status
    (clock : nat -> Z) (generate : nat -> string -> option string)
    (compare : string -> string -> bool)
    (s : Session) (w : World) (a p : ptr) (u user : User)
    (target : string) (rest : list string) :
  sessUser s = Some a -> heap w !! a = Some u -> Online u = true ->
  getUser target w = Ok (Some p) -> heap w !! p = Some user ->
  dispatch clock generate compare s "INFO" (target :: rest) w
  = Ok (s, emit (SWrite (Socket s) (infoRecord (userInfoText user))) w).
Proof.
  intros Hs Ha Hon Hget Hp.
  destruct (getUserLoop_found target (users w) w p Hget) as (Hex & _).
  change (dispatch clock generate compare s "INFO" (target :: rest) w)
    with (caseINFO s (target :: rest) w).
  unfold caseINFO. rewrite Hs, (deref_Some _ _ _ Ha), bind_Ok, Hon. cbn [negb].
  unfold userExists. rewrite Hex, bind_Ok. cbn [negb].
  rewrite Hget, bind_Ok, (deref_Some _ _ _ Hp), bind_Ok, userInfoText_untrimmed.
  reflexivity.
Qed.

Lemma X28_info_reports_status_witness :
  getUser "bob" demoWorld = Ok (Some 3%nat)
  /\ dispatch demoClock demoGenerate demoCompare
       (mkSession (Some 0%nat) false 5%nat 0 0 "0.0.0.0:100" "10.0.0.66:4000")
       "INFO" ["bob"] demoWorld
     = Ok (mkSession (Some 0%nat) false 5%nat 0 0 "0.0.0.0:100" "10.0.0.66:4000",
           emit (SWrite 5%nat
                   (infoRecord
                      "Info for user bob:%n%Online: true%n%Away: false%n%Muted: true%n%Admin: false%n%Root: false%n%"))
             demoWorld).
Proof.
  split; [reflexivity|].
  exact (X28_info_reports_status demoClock demoGenerate demoCompare
           (mkSession (Some 0%nat) false 5%nat 0 0 "0.0.0.0:100" "10.0.0.66:4000")
           demoWorld 0%nat 3%nat _ _ "bob" [] eq_refl eq_refl eq_refl eq_refl eq_refl).
Defined.

(** X29: on an authenticated session an AUTH record is a change of
    password: the digest of the new password replaces the old one, which is
    not asked for, and the session is told so; nothing else of the user
    changes and the session is not attached a second time.  When the hashing
    fails the digest stays and the session is told to try again. *)
Theorem X29_auth_again_changes_password
    (clock : nat -> Z) (generate : nat -> string -> option string)
    (compare : string -> string -> bool)
    (s : Session) (w : World) (a : ptr) (u : User)
    (password : string) (rest : list string) :
  Authenticated s = true -> sessUser s = Some a -> heap w !! a = Some u ->
  dispatch clock generate compare s "AUTH" (password :: rest) w
  = Ok (s, match generate (ticks w) password with
           | Some h =>
               mkWorld (<[a := setPasswordHash h u]> (heap w)) (users w)
                 (wire w ++ [SWrite (Socket s)
                               (authRecord "Changed your password successfully.")])
                 (S (ticks w))
           | None =>
               mkWorld (heap w) (users w)
                 (wire w ++ [SWrite (Socket s)
                               (authRecord "There was an error changing your password. Please try again.")])
                 (S (ticks w))
           end).
Proof.
  intros Hauth Hs Ha.
  change (dispatch clock generate compare s "AUTH" (password :: rest) w)
    with (caseAUTH generate compare s (password :: rest) w).
  unfold caseAUTH. rewrite Hauth.
  destruct (generate (ticks w) password) as [h|]; [|reflexivity].
  assert (Hat : heap (tick w) !! a = Some u) by exact Ha.
  rewrite Hs, (modify_Some _ _ _ _ Hat), bind_Ok. reflexivity.
Qed.

Lemma X29_auth_again_changes_password_witness :
  Authenticated sessionBob = true
  /\ (r ← dispatch demoClock demoGenerate demoCompare sessionBob "AUTH" ["n3w"] demoWorld;
      Ok ((fun u => (PasswordHash u, map Socket (Sessions u))) <$> heap (snd r) !! 3%nat))
     = Ok (Some ("$2a$n3w", [2%nat])).
Proof.
  split; [reflexivity|].
  rewrite (X29_auth_again_changes_password demoClock demoGenerate demoCompare
             sessionBob demoWorld 3%nat _ "n3w" [] eq_refl eq_refl eq_refl).
  reflexivity.
Defined.
